(** * Verification of the bancoproblemas serverless endpoints

    The development embeds the two request handlers of the repository,
    [api/generate-problem.js] (problem generation through a language model) and
    [api/problems.js] (persistence into a file of a source-hosting service),
    as Rocq functions, and states and proves properties of the embedding.

    Conventions of the embedding:
    - a JavaScript string is the list of its UTF-16 code units ([jstring]);
    - a JavaScript number is [NaN], an infinity or an exact decimal fraction
      ([Fin m d] stands for [m / 10^d]); rounding to binary64, overflow and
      underflow are not modelled, and [-0] is identified with [0];
    - a JavaScript value that can come out of [JSON.parse] is a [JsVal]; an
      object is the list of its own properties in enumeration order;
    - a function that can throw returns an [option], [None] standing for the
      exception; the handlers that call a service run in a small monad that
      also logs the calls;
    - [toUpperCase] is the engine's, a parameter of the embedding ([Engine]);
    - calls that leave the process (the clock, the random generator, [fetch])
      are inputs of the functions that make them; the values of environment
      variables are well-formed strings, on which [encodeURIComponent]
      returns;
    - a request carries the bytes of its body, which [req.json()] decodes as
      UTF-8 (a leading byte order mark dropped) before it parses them; the
      body of a reply of a service is given as the text of that decoding;
    - [new Response] throws for a status it does not accept; a status the
      source writes as a constant is accepted. *)

From Stdlib Require Import String Ascii List ZArith NArith Lia Bool Arith.
From Stdlib Require Import DecimalN DecimalFacts.
Import ListNotations.

Set Implicit Arguments.
Local Open Scope string_scope.
Local Open Scope list_scope.

(** ** Strings *)

Definition jstring := list N.

(** [js "abc"] is the JavaScript string literal ['abc'] (ASCII literals only). *)
Definition js (s : string) : jstring := map N_of_ascii (list_ascii_of_string s).

Fixpoint jeqb (a b : jstring) : bool :=
  match a, b with
  | [], [] => true
  | x :: a', y :: b' => N.eqb x y && jeqb a' b'
  | _, _ => false
  end.

Fixpoint starts_with (p s : jstring) : bool :=
  match p, s with
  | [], _ => true
  | x :: p', y :: s' => N.eqb x y && starts_with p' s'
  | _ :: _, [] => false
  end.

Fixpoint dropwhile (f : N -> bool) (s : jstring) : jstring :=
  match s with
  | [] => []
  | c :: s' => if f c then dropwhile f s' else s
  end.

Fixpoint takewhile (f : N -> bool) (s : jstring) : jstring :=
  match s with
  | [] => []
  | c :: s' => if f c then c :: takewhile f s' else []
  end.

(** WhiteSpace and LineTerminator code units: what [trim] strips and what [\s]
    matches. *)
Definition is_space (c : N) : bool :=
  ((9 <=? c) && (c <=? 13) || (c =? 32) || (c =? 160) || (c =? 5760)
   || (8192 <=? c) && (c <=? 8202) || (c =? 8232) || (c =? 8233)
   || (c =? 8239) || (c =? 8287) || (c =? 12288) || (c =? 65279))%N.

Definition trimStart (s : jstring) : jstring := dropwhile is_space s.
Definition trimEnd (s : jstring) : jstring := rev (dropwhile is_space (rev s)).
Definition trim (s : jstring) : jstring := trimEnd (trimStart s).

(** [s.indexOf(p)]: position of the first occurrence, [-1] when there is none. *)
Fixpoint indexOf_from (p s : jstring) (i : Z) : Z :=
  if starts_with p s then i
  else match s with
       | [] => (-1)%Z
       | _ :: s' => indexOf_from p s' (i + 1)%Z
       end.
Definition indexOf (s p : jstring) : Z := indexOf_from p s 0.

(** [s.lastIndexOf(p)]: position of the last occurrence, [-1] when there is none. *)
Fixpoint lastIndexOf_from (p s : jstring) (i : Z) : Z :=
  match s with
  | [] => if starts_with p [] then i else (-1)%Z
  | _ :: s' =>
      let r := lastIndexOf_from p s' (i + 1)%Z in
      if (0 <=? r)%Z then r else if starts_with p s then i else (-1)%Z
  end.
Definition lastIndexOf (s p : jstring) : Z := lastIndexOf_from p s 0.

(** Index arithmetic shared by [String.prototype.slice] and
    [Array.prototype.slice]: a negative index counts from the end, and both
    ends are clamped into [0..len]. *)
Definition clamp_index (len i : Z) : Z :=
  if (i <? 0)%Z then Z.max (len + i) 0 else Z.min i len.

Definition slice (A : Type) (s : list A) (a b : Z) : list A :=
  let len := Z.of_nat (length s) in
  let from := clamp_index len a in
  let to := clamp_index len b in
  firstn (Z.to_nat (to - from)) (skipn (Z.to_nat from) s).

(** [s.replace(p, r)] with a string pattern: the first occurrence only. (The
    replacement strings of the source hold no [$] pattern.) *)
Fixpoint replace_first (p r s : jstring) : jstring :=
  if starts_with p s then r ++ skipn (length p) s
  else match s with
       | [] => []
       | c :: s' => c :: replace_first p r s'
       end.

(** [s.replace(/[class]/g, f)] for a regular expression that is one character
    class: every code unit of the class is replaced by what the callback
    returns for it. *)
Definition replace_class_g (cls : N -> bool) (f : jstring -> jstring) (s : jstring) : jstring :=
  flat_map (fun c => if cls c then f [c] else [c]) s.

(** [s.replace(/```/g, '')]: every occurrence of three backticks, left to right. *)
Fixpoint remove_fences (s : jstring) : jstring :=
  match s with
  | 96%N :: 96%N :: 96%N :: r => remove_fences r
  | c :: s' => c :: remove_fences s'
  | [] => []
  end.

Definition lower_ascii (c : N) : N :=
  if ((65 <=? c) && (c <=? 90))%N then (c + 32)%N else c.

(** Case-insensitive prefix test against a lower-case ASCII literal. Without
    the [u] flag, which the source does not set, the [i] flag folds no code
    unit above U+007F onto an ASCII letter, so only the two cases of each
    letter match. *)
Fixpoint starts_with_ci (p s : jstring) : bool :=
  match p, s with
  | [], _ => true
  | x :: p', y :: s' => N.eqb x (lower_ascii y) && starts_with_ci p' s'
  | _ :: _, [] => false
  end.

(** [s.replace(/^json\s*/i, '')]. *)
Definition strip_json_tag (s : jstring) : jstring :=
  if starts_with_ci (js "json") s then dropwhile is_space (skipn 4 s) else s.

(** [/sha/i.test(s)]. *)
Fixpoint test_sha (s : jstring) : bool :=
  starts_with_ci (js "sha") s
  || match s with
     | [] => false
     | _ :: s' => test_sha s'
     end.

(** ** Case mapping *)

(** [String.prototype.toUpperCase] is the engine's: the upper-case mapping of
    the Unicode tables, applied code point by code point. The embedding takes
    it as given. *)
Class Engine : Type := {
  toUpperCase : jstring -> jstring
}.

(** Upper-casing an upper-cased string changes nothing, as the Unicode
    mapping sends every character to characters that it leaves alone. *)
Definition stable_case {engine : Engine} : Prop :=
  forall s : jstring, toUpperCase (toUpperCase s) = toUpperCase s.

(** The mapping on ASCII and Latin-1 letters, as the Unicode tables have it
    (sharp s becomes [SS], micro and y-diaeresis leave Latin-1), and every
    other code unit kept: the engine of the examples, whose strings are
    ASCII. *)
Definition upper_unit (c : N) : jstring :=
  if ((97 <=? c) && (c <=? 122))%N then [(c - 32)%N]
  else if (c =? 181)%N then [924%N]
  else if (c =? 223)%N then [83%N; 83%N]
  else if ((224 <=? c) && (c <=? 254) && negb (c =? 247))%N then [(c - 32)%N]
  else if (c =? 255)%N then [376%N]
  else [c].

Definition latin1 : Engine := {| toUpperCase := flat_map upper_unit |}.

(** ** Numbers *)

Inductive JsNum : Type :=
| NaN
| Inf (neg : bool)
| Fin (m : Z) (d : nat).

Definition pow10 (d : nat) : Z := (10 ^ Z.of_nat d)%Z.

(** [a < b] on numbers; false as soon as one side is [NaN]. *)
Definition num_ltb (a b : JsNum) : bool :=
  match a, b with
  | NaN, _ | _, NaN => false
  | Inf n1, Inf n2 => n1 && negb n2
  | Inf n, Fin _ _ => n
  | Fin _ _, Inf n => negb n
  | Fin ma da, Fin mb db => (ma * pow10 db <? mb * pow10 da)%Z
  end.

(** [Math.max(a, b)] and [Math.min(a, b)]: [NaN] if either argument is. *)
Definition Math_max (a b : JsNum) : JsNum :=
  match a, b with
  | NaN, _ | _, NaN => NaN
  | _, _ => if num_ltb a b then b else a
  end.

Definition Math_min (a b : JsNum) : JsNum :=
  match a, b with
  | NaN, _ | _, NaN => NaN
  | _, _ => if num_ltb b a then b else a
  end.

(** A number lies in the closed interval [lo..hi] of integers bounds. *)
Definition num_between (lo hi : Z) (x : JsNum) : bool :=
  match x with
  | Fin m d => ((lo * pow10 d <=? m) && (m <=? hi * pow10 d))%Z
  | _ => false
  end.

(** ToIntegerOrInfinity, as [Array.prototype.slice] applies it to its bounds:
    an integer or an infinity, whose sign the flag gives. *)
Inductive IntOrInf : Type :=
| IInt (z : Z)
| IInf (neg : bool).

Definition ToIntegerOrInfinity (x : JsNum) : IntOrInf :=
  match x with
  | NaN => IInt 0
  | Inf n => IInf n
  | Fin m d => IInt (Z.quot m (pow10 d))
  end.

Definition is_digit (c : N) : bool := ((48 <=? c) && (c <=? 57))%N.

Fixpoint uint_codes (u : Decimal.uint) : jstring :=
  match u with
  | Decimal.Nil => []
  | Decimal.D0 u => 48%N :: uint_codes u
  | Decimal.D1 u => 49%N :: uint_codes u
  | Decimal.D2 u => 50%N :: uint_codes u
  | Decimal.D3 u => 51%N :: uint_codes u
  | Decimal.D4 u => 52%N :: uint_codes u
  | Decimal.D5 u => 53%N :: uint_codes u
  | Decimal.D6 u => 54%N :: uint_codes u
  | Decimal.D7 u => 55%N :: uint_codes u
  | Decimal.D8 u => 56%N :: uint_codes u
  | Decimal.D9 u => 57%N :: uint_codes u
  end.

(** The decimal digits of a natural number, most significant first. *)
Definition digits_of_N (n : N) : jstring := uint_codes (N.to_uint n).

(** The digit a code unit stands for in a radix up to 16 (16 or more when it
    stands for none). *)
Definition digit_value (c : N) : N :=
  if is_digit c then (c - 48)%N
  else if ((97 <=? c) && (c <=? 102))%N then (c - 87)%N
  else if ((65 <=? c) && (c <=? 70))%N then (c - 55)%N
  else 16%N.

Definition N_of_radix (base : N) (s : jstring) : N :=
  fold_left (fun acc c => (base * acc + digit_value c)%N) s 0%N.

Definition N_of_digits (s : jstring) : N := N_of_radix 10 s.

Definition all_radix (base : N) (s : jstring) : bool :=
  forallb (fun c => (digit_value c <? base)%N) s.

Definition strip_trailing_zeros (s : jstring) : jstring :=
  rev (dropwhile (N.eqb 48) (rev s)).

(** Number::toString (radix 10). With [s] the significant digits, [k] their
    count and [n] the position of the decimal point, the four layouts of the
    language definition. *)
Definition Number_toString (x : JsNum) : jstring :=
  match x with
  | NaN => js "NaN"
  | Inf false => js "Infinity"
  | Inf true => js "-Infinity"
  | Fin m d =>
      if (m =? 0)%Z then js "0"
      else
        let ds := digits_of_N (Z.abs_N m) in
        let s := strip_trailing_zeros ds in
        let k := Z.of_nat (length s) in
        let n := (Z.of_nat (length ds) - Z.of_nat d)%Z in
        (if (m <? 0)%Z then js "-" else [])
        ++ (if ((k <=? n) && (n <=? 21))%Z then s ++ repeat 48%N (Z.to_nat (n - k))
            else if ((0 <? n) && (n <=? 21))%Z then
              firstn (Z.to_nat n) s ++ js "." ++ skipn (Z.to_nat n) s
            else if ((-6 <? n) && (n <=? 0))%Z then
              js "0." ++ repeat 48%N (Z.to_nat (- n)) ++ s
            else
              let e := (n - 1)%Z in
              let es := (if (e <? 0)%Z then js "-" else js "+") ++ digits_of_N (Z.abs_N e) in
              match s with
              | [] => []
              | [c] => [c] ++ js "e" ++ es
              | c :: r => [c] ++ js "." ++ r ++ js "e" ++ es
              end)
  end.

(** [m / 10^d] with the trailing zeros of the fraction removed. *)
Fixpoint normalise (m : Z) (d : nat) : JsNum :=
  match d with
  | O => Fin m 0
  | S d' => if (m mod 10 =? 0)%Z then normalise (m / 10) d' else Fin m d
  end.

(** The value of a decimal literal: sign, digits of the integer and fraction
    parts read as one natural number, length of the fraction, exponent. *)
Definition decimal_value (neg : bool) (mant : N) (fraclen : nat) (e : Z) : JsNum :=
  let m := if neg then (- Z.of_N mant)%Z else Z.of_N mant in
  let sh := (e - Z.of_nat fraclen)%Z in
  if (0 <=? sh)%Z then Fin (m * 10 ^ sh) 0 else normalise m (Z.to_nat (- sh)).

(** An optional exponent part [e[+-]digits] that must end the literal. *)
Definition exponent_part (s : jstring) : option Z :=
  match s with
  | [] => Some 0%Z
  | c :: r =>
      if ((c =? 101) || (c =? 69))%N then
        let '(neg, ds) :=
          match r with
          | 43%N :: r' => (false, r')
          | 45%N :: r' => (true, r')
          | _ => (false, r)
          end in
        match ds with
        | [] => None
        | _ => if forallb is_digit ds
               then Some (if neg then (- Z.of_N (N_of_digits ds))%Z else Z.of_N (N_of_digits ds))
               else None
        end
      else None
  end.

(** StrUnsignedDecimalLiteral without [Infinity]: digits, an optional
    fraction (either side of the point may be empty, not both), an optional
    exponent. *)
Definition unsigned_decimal (neg : bool) (s : jstring) : option JsNum :=
  let ip := takewhile is_digit s in
  let r1 := dropwhile is_digit s in
  let '(fp, r2) :=
    match r1 with
    | 46%N :: r => (takewhile is_digit r, dropwhile is_digit r)
    | _ => ([], r1)
    end in
  match ip ++ fp with
  | [] => None
  | ds => match exponent_part r2 with
          | Some e => Some (decimal_value neg (N_of_digits ds) (length fp) e)
          | None => None
          end
  end.

Definition radix_literal (base : N) (ds : jstring) : JsNum :=
  match ds with
  | [] => NaN
  | _ => if all_radix base ds then Fin (Z.of_N (N_of_radix base ds)) 0 else NaN
  end.

(** StringToNumber: what [Number(s)] returns for a string. *)
Definition StringToNumber (s : jstring) : JsNum :=
  match trim s with
  | [] => Fin 0 0
  | 48%N :: x :: ds =>
      if ((x =? 120) || (x =? 88))%N then radix_literal 16 ds
      else if ((x =? 111) || (x =? 79))%N then radix_literal 8 ds
      else if ((x =? 98) || (x =? 66))%N then radix_literal 2 ds
      else match unsigned_decimal false (48%N :: x :: ds) with
           | Some v => v
           | None => NaN
           end
  | t =>
      let '(neg, body) :=
        match t with
        | 43%N :: r => (false, r)
        | 45%N :: r => (true, r)
        | _ => (false, t)
        end in
      if jeqb body (js "Infinity") then Inf neg
      else match unsigned_decimal neg body with
           | Some v => v
           | None => NaN
           end
  end.

(** ** Values *)

(** The values [JSON.parse] can return, and [undefined]. An object is the
    list of its own enumerable properties in enumeration order. *)
#[local] Unset Elimination Schemes.
Inductive JsVal : Type :=
| JUndefined
| JNull
| JBool (b : bool)
| JNum (n : JsNum)
| JStr (s : jstring)
| JArr (l : list JsVal)
| JObj (o : list (jstring * JsVal)).
#[local] Set Elimination Schemes.

Definition props := list (jstring * JsVal).

(** ToBoolean. *)
Definition truthy (v : JsVal) : bool :=
  match v with
  | JUndefined | JNull => false
  | JBool b => b
  | JNum NaN => false
  | JNum (Inf _) => true
  | JNum (Fin m _) => negb (m =? 0)%Z
  | JStr s => match s with [] => false | _ => true end
  | JArr _ | JObj _ => true
  end.

(** [a || b] and [a ?? b]. *)
Definition or_else (a b : JsVal) : JsVal := if truthy a then a else b.

Definition nullish (a b : JsVal) : JsVal :=
  match a with
  | JUndefined | JNull => b
  | _ => a
  end.

Definition isArray (v : JsVal) : bool :=
  match v with
  | JArr _ => true
  | _ => false
  end.

Fixpoint join (sep : jstring) (l : list jstring) : jstring :=
  match l with
  | [] => []
  | [x] => x
  | x :: r => x ++ sep ++ join sep r
  end.

(** ToString, which is what [String(v)] returns: an array is its elements
    joined by commas ([undefined] and [null] elements give the empty string), an
    object is ['[object Object]']. *)
Fixpoint ToString (v : JsVal) : jstring :=
  match v with
  | JUndefined => js "undefined"
  | JNull => js "null"
  | JBool true => js "true"
  | JBool false => js "false"
  | JNum n => Number_toString n
  | JStr s => s
  | JArr l =>
      join (js ",")
        (map (fun x => match x with
                       | JUndefined | JNull => []
                       | _ => ToString x
                       end) l)
  | JObj _ => js "[object Object]"
  end.

(** ToNumber, which is what [Number(v)] returns. *)
Definition ToNumber (v : JsVal) : JsNum :=
  match v with
  | JUndefined => NaN
  | JNull => Fin 0 0
  | JBool true => Fin 1 0
  | JBool false => Fin 0 0
  | JNum n => n
  | JStr s => StringToNumber s
  | JArr _ | JObj _ => StringToNumber (ToString v)
  end.

(** *** Properties *)

(** An array index: the canonical decimal form of an integer below [2^32 - 1].
    Such keys are enumerated first, in ascending order. *)
Definition array_index (k : jstring) : option N :=
  match k with
  | [] => None
  | [48%N] => Some 0%N
  | c :: _ =>
      if forallb is_digit k && negb (c =? 48)%N && (length k <=? 10)%nat
         && (N_of_digits k <? 4294967295)%N
      then Some (N_of_digits k) else None
  end.

(** Whether a new key [k] is enumerated before the existing key [k']. *)
Definition enumerated_before (k k' : jstring) : bool :=
  match array_index k, array_index k' with
  | Some i, Some i' => (i <? i')%N
  | Some _, None => true
  | None, _ => false
  end.

Fixpoint lookup (k : jstring) (o : props) : option JsVal :=
  match o with
  | [] => None
  | (k', x) :: o' => if jeqb k k' then Some x else lookup k o'
  end.

(** [o[k] = x] on an ordinary object: an existing property keeps its place, a
    new one goes to its place in enumeration order. *)
Fixpoint set_prop (k : jstring) (x : JsVal) (o : props) : props :=
  match o with
  | [] => [(k, x)]
  | (k', y) :: o' =>
      if jeqb k k' then (k', x) :: o'
      else if enumerated_before k k' then (k, x) :: (k', y) :: o'
      else (k', y) :: set_prop k x o'
  end.

Fixpoint index_props (i : N) (l : list JsVal) : props :=
  match l with
  | [] => []
  | x :: r => (digits_of_N i, x) :: index_props (i + 1) r
  end.

(** The own enumerable properties of a value, as the spread [{...v}] copies
    them: those of an object, the elements of an array, the code units of a
    string, none otherwise. *)
Definition spread (v : JsVal) : props :=
  match v with
  | JObj o => o
  | JArr l => index_props 0 l
  | JStr s => index_props 0 (map (fun c => JStr [c]) s)
  | _ => []
  end.

(** [v.k] and [v?.k] for the keys the source reads: none of them is [length]
    or a name the prototypes define, so only own properties count. On
    [undefined] and [null] this is the optional form [v?.k]; the plain form
    throws there, which callers state with [is_nullish]. *)
Definition get (v : JsVal) (k : jstring) : JsVal :=
  match lookup k (spread v) with
  | Some x => x
  | None => JUndefined
  end.

Definition is_nullish (v : JsVal) : bool :=
  match v with
  | JUndefined | JNull => true
  | _ => false
  end.

Definition keys (o : props) : list jstring := map fst o.

(** Whether [k] is an own property of [v]. *)
Definition has_key (v : JsVal) (k : jstring) : bool :=
  match lookup k (spread v) with
  | Some _ => true
  | None => false
  end.

(** ** Conversions that can throw *)

(** Whether [String(v)] and [Number(v)] return. A parsed value has no callable
    property: an object with an own [toString] hides the inherited method, the
    inherited [valueOf] returns the object itself, and the conversion throws a
    TypeError. An array is converted through [join], which converts its
    elements; an object without own [toString] prints without a look at its
    properties. *)
Fixpoint convertible (v : JsVal) : bool :=
  match v with
  | JArr l => forallb convertible l
  | JObj o => match lookup (js "toString") o with
              | Some _ => false
              | None => true
              end
  | _ => true
  end.

(** [String(v)] and [Number(v)]; [None] when they throw. *)
Definition String_of (v : JsVal) : option jstring :=
  if convertible v then Some (ToString v) else None.

Definition Number_of (v : JsVal) : option JsNum :=
  if convertible v then Some (ToNumber v) else None.

(** Sequencing of steps that can throw. *)
Definition and_then (A B : Type) (m : option A) (k : A -> option B) : option B :=
  match m with
  | Some x => k x
  | None => None
  end.

Notation "'do' x <- m ; k" := (and_then m (fun x => k))
  (at level 10, x name, m at level 100, k at level 200).

(** [l.map(f)] for a callback that can throw. *)
Fixpoint mapM (A B : Type) (f : A -> option B) (l : list A) : option (list B) :=
  match l with
  | [] => Some []
  | x :: r => do y <- f x; do ys <- mapM f r; Some (y :: ys)
  end.

(** ** The generation endpoint: normalisation of one record *)

Definition is_str (v : JsVal) (lit : jstring) : bool :=
  match v with
  | JStr s => jeqb s lit
  | _ => false
  end.

(** The class [[^0-9.?-]] of the source's regular expression. *)
Definition numeric_char (c : N) : bool :=
  is_digit c || (c =? 46)%N || (c =? 63)%N || (c =? 45)%N.

(** [coerceStr]; what it returns is always a string. *)
Definition coerceStr (v : JsVal) : option jstring :=
  match v with
  | JUndefined | JNull => Some (js "")
  | _ =>
      if is_str v (js "?") || is_str v (js "RESULTADO_ANTERIOR") then Some (ToString v)
      else
        do s <- String_of v;
        Some (replace_class_g (fun c => negb (numeric_char c))
                (fun m => if jeqb m (js "?") then js "?" else js "")
                (replace_first (js ",") (js ".") s))
  end.

(** What the clock and the random generator return during one call. *)
Record Entropy : Type := {
  rand1 : jstring;  (* Math.random().toString(36).slice(2, 10) *)
  rand2 : jstring;  (* Math.random().toString(36).slice(2, 6) *)
  now : JsNum       (* Date.now() *)
}.

Definition genId (e : Entropy) : jstring := rand1 e ++ js "-" ++ rand2 e.

(** The fallback context of a normalisation: the request's grade and type. *)
Record Ctx : Type := {
  grade : JsNum;
  type : jstring
}.

Definition obj (l : list (string * JsVal)) : JsVal :=
  JObj (map (fun kv => (js (fst kv), snd kv)) l).

(** The per-type default captions; the source writes this table twice, once
    per branch. *)
Definition defaults : JsVal :=
  obj [("PPT", obj [("p1", JStr (js "Parte 1")); ("p2", JStr (js "Parte 2")); ("t", JStr (js "Total"))]);
       ("UVT", obj [("u", JStr (js "Unidad")); ("v", JStr (js "Veces")); ("t", JStr (js "Total"))]);
       ("COMPARACION", obj [("cm", JStr (js "Cantidad mayor")); ("cmen", JStr (js "Cantidad menor")); ("d", JStr (js "Diferencia"))]);
       ("CAMBIO", obj [("ci", JStr (js "Cantidad inicial")); ("c", JStr (js "Cambio")); ("cf", JStr (js "Cantidad final"))])]%string.

(** One of the four object literals [{ a: coerceStr(d.a), b: coerceStr(d.b),
    r: coerceStr(d.r ?? '?') }], its fields evaluated in order. *)
Definition data_literal (d : JsVal) (a b r : string) : option JsVal :=
  do x <- coerceStr (get d (js a));
  do y <- coerceStr (get d (js b));
  do z <- coerceStr (nullish (get d (js r)) (JStr (js "?")));
  Some (obj [(a, JStr x); (b, JStr y); (r, JStr z)]).

(** The chain [if (type === 'PPT') x.data = {...} else if ...], which both
    branches of the source run on their object [x]. *)
Definition assign_data (ty : jstring) (d : JsVal) (x : props) : option props :=
  if jeqb ty (js "PPT") then
    do l <- data_literal d "p1" "p2" "t"; Some (set_prop (js "data") l x)
  else if jeqb ty (js "UVT") then
    do l <- data_literal d "u" "v" "t"; Some (set_prop (js "data") l x)
  else if jeqb ty (js "COMPARACION") then
    do l <- data_literal d "cm" "cmen" "d"; Some (set_prop (js "data") l x)
  else if jeqb ty (js "CAMBIO") then
    do l <- data_literal d "ci" "c" "cf"; Some (set_prop (js "data") l x)
  else Some x.

(** [['+','-','*','/'].includes(v) ? v : '+']. *)
Definition valid_operation (v : JsVal) : JsVal :=
  if is_str v (js "+") || is_str v (js "-") || is_str v (js "*") || is_str v (js "/")
  then v else JStr (js "+").

(** The callback that [normalizeProblem] maps over the steps. *)
Definition normalizeStep {engine : Engine} (s : JsVal) : option JsVal :=
  let st := spread s in
  do t <- String_of (or_else (get (JObj st) (js "type")) (JStr (js "PPT")));
  let ty := toUpperCase t in
  let st := set_prop (js "type") (JStr ty) st in
  let st := set_prop (js "operation") (valid_operation (get (JObj st) (js "operation"))) st in
  let d := JObj (spread (or_else (get (JObj st) (js "data")) (JObj []))) in
  do st <- assign_data ty d st;
  let st := set_prop (js "labels")
              (or_else (or_else (get (JObj st) (js "labels")) (get defaults ty)) (JObj [])) st in
  do a <- coerceStr (get (JObj st) (js "answer"));
  Some (JObj (set_prop (js "answer") (JStr a) st)).

(** The assignments of the branch for simple records. *)
Definition normalizeSimple (ty : jstring) (out : props) : option props :=
  let d := JObj (spread (or_else (get (JObj out) (js "data")) (JObj []))) in
  do out <- assign_data ty d out;
  let out := set_prop (js "labels")
               (or_else (or_else (get (JObj out) (js "labels")) (get defaults ty)) (JObj [])) out in
  let out := set_prop (js "operation") (valid_operation (get (JObj out) (js "operation"))) out in
  do a <- coerceStr (get (JObj out) (js "answer"));
  Some (set_prop (js "answer") (JStr a) out).

Definition elements (v : JsVal) : list JsVal :=
  match v with
  | JArr l => l
  | _ => []
  end.

(** [normalizeProblem]; [None] when one of its conversions throws. *)
Definition normalizeProblem {engine : Engine} (e : Entropy) (p : JsVal) (ctx : Ctx)
  : option JsVal :=
  let out := spread p in
  let out := if truthy (get (JObj out) (js "id")) then out
             else set_prop (js "id") (JStr (genId e)) out in
  let out := if truthy (get (JObj out) (js "createdAt")) then out
             else set_prop (js "createdAt") (JNum (now e)) out in
  do g <- Number_of (nullish (get (JObj out) (js "grade")) (JNum (grade ctx)));
  let out := set_prop (js "grade") (JNum g) out in
  do t <- String_of (or_else (get (JObj out) (js "type")) (JStr (type ctx)));
  let ty := toUpperCase t in
  let out := set_prop (js "type") (JStr ty) out in
  if jeqb ty (js "DOS_OPERACIONES") && isArray (get (JObj out) (js "steps")) then
    do steps <- mapM normalizeStep (slice (elements (get (JObj out) (js "steps"))) 0 2);
    Some (JObj (set_prop (js "steps") (JArr steps) out))
  else
    do out <- normalizeSimple ty out;
    Some (JObj out).

(** *** What a normalisation returns *)

(** The value each function of the normalisation returns when none of its
    conversions throws: the same assignments, with [String] and [Number] read
    as [ToString] and [ToNumber]. The statements about the records are made
    on these; [normalizeProblem_returns] and its companions tie them to the
    functions above. *)
Definition coercion (v : JsVal) : jstring :=
  match v with
  | JUndefined | JNull => js ""
  | _ =>
      if is_str v (js "?") || is_str v (js "RESULTADO_ANTERIOR") then ToString v
      else
        replace_class_g (fun c => negb (numeric_char c))
          (fun m => if jeqb m (js "?") then js "?" else js "")
          (replace_first (js ",") (js ".") (ToString v))
  end.

Definition data_fields (d : JsVal) (a b r : string) : JsVal :=
  obj [(a, JStr (coercion (get d (js a))));
       (b, JStr (coercion (get d (js b))));
       (r, JStr (coercion (nullish (get d (js r)) (JStr (js "?")))))].

Definition with_data (ty : jstring) (d : JsVal) (x : props) : props :=
  if jeqb ty (js "PPT") then set_prop (js "data") (data_fields d "p1" "p2" "t") x
  else if jeqb ty (js "UVT") then set_prop (js "data") (data_fields d "u" "v" "t") x
  else if jeqb ty (js "COMPARACION") then set_prop (js "data") (data_fields d "cm" "cmen" "d") x
  else if jeqb ty (js "CAMBIO") then set_prop (js "data") (data_fields d "ci" "c" "cf") x
  else x.

Definition normal_step {engine : Engine} (s : JsVal) : JsVal :=
  let st := spread s in
  let ty := toUpperCase (ToString (or_else (get (JObj st) (js "type")) (JStr (js "PPT")))) in
  let st := set_prop (js "type") (JStr ty) st in
  let st := set_prop (js "operation") (valid_operation (get (JObj st) (js "operation"))) st in
  let d := JObj (spread (or_else (get (JObj st) (js "data")) (JObj []))) in
  let st := with_data ty d st in
  let st := set_prop (js "labels")
              (or_else (or_else (get (JObj st) (js "labels")) (get defaults ty)) (JObj [])) st in
  let st := set_prop (js "answer") (JStr (coercion (get (JObj st) (js "answer")))) st in
  JObj st.

Definition normal_simple (ty : jstring) (out : props) : props :=
  let d := JObj (spread (or_else (get (JObj out) (js "data")) (JObj []))) in
  let out := with_data ty d out in
  let out := set_prop (js "labels")
               (or_else (or_else (get (JObj out) (js "labels")) (get defaults ty)) (JObj [])) out in
  let out := set_prop (js "operation") (valid_operation (get (JObj out) (js "operation"))) out in
  let out := set_prop (js "answer") (JStr (coercion (get (JObj out) (js "answer")))) out in
  out.

Definition normal_record {engine : Engine} (e : Entropy) (p : JsVal) (ctx : Ctx) : JsVal :=
  let out := spread p in
  let out := if truthy (get (JObj out) (js "id")) then out
             else set_prop (js "id") (JStr (genId e)) out in
  let out := if truthy (get (JObj out) (js "createdAt")) then out
             else set_prop (js "createdAt") (JNum (now e)) out in
  let out := set_prop (js "grade")
               (JNum (ToNumber (nullish (get (JObj out) (js "grade")) (JNum (grade ctx))))) out in
  let ty := toUpperCase (ToString (or_else (get (JObj out) (js "type")) (JStr (type ctx)))) in
  let out := set_prop (js "type") (JStr ty) out in
  if jeqb ty (js "DOS_OPERACIONES") && isArray (get (JObj out) (js "steps")) then
    JObj (set_prop (js "steps")
            (JArr (map normal_step (slice (elements (get (JObj out) (js "steps"))) 0 2))) out)
  else JObj (normal_simple ty out).

(** A value none of whose objects has a property named [toString]: its
    conversions, and those of whatever is read off it, return. *)
Fixpoint plain (v : JsVal) : bool :=
  match v with
  | JArr l => forallb plain l
  | JObj o => match lookup (js "toString") o with
              | Some _ => false
              | None => true
              end && forallb (fun kv => plain (snd kv)) o
  | _ => true
  end.

Definition all_plain (o : props) : bool := forallb (fun kv => plain (snd kv)) o.

(** *** Vocabulary of the record invariants *)

(** The shared prefix of [normal_record]: the record once [id],
    [createdAt] and [grade] are assigned, and the type it then gets. *)
Definition stamped (e : Entropy) (p : JsVal) (ctx : Ctx) : props :=
  let out := spread p in
  let out := if truthy (get (JObj out) (js "id")) then out
             else set_prop (js "id") (JStr (genId e)) out in
  let out := if truthy (get (JObj out) (js "createdAt")) then out
             else set_prop (js "createdAt") (JNum (now e)) out in
  set_prop (js "grade")
    (JNum (ToNumber (nullish (get (JObj out) (js "grade")) (JNum (grade ctx))))) out.

Definition record_type {engine : Engine} (e : Entropy) (p : JsVal) (ctx : Ctx) : jstring :=
  toUpperCase (ToString (or_else (get (JObj (stamped e p ctx)) (js "type")) (JStr (type ctx)))).

Definition step_type {engine : Engine} (s : JsVal) : jstring :=
  toUpperCase (ToString (or_else (get (JObj (spread s)) (js "type")) (JStr (js "PPT")))).

(** A decimal numeral: an optional minus sign, digits, and an optional
    fraction of a point and digits. *)
Definition decimal_numeral (s : jstring) : bool :=
  let body := match s with 45%N :: r => r | _ => s end in
  let ip := takewhile is_digit body in
  match ip, dropwhile is_digit body with
  | [], _ => false
  | _ :: _, [] => true
  | _ :: _, 46%N :: fp => match fp with [] => false | _ => forallb is_digit fp end
  | _ :: _, _ => false
  end.

(** The values the specification allows in [data] and [answer]: a decimal
    numeric string or one of the two sentinels. *)
Definition numeric_or_sentinel (v : JsVal) : bool :=
  match v with
  | JStr s => decimal_numeral s || jeqb s (js "?") || jeqb s (js "RESULTADO_ANTERIOR")
  | _ => false
  end.

(** What [coercion] guarantees instead: the sentinel [RESULTADO_ANTERIOR], or
    a string of digits, points, minus signs and question marks (the empty
    string included). *)
Definition coerced_value (v : JsVal) : bool :=
  match v with
  | JStr s => forallb numeric_char s || jeqb s (js "RESULTADO_ANTERIOR")
  | _ => false
  end.

(** The per-type key table of the interface. *)
Definition type_keys (ty : jstring) : option (list jstring) :=
  if jeqb ty (js "PPT") then Some [js "p1"; js "p2"; js "t"]
  else if jeqb ty (js "UVT") then Some [js "u"; js "v"; js "t"]
  else if jeqb ty (js "COMPARACION") then Some [js "cm"; js "cmen"; js "d"]
  else if jeqb ty (js "CAMBIO") then Some [js "ci"; js "c"; js "cf"]
  else None.

Definition keys_of (v : JsVal) : list jstring := map fst (spread v).
Definition values_of (v : JsVal) : list JsVal := map snd (spread v).

Fixpoint keys_eqb (a b : list jstring) : bool :=
  match a, b with
  | [], [] => true
  | x :: a', y :: b' => jeqb x y && keys_eqb a' b'
  | _, _ => false
  end.

(** The invariants of a record as the data model words them: [data] has
    exactly the keys of the record's type, and the values of [data] and
    [answer] are numeric strings or sentinels. *)
Definition record_invariants (r : JsVal) : bool :=
  match type_keys (ToString (get r (js "type"))) with
  | Some ks =>
      keys_eqb (keys_of (get r (js "data"))) ks
      && forallb numeric_or_sentinel (values_of (get r (js "data")))
      && numeric_or_sentinel (get r (js "answer"))
  | None => false
  end.

(** The fields a normalised record or step holds, in the form that makes a
    second normalisation change nothing. *)
Record normal_fields (ty : jstring) (F : props) : Prop := {
  nf_operation : exists V, lookup (js "operation") F = Some V /\ valid_operation V = V;
  nf_labels : exists L, lookup (js "labels") F = Some L /\ truthy L = true;
  nf_answer : exists A, lookup (js "answer") F = Some (JStr A) /\ coercion (JStr A) = A;
  nf_data : forall ks, type_keys ty = Some ks ->
            exists d a b r,
              ks = [js a; js b; js r]
              /\ jeqb (js a) (js b) = false /\ jeqb (js a) (js r) = false
              /\ jeqb (js b) (js r) = false
              /\ lookup (js "data") F = Some (data_fields d a b r)
}.

(** The record and each step that [normal_record] normalised carry a
    non-empty type. *)
Definition types_nonempty (r : JsVal) : bool :=
  truthy (get r (js "type"))
  && (if is_str (get r (js "type")) (js "DOS_OPERACIONES")
      then forallb (fun s => truthy (get s (js "type"))) (elements (get r (js "steps")))
      else true).

(** The sample inputs of the examples. *)
Definition sample_entropy : Entropy :=
  {| rand1 := js "k3x9q2ab"; rand2 := js "7f0c"; now := Fin 1700000000000 0 |}.
Definition later_entropy : Entropy :=
  {| rand1 := js "zz81mmp0"; rand2 := js "q1w2"; now := Fin 1700000000500 0 |}.
Definition ctx_of (g : Z) (ty : string) : Ctx := {| grade := Fin g 0; type := js ty |}.

(** ** JSON *)

(** *** [JSON.stringify] *)

Definition hex_char (d : N) : N := if (d <? 10)%N then (48 + d)%N else (87 + d)%N.

(** The escape [\uXXXX] of a code unit, lower-case digits. *)
Definition unicode_escape (c : N) : jstring :=
  [92; 117; hex_char (c / 4096 mod 16); hex_char (c / 256 mod 16);
   hex_char (c / 16 mod 16); hex_char (c mod 16)]%N.

Definition is_high_surrogate (c : N) : bool := ((55296 <=? c) && (c <=? 56319))%N.
Definition is_low_surrogate (c : N) : bool := ((56320 <=? c) && (c <=? 57343))%N.

(** One code unit that is no part of a surrogate pair, as QuoteJSONString
    writes it. *)
Definition quote_unit (c : N) : jstring :=
  if (c =? 8)%N then js "\b"
  else if (c =? 9)%N then js "\t"
  else if (c =? 10)%N then js "\n"
  else if (c =? 12)%N then js "\f"
  else if (c =? 13)%N then js "\r"
  else if (c =? 34)%N then [92; 34]%N
  else if (c =? 92)%N then js "\\"
  else if (c <? 32)%N || is_high_surrogate c || is_low_surrogate c then unicode_escape c
  else [c].

Fixpoint quote_units (s : jstring) : jstring :=
  match s with
  | [] => []
  | c :: r =>
      match r with
      | c2 :: r2 =>
          if is_high_surrogate c && is_low_surrogate c2
          then c :: c2 :: quote_units r2
          else quote_unit c ++ quote_units r
      | [] => quote_unit c
      end
  end.

(** QuoteJSONString. *)
Definition quote (s : jstring) : jstring := [34%N] ++ quote_units s ++ [34%N].

Definition is_undefined (v : JsVal) : bool :=
  match v with
  | JUndefined => true
  | _ => false
  end.

(** SerializeJSONProperty for a value that is not [undefined] at the top
    (an [undefined] element of an array is written [null], an [undefined]
    member of an object is left out). [gap] is the indentation unit, [indent]
    the current indentation. *)
Fixpoint serialize (gap indent : jstring) (v : JsVal) : jstring :=
  match v with
  | JUndefined | JNull => js "null"
  | JBool true => js "true"
  | JBool false => js "false"
  | JNum (Fin m d) => Number_toString (Fin m d)
  | JNum _ => js "null"
  | JStr s => quote s
  | JArr l =>
      let inner := indent ++ gap in
      let items := map (serialize gap inner) l in
      match items, gap with
      | [], _ => js "[]"
      | _, [] => js "[" ++ join (js ",") items ++ js "]"
      | _, _ => [91; 10]%N ++ inner ++ join ([44; 10]%N ++ inner) items
                ++ [10%N] ++ indent ++ js "]"
      end
  | JObj o =>
      let inner := indent ++ gap in
      let colon := match gap with [] => js ":" | _ => js ": " end in
      let members :=
        flat_map (fun kv => if is_undefined (snd kv) then []
                            else [quote (fst kv) ++ colon ++ serialize gap inner (snd kv)]) o in
      match members, gap with
      | [], _ => js "{}"
      | _, [] => js "{" ++ join (js ",") members ++ js "}"
      | _, _ => [123; 10]%N ++ inner ++ join ([44; 10]%N ++ inner) members
                ++ [10%N] ++ indent ++ js "}"
      end
  end.

(** [JSON.stringify(v)] and [JSON.stringify(v, null, 2)], for the values the
    source passes, none of which is [undefined] itself. *)
Definition JSON_stringify (v : JsVal) : jstring := serialize [] [] v.
Definition JSON_stringify_2 (v : JsVal) : jstring := serialize (js "  ") [] v.

(** *** [JSON.parse] *)

Definition is_json_ws (c : N) : bool := ((c =? 32) || (c =? 9) || (c =? 10) || (c =? 13))%N.
Definition skip_ws (s : jstring) : jstring := dropwhile is_json_ws s.

Definition is_hex (c : N) : bool := (digit_value c <? 16)%N.

(** The characters of a string literal after its opening quote, up to the
    closing quote: the string they denote and what follows the literal. *)
Fixpoint parse_string (s : jstring) : option (jstring * jstring) :=
  let cons c r := match parse_string r with
                  | Some (x, rest) => Some (c :: x, rest)
                  | None => None
                  end in
  match s with
  | [] => None
  | c :: r =>
      if (c =? 34)%N then Some ([], r)
      else if (c =? 92)%N then
        match r with
        | [] => None
        | x :: r' =>
            if (x =? 34)%N then cons 34%N r'
            else if (x =? 92)%N then cons 92%N r'
            else if (x =? 47)%N then cons 47%N r'
            else if (x =? 98)%N then cons 8%N r'
            else if (x =? 102)%N then cons 12%N r'
            else if (x =? 110)%N then cons 10%N r'
            else if (x =? 114)%N then cons 13%N r'
            else if (x =? 116)%N then cons 9%N r'
            else if (x =? 117)%N then
              match r' with
              | h1 :: h2 :: h3 :: h4 :: r'' =>
                  if is_hex h1 && is_hex h2 && is_hex h3 && is_hex h4
                  then cons (N_of_radix 16 [h1; h2; h3; h4]) r''
                  else None
              | _ => None
              end
            else None
        end
      else if (c <? 32)%N then None
      else cons c r
  end.

Definition head_is (c : N) (s : jstring) : bool :=
  match s with
  | x :: _ => (x =? c)%N
  | [] => false
  end.

Definition is_nil (A : Type) (l : list A) : bool :=
  match l with
  | [] => true
  | _ => false
  end.

(** A JSON number: an optional minus sign, an integer part without leading
    zero, an optional fraction, an optional exponent. *)
Definition parse_number (s : jstring) : option (JsNum * jstring) :=
  let neg := head_is 45 s in
  let r0 := if neg then tl s else s in
  let ip := takewhile is_digit r0 in
  let r1 := dropwhile is_digit r0 in
  let has_frac := head_is 46 r1 in
  let fp := if has_frac then takewhile is_digit (tl r1) else [] in
  let r2 := if has_frac then dropwhile is_digit (tl r1) else r1 in
  let has_exp := head_is 101 r2 || head_is 69 r2 in
  let eneg := head_is 45 (tl r2) in
  let r2' := if head_is 43 (tl r2) || eneg then tl (tl r2) else tl r2 in
  let ed := if has_exp then takewhile is_digit r2' else [] in
  let r3 := if has_exp then dropwhile is_digit r2' else r2 in
  let e := if eneg then (- Z.of_N (N_of_digits ed))%Z else Z.of_N (N_of_digits ed) in
  if is_nil ip || (head_is 48 ip && (1 <? length ip)%nat)
     || (has_frac && is_nil fp) || (has_exp && is_nil ed)
  then None
  else Some (decimal_value neg (N_of_digits (ip ++ fp)) (length fp) e, r3).

(** The recursive-descent parser: a value, the elements of an array after its
    opening bracket, the members of an object after its opening brace. Each
    returns what it read and the text that follows. Members are defined on the
    object in their order, so a repeated key keeps its first place and its
    last value. [fuel] bounds the depth of the calls. *)
Fixpoint parse_value (fuel : nat) (s : jstring) : option (JsVal * jstring) :=
  match fuel with
  | O => None
  | S n =>
      match skip_ws s with
      | [] => None
      | c :: r =>
          if (c =? 123)%N then
            if head_is 125 (skip_ws r) then Some (JObj [], tl (skip_ws r))
            else parse_members n r []
          else if (c =? 91)%N then
            if head_is 93 (skip_ws r) then Some (JArr [], tl (skip_ws r))
            else parse_elements n r []
          else if (c =? 34)%N then
            match parse_string r with
            | Some (x, rest) => Some (JStr x, rest)
            | None => None
            end
          else if starts_with (js "true") (c :: r) then Some (JBool true, skipn 4 (c :: r))
          else if starts_with (js "false") (c :: r) then Some (JBool false, skipn 5 (c :: r))
          else if starts_with (js "null") (c :: r) then Some (JNull, skipn 4 (c :: r))
          else match parse_number (c :: r) with
               | Some (x, rest) => Some (JNum x, rest)
               | None => None
               end
      end
  end
with parse_elements (fuel : nat) (s : jstring) (acc : list JsVal) : option (JsVal * jstring) :=
  match fuel with
  | O => None
  | S n =>
      match parse_value n s with
      | Some (v, r) =>
          match skip_ws r with
          | c :: r' =>
              if (c =? 44)%N then parse_elements n r' (v :: acc)
              else if (c =? 93)%N then Some (JArr (rev (v :: acc)), r')
              else None
          | [] => None
          end
      | None => None
      end
  end
with parse_members (fuel : nat) (s : jstring) (acc : props) : option (JsVal * jstring) :=
  match fuel with
  | O => None
  | S n =>
      if head_is 34 (skip_ws s) then
        match parse_string (tl (skip_ws s)) with
        | Some (k, r1) =>
            if head_is 58 (skip_ws r1) then
              match parse_value n (tl (skip_ws r1)) with
              | Some (v, r3) =>
                  match skip_ws r3 with
                  | c :: r4 =>
                      if (c =? 44)%N then parse_members n r4 (set_prop k v acc)
                      else if (c =? 125)%N then Some (JObj (set_prop k v acc), r4)
                      else None
                  | [] => None
                  end
              | None => None
              end
            else None
        | None => None
        end
      else None
  end.

(** [JSON.parse(s)]; [None] when it throws a [SyntaxError]. Every call of the
    parser above either fails or reads a code unit before it calls itself
    twice, so twice the length of the text is fuel enough for any text
    ([JSON_parse_fuel]). *)
Definition JSON_parse (s : jstring) : option JsVal :=
  match parse_value (2 * length s + 2) s with
  | Some (v, rest) => match skip_ws rest with
                      | [] => Some v
                      | _ => None
                      end
  | None => None
  end.

(** ** UTF-8 *)

(** The UTF-8 bytes of a code point. *)
Definition utf8_bytes (cp : N) : list N :=
  (if cp <? 128 then [cp]
   else if cp <? 2048 then [192 + cp / 64; 128 + cp mod 64]
   else if cp <? 65536 then [224 + cp / 4096; 128 + cp / 64 mod 64; 128 + cp mod 64]
   else [240 + cp / 262144; 128 + cp / 4096 mod 64; 128 + cp / 64 mod 64; 128 + cp mod 64])%N.

(** [new TextEncoder().encode(s)]: a surrogate pair is one code point, a lone
    surrogate is replaced by U+FFFD. *)
Fixpoint TextEncoder_encode (s : jstring) : list N :=
  match s with
  | [] => []
  | c :: r =>
      let single := if is_high_surrogate c || is_low_surrogate c
                    then utf8_bytes 65533 else utf8_bytes c in
      match r with
      | c2 :: r2 =>
          if is_high_surrogate c && is_low_surrogate c2
          then utf8_bytes (65536 + (c - 55296) * 1024 + (c2 - 56320))%N ++ TextEncoder_encode r2
          else single ++ TextEncoder_encode r
      | [] => single
      end
  end.

(** The code units of a code point. *)
Definition code_units (cp : N) : jstring :=
  (if cp <? 65536 then [cp]
   else [55296 + (cp - 65536) / 1024; 56320 + (cp - 65536) mod 1024])%N.

Definition continuation (b : N) : bool := ((128 <=? b) && (b <=? 191))%N.

(** The UTF-8 decoder: an ill-formed sequence gives U+FFFD for its maximal
    well-formed prefix and decoding resumes at the byte that broke it. *)
Fixpoint utf8_decode (bytes : list N) : jstring :=
  match bytes with
  | [] => []
  | a :: r =>
      if (a <? 128)%N then a :: utf8_decode r
      else if ((194 <=? a) && (a <=? 223))%N then
        match r with
        | b :: r1 =>
            if continuation b then ((a - 192) * 64 + (b - 128))%N :: utf8_decode r1
            else 65533%N :: utf8_decode r
        | [] => [65533%N]
        end
      else if ((224 <=? a) && (a <=? 239))%N then
        match r with
        | b :: r1 =>
            if ((if a =? 224 then 160 else 128) <=? b)%N && ((b <=? (if a =? 237 then 159 else 191)))%N then
              match r1 with
              | c :: r2 =>
                  if continuation c
                  then ((a - 224) * 4096 + (b - 128) * 64 + (c - 128))%N :: utf8_decode r2
                  else 65533%N :: utf8_decode r1
              | [] => [65533%N]
              end
            else 65533%N :: utf8_decode r
        | [] => [65533%N]
        end
      else if ((240 <=? a) && (a <=? 244))%N then
        match r with
        | b :: r1 =>
            if ((if a =? 240 then 144 else 128) <=? b)%N && ((b <=? (if a =? 244 then 143 else 191)))%N then
              match r1 with
              | c :: r2 =>
                  if continuation c then
                    match r2 with
                    | d :: r3 =>
                        if continuation d
                        then code_units ((a - 240) * 262144 + (b - 128) * 4096
                                         + (c - 128) * 64 + (d - 128))%N ++ utf8_decode r3
                        else 65533%N :: utf8_decode r2
                    | [] => [65533%N]
                    end
                  else 65533%N :: utf8_decode r1
              | [] => [65533%N]
              end
            else 65533%N :: utf8_decode r
        | [] => [65533%N]
        end
      else 65533%N :: utf8_decode r
  end.

(** [new TextDecoder().decode(bytes)]: UTF-8 without a leading byte order
    mark. *)
Definition TextDecoder_decode (bytes : list N) : jstring :=
  match bytes with
  | 239%N :: 187%N :: 191%N :: r => utf8_decode r
  | _ => utf8_decode bytes
  end.

(** ** The generation endpoint *)

(** *** Extraction of the payload from the model's reply *)

Fixpoint insert_sorted (x : Z) (l : list Z) : list Z :=
  match l with
  | [] => [x]
  | y :: r => if (x <=? y)%Z then x :: l else y :: insert_sorted x r
  end.

(** [l.sort((a, b) => a - b)] on integers. *)
Definition sort_ascending (l : list Z) : list Z := fold_right insert_sorted [] l.

(** The first step of [extractProblemsFromText]: between the first and the
    last fence, when there are two, without the language tag. *)
Definition fence_content (t : jstring) : jstring :=
  let startFence := indexOf t (js "```") in
  let endFence := lastIndexOf t (js "```") in
  if negb (startFence =? -1)%Z && negb (endFence =? -1)%Z && (startFence <? endFence)%Z
  then trim (strip_json_tag (trim (slice t (startFence + 3) endFence)))
  else t.

(** Its second step: from the first opening bracket or brace to the last
    closing one. [first] is [undefined] when the text has neither. *)
Definition bracket_span (t : jstring) : jstring :=
  let firstSq := indexOf t (js "[") in
  let firstCurly := indexOf t (js "{") in
  let first := nth_error (sort_ascending (filter (fun i => (0 <=? i)%Z) [firstSq; firstCurly])) 0 in
  let lastSq := lastIndexOf t (js "]") in
  let lastCurly := lastIndexOf t (js "}") in
  let last := Z.max lastSq lastCurly in
  match first with
  | Some f => if (0 <=? f)%Z && (f <=? last)%Z then trim (slice t f (last + 1)) else t
  | None => t
  end.

(** Its third step: [JSON.parse], and once more without stray fences when
    that throws; [None] when the second attempt throws too. *)
Definition parse_lenient (t : jstring) : option JsVal :=
  match JSON_parse t with
  | Some v => Some v
  | None => JSON_parse (trim (remove_fences t))
  end.

(** [extractProblemsFromText]; [None] when it throws. *)
Definition extractProblemsFromText (text : JsVal) : option (list JsVal) :=
  do s <- String_of (or_else text (JStr (js "")));
  let t := trim s in
  let t := fence_content t in
  let t := bracket_span t in
  do v <- parse_lenient t;
  Some (if isArray v then elements v else [v]).

(** *** The prompt *)

(** [Math.max(lo, Math.min(hi, x))]. *)
Definition clamp (lo hi : Z) (x : JsNum) : JsNum :=
  Math_max (Fin lo 0) (Math_min (Fin hi 0) x).


(** The prompt is a fixed Spanish text with holes for the number of problems,
    the grade, the type and the theme; the model keeps the holes. *)
Record Prompt : Type := {
  prompt_n : JsNum;
  prompt_grade : JsNum;
  prompt_type : jstring;
  prompt_theme : jstring
}.

Definition buildPrompt (grade : JsNum) (type theme : jstring) (count : JsNum) : Prompt :=
  let n := clamp 1 10 (ToNumber (or_else (JNum count) (JNum (Fin 1 0)))) in
  {| prompt_n := n; prompt_grade := grade; prompt_type := type; prompt_theme := theme |}.

(** *** The model client *)

(** What [fetch] gives back: a rejection, or a response with its status and
    the text of its body, that is, its bytes decoded as UTF-8 the way
    [res.text()] and [res.json()] decode them. *)
Inductive Fetched : Type :=
| NetworkError
| Reply (status : Z) (text : jstring).

Definition ok_status (status : Z) : bool := ((200 <=? status) && (status <=? 299))%Z.

(** The exceptions a handler can meet, and the engine's text for them. *)
Inductive Exn : Type :=
| SyntaxError
| TypeError
| FetchError.

Record GenEnv : Type := {
  GEMINI_API_KEY : option jstring;
  gemini : jstring -> Prompt -> Fetched;  (* the service, given key and prompt *)
  exn_text : Exn -> jstring;              (* String(e?.message || e) *)
  entropy : nat -> Entropy                (* clock and random generator, per record *)
}.

Definition env_truthy (v : option jstring) : bool :=
  match v with
  | Some (_ :: _) => true
  | _ => false
  end.

Definition env_value (v : option jstring) : jstring :=
  match v with
  | Some s => s
  | None => []
  end.

(** [callGemini]: the object it returns, [{ problems }] or [{ error }]. *)
Definition callGemini (env : GenEnv) (prompt : Prompt) : JsVal :=
  if negb (env_truthy (GEMINI_API_KEY env)) then
    obj [("error", JStr (js "Missing GEMINI_API_KEY"))]
  else
    match gemini env (env_value (GEMINI_API_KEY env)) prompt with
    | NetworkError => obj [("error", JStr (exn_text env FetchError))]
    | Reply status t =>
        if negb (ok_status status) then
          obj [("error", JStr (js "Gemini error " ++ Number_toString (Fin status 0)
                               ++ js ": " ++ slice t 0 500))]
        else
          match JSON_parse t with
          | None => obj [("error", JStr (exn_text env SyntaxError))]
          | Some json =>
              let text :=
                or_else (get (get (get (get (get (get json (js "candidates")) (js "0"))
                                          (js "content")) (js "parts")) (js "0")) (js "text"))
                        (JStr (js "")) in
              match extractProblemsFromText text with
              | Some problems => obj [("problems", JArr problems)]
              | None =>
                  obj [("error", JStr (exn_text env (if convertible text then SyntaxError
                                                     else TypeError)))]
              end
          end
    end.

(** *** The handler *)

(** A request: its method and the bytes of its body. *)
Record Request : Type := {
  method : jstring;
  bytes : list N
}.

(** The text that [req.json()] hands to [JSON.parse]: the bytes of the body
    decoded as UTF-8, a leading byte order mark dropped and every ill-formed
    sequence replaced by U+FFFD. Both handlers read the body this way. *)
Definition body (req : Request) : jstring := TextDecoder_decode (bytes req).

Inductive Body : Type :=
| Text (s : jstring)   (* a plain body *)
| Json (v : JsVal).    (* JSON.stringify(v) *)

(** A response: its status and body (the headers are constants). *)
Record Response : Type := {
  status : Z;
  payload : Body
}.

Definition json_response (st : Z) (l : list (string * JsVal)) : Response :=
  {| status := st; payload := Json (obj l) |}.

(** The statuses of a response that has no body. *)
Definition null_body_status (st : Z) : bool :=
  ((st =? 101) || (st =? 103) || (st =? 204) || (st =? 205) || (st =? 304))%Z.

(** The statuses [new Response(body, { status })] accepts: it throws a
    [RangeError] for a status outside 200..599 and a [TypeError] for a body
    with a null body status. The statuses the handlers write as constants
    (200, 400, 404, 405, 500) are accepted. *)
Definition valid_status (st : Z) : bool :=
  ((200 <=? st) && (st <=? 599))%Z && negb (null_body_status st).

(** [new Response(JSON.stringify(l), { status: st, ... })] for a status that
    comes from elsewhere; [None] when the constructor throws. *)
Definition new_Response (st : Z) (l : list (string * JsVal)) : option Response :=
  if valid_status st then Some (json_response st l) else None.

(** [l.slice(0, n)] for a number [n]. *)
Definition slice_to (A : Type) (l : list A) (n : JsNum) : list A :=
  match ToIntegerOrInfinity n with
  | IInt z => slice l 0 z
  | IInf false => l
  | IInf true => []
  end.

(** [l.map(f)] with the index passed to a callback that can throw. *)
Fixpoint map_indexed (A B : Type) (f : nat -> A -> option B) (i : nat) (l : list A)
  : option (list B) :=
  match l with
  | [] => Some []
  | x :: r => do y <- f i x; do ys <- map_indexed f (S i) r; Some (y :: ys)
  end.

(** The grade and the count the handler reads off the request body; [None]
    when the conversion throws. *)
Definition effective_grade (b : JsVal) : option JsNum :=
  do g <- Number_of (or_else (get b (js "grade")) (JNum (Fin 1 0)));
  Some (clamp 1 6 g).

Definition effective_count (b : JsVal) : option JsNum :=
  do c <- Number_of (or_else (get b (js "count")) (JNum (Fin 1 0)));
  Some (clamp 1 10 c).

(** What the handler does with a parsed body, inside its [try]. *)
Definition generate_body {engine : Engine} (env : GenEnv) (b : JsVal) : option Response :=
  do grade <- effective_grade b;
  do t <- String_of (or_else (get b (js "type")) (JStr (js "PPT")));
  let type := toUpperCase t in
  do theme <- String_of (or_else (get b (js "theme")) (JStr (js "")));
  do count <- effective_count b;
  let prompt := buildPrompt grade type theme count in
  let result := callGemini env prompt in
  if truthy (get result (js "error")) then
    Some (json_response 500 [("error", get result (js "error"))])
  else
    do arr <- map_indexed (fun i p => normalizeProblem (entropy env i) p
                                        {| grade := grade; type := type |}) 0
                (slice_to (elements (or_else (get result (js "problems")) (JArr []))) count);
    let first := or_else (nth 0 arr JUndefined) JNull in
    Some (json_response 200 [("problem", first); ("problems", JArr arr)]).

Definition generate {engine : Engine} (env : GenEnv) (req : Request) : Response :=
  if jeqb (method req) (js "OPTIONS") then {| status := 200; payload := Text (js "ok") |}
  else if negb (jeqb (method req) (js "POST")) then
    json_response 405 [("error", JStr (js "Method not allowed"))]
  else
    match and_then (JSON_parse (body req)) (generate_body env) with
    | Some response => response
    | None => json_response 400 [("error", JStr (js "Bad request"))]
    end.

(** ** The persistence endpoint *)

(** *** Base64 *)

Definition b64_char (n : N) : N :=
  (if n <? 26 then 65 + n
   else if n <? 52 then 71 + n
   else if n <? 62 then n - 4
   else if n =? 62 then 43 else 47)%N.

(** [btoa] on a string of bytes. *)
Fixpoint btoa (bytes : list N) : jstring :=
  match bytes with
  | [] => []
  | [a] => [b64_char (a / 4); b64_char (a mod 4 * 16); 61; 61]%N
  | [a; b] => [b64_char (a / 4); b64_char (a mod 4 * 16 + b / 16); b64_char (b mod 16 * 4); 61]%N
  | a :: b :: c :: r =>
      [b64_char (a / 4); b64_char (a mod 4 * 16 + b / 16);
       b64_char (b mod 16 * 4 + c / 64); b64_char (c mod 64)]%N ++ btoa r
  end.

(** [toBase64]: the loop of the source copies the bytes into a string of the
    same code units. *)
Definition toBase64 (str : jstring) : jstring := btoa (TextEncoder_encode str).

(** The value of a base64 character, 64 when it is none. *)
Definition b64_value (c : N) : N :=
  (if (65 <=? c) && (c <=? 90) then c - 65
   else if (97 <=? c) && (c <=? 122) then c - 71
   else if (48 <=? c) && (c <=? 57) then c + 4
   else if c =? 43 then 62
   else if c =? 47 then 63
   else 64)%N.

Fixpoint b64_groups (s : jstring) : list N :=
  match s with
  | a :: b :: c :: d :: r =>
      let n := (b64_value a * 262144 + b64_value b * 4096 + b64_value c * 64 + b64_value d)%N in
      [n / 65536; n / 256 mod 256; n mod 256]%N ++ b64_groups r
  | [a; b; c] =>
      let n := (b64_value a * 4096 + b64_value b * 64 + b64_value c)%N in
      [n / 1024; n / 4 mod 256]%N
  | [a; b] => [(b64_value a * 64 + b64_value b) / 16]%N
  | _ => []
  end.

Definition is_ascii_ws (c : N) : bool :=
  ((c =? 9) || (c =? 10) || (c =? 12) || (c =? 13) || (c =? 32))%N.

(** [atob]: the forgiving base64 decoding; [None] when it throws. *)
Definition atob (s : jstring) : option (list N) :=
  let s := filter (fun c => negb (is_ascii_ws c)) s in
  let s := if (length s mod 4 =? 0)%nat then
             match rev s with
             | 61%N :: 61%N :: r => rev r
             | 61%N :: r => rev r
             | _ => s
             end
           else s in
  if (length s mod 4 =? 1)%nat then None
  else if forallb (fun c => (b64_value c <? 64)%N) s then Some (b64_groups s)
  else None.

(** [fromBase64]; [None] when [atob] throws. *)
Definition fromBase64 (b64 : jstring) : option jstring :=
  match atob b64 with
  | Some bytes => Some (TextDecoder_decode bytes)
  | None => None
  end.

(** *** The hosting service *)

(** A request to the contents API. The URL is kept as its parts: the
    repository, the path and, for a read, the ref (the source writes the
    last two through [encodeURIComponent]). *)
Record GhRequest : Type := {
  gh_method : jstring;
  gh_owner : jstring;
  gh_repo : jstring;
  gh_path : jstring;
  gh_ref : option jstring;
  gh_token : jstring;
  gh_body : option JsVal
}.

Record PersistEnv : Type := {
  GITHUB_TOKEN : option jstring;
  GITHUB_REPO : option jstring;
  GITHUB_PATH : option jstring;
  GITHUB_BRANCH : option jstring;
  github : GhRequest -> Fetched;   (* the hosting service *)
  iso_now : jstring                (* new Date().toISOString() *)
}.

(** Computations that call the hosting service: they extend the log of the
    requests made, and return a value or throw. *)
Definition Eff (A : Type) : Type := list GhRequest -> option A * list GhRequest.

Definition ret (A : Type) (a : A) : Eff A := fun log => (Some a, log).
Definition throw (A : Type) : Eff A := fun log => (None, log).
Definition bind (A B : Type) (m : Eff A) (k : A -> Eff B) : Eff B :=
  fun log => match m log with
             | (Some a, log') => k a log'
             | (None, log') => (None, log')
             end.
Definition try_catch (A : Type) (m : Eff A) (h : Eff A) : Eff A :=
  fun log => match m log with
             | (Some a, log') => (Some a, log')
             | (None, log') => h log'
             end.
Definition of_option (A : Type) (o : option A) : Eff A :=
  match o with
  | Some a => ret a
  | None => throw A
  end.

Notation "x <- m ;; k" := (bind m (fun x => k))
  (at level 61, m at next level, right associativity).

(** [gh]: one [fetch]; the response's status and text. *)
Definition gh (env : PersistEnv) (r : GhRequest) : Eff (Z * jstring) :=
  fun log => match github env r with
             | NetworkError => (None, log ++ [r])
             | Reply st t => (Some (st, t), log ++ [r])
             end.

(** What [getFile] and [putFile] return. *)
Record FileResult : Type := {
  f_status : Z;
  f_error : option jstring;
  f_content : option jstring;
  f_sha : JsVal
}.

(** The repository coordinates of a call. *)
Record Target : Type := {
  t_token : jstring;
  t_owner : jstring;
  t_repo : jstring;
  t_path : jstring;
  t_branch : jstring
}.

(** The request [getFile] sends. *)
Definition read_request (t : Target) : GhRequest :=
  {| gh_method := js "GET"; gh_owner := t_owner t; gh_repo := t_repo t;
     gh_path := t_path t; gh_ref := Some (t_branch t);
     gh_token := t_token t; gh_body := None |}.

Definition getFile (env : PersistEnv) (t : Target) : Eff FileResult :=
  res <- gh env (read_request t) ;;
  let '(st, text) := res in
  if (st =? 404)%Z then
    ret {| f_status := 404; f_error := None; f_content := None; f_sha := JUndefined |}
  else if negb (ok_status st) then
    ret {| f_status := st; f_error := Some text; f_content := None; f_sha := JUndefined |}
  else
    json <- of_option (JSON_parse text) ;;
    if is_nullish json then throw FileResult
    else
      b64 <- of_option (String_of (or_else (get json (js "content")) (JStr (js "")))) ;;
      content <- of_option (fromBase64 b64) ;;
      ret {| f_status := 200; f_error := None; f_content := Some content;
             f_sha := get json (js "sha") |}.

(** The request [putFile] sends: the new content in base64, and the expected
    hash when the caller gave one. *)
Definition write_request (t : Target) (message : JsVal) (content : jstring) (sha : JsVal)
  : GhRequest :=
  let body := [(js "message", message); (js "content", JStr (toBase64 content));
               (js "branch", JStr (t_branch t))] in
  let body := if truthy sha then set_prop (js "sha") sha body else body in
  {| gh_method := js "PUT"; gh_owner := t_owner t; gh_repo := t_repo t;
     gh_path := t_path t; gh_ref := None;
     gh_token := t_token t; gh_body := Some (JObj body) |}.

Definition putFile (env : PersistEnv) (t : Target) (message : JsVal) (content : jstring)
           (sha : JsVal) : Eff FileResult :=
  res <- gh env (write_request t message content sha) ;;
  let '(st, text) := res in
  if negb (ok_status st) then
    ret {| f_status := st; f_error := Some text; f_content := None; f_sha := JUndefined |}
  else
    json <- of_option (JSON_parse text) ;;
    if is_nullish json then throw FileResult
    else ret {| f_status := st; f_error := None; f_content := None;
                f_sha := get (get json (js "content")) (js "sha") |}.

(** [s.split('/')]. *)
Fixpoint split_slash (s : jstring) : list jstring :=
  match s with
  | [] => [[]]
  | c :: r =>
      if (c =? 47)%N then [] :: split_slash r
      else match split_slash r with
           | x :: l => (c :: x) :: l
           | [] => [[c]]
           end
  end.

Definition env_or (v : option jstring) (dflt : string) : jstring :=
  if env_truthy v then env_value v else js dflt.

Definition target (env : PersistEnv) : Target :=
  let parts := split_slash (env_or (GITHUB_REPO env) "damp83/bancoproblemas") in
  {| t_token := env_value (GITHUB_TOKEN env);
     t_owner := nth 0 parts (js "undefined");
     t_repo := nth 1 parts (js "undefined");
     t_path := env_or (GITHUB_PATH env) "data/problems.json";
     t_branch := env_or (GITHUB_BRANCH env) "main" |}.

Definition error_truthy (e : option jstring) : bool := env_truthy e.

(** [x || 500] on a status. *)
Definition status_or_500 (st : Z) : Z := if (st =? 0)%Z then 500%Z else st.

(** The handler of [api/problems.js]. An exception that escapes it is [None]. *)
Definition persist (env : PersistEnv) (req : Request) : Eff Response :=
  if jeqb (method req) (js "OPTIONS") then ret {| status := 200; payload := Text (js "ok") |}
  else if negb (env_truthy (GITHUB_TOKEN env)) then
    ret (json_response 500 [("error", JStr (js "Missing GITHUB_TOKEN"))])
  else if jeqb (method req) (js "GET") then
    file <- getFile env (target env) ;;
    if (f_status file =? 404)%Z then
      ret (json_response 404 [("problems", JArr []); ("sha", JNull); ("notFound", JBool true)])
    else if error_truthy (f_error file) then
      of_option (new_Response (status_or_500 (f_status file))
                   [("error", JStr (env_value (f_error file)))])
    else
      let text := if env_truthy (f_content file) then env_value (f_content file) else js "[]" in
      let problems := match JSON_parse text with
                      | Some v => v
                      | None => JArr []
                      end in
      ret (json_response 200 [("problems", problems); ("sha", f_sha file)])
  else if jeqb (method req) (js "POST") then
    try_catch
      (b <- of_option (JSON_parse (body req)) ;;
       let problems := if isArray (get b (js "problems")) then get b (js "problems") else JArr [] in
       let sha := or_else (get b (js "sha")) JUndefined in
       let message := or_else (get b (js "message"))
                        (JStr (js "Update problems " ++ iso_now env)) in
       save <- putFile env (target env) message (JSON_stringify_2 problems) sha ;;
       if error_truthy (f_error save) then
         let st := status_or_500 (f_status save) in
         let isConflict := (st =? 409)%Z || (st =? 412)%Z || test_sha (env_value (f_error save)) in
         of_option (new_Response st [("error", JStr (env_value (f_error save)));
                                     ("conflict", JBool isConflict)])
       else ret (json_response 200 [("ok", JBool true); ("sha", f_sha save)]))
      (ret (json_response 400 [("error", JStr (js "Bad request"))]))
  else ret (json_response 405 [("error", JStr (js "Method not allowed"))]).

(** A whole request: the response, or [None] for an escaping exception, and
    the requests made to the hosting service. *)
Definition run (A : Type) (m : Eff A) : option A * list GhRequest := m [].

(** The parts of a [POST] body the handler reads, and the write it makes. *)
Definition posted_problems (b : JsVal) : JsVal :=
  if isArray (get b (js "problems")) then get b (js "problems") else JArr [].

Definition posted_write (env : PersistEnv) (b : JsVal) : GhRequest :=
  write_request (target env)
    (or_else (get b (js "message")) (JStr (js "Update problems " ++ iso_now env)))
    (JSON_stringify_2 (posted_problems b))
    (or_else (get b (js "sha")) JUndefined).

(** The content a write request carries, decoded. *)
Definition written_content (r : GhRequest) : option jstring :=
  match gh_body r with
  | Some b => fromBase64 (ToString (get b (js "content")))
  | None => None
  end.

(** *** Sample environments and requests *)

(** A JSON string literal with ASCII content that needs no escape. *)
Definition q (s : string) : jstring := [34%N] ++ js s ++ [34%N].

(** The request with the method [m] whose body is the text [b], sent as
    UTF-8. *)
Definition request (m : string) (b : jstring) : Request :=
  {| method := js m; bytes := TextEncoder_encode b |}.

(** An environment with the credential [tok] whose hosting service answers
    every request with [reply]. *)
Definition persist_env (tok : option jstring) (reply : Fetched) : PersistEnv :=
  {| GITHUB_TOKEN := tok; GITHUB_REPO := None; GITHUB_PATH := None; GITHUB_BRANCH := None;
     github := fun _ => reply; iso_now := js "2024-05-01T10:00:00.000Z" |}.

(** An environment of the generation endpoint whose service answers every
    prompt with [reply]. *)
Definition gen_env (key : option jstring) (reply : Fetched) : GenEnv :=
  {| GEMINI_API_KEY := key;
     gemini := fun _ _ => reply;
     exn_text := fun e => match e with
                          | SyntaxError => js "Unexpected token"
                          | TypeError => js "Cannot convert object to primitive value"
                          | FetchError => js "fetch failed"
                          end;
     entropy := fun _ => sample_entropy |}.

(** The reply of the language-model service whose first candidate is [text]. *)
Definition model_reply (text : jstring) : Fetched :=
  Reply 200
    (JSON_stringify
       (obj [("candidates",
              JArr [obj [("content", obj [("parts", JArr [obj [("text", JStr text)]])])]])])).

(** *** Values that survive serialisation *)

(** Keys that are no array indices and do not repeat: the keys of an object
    keep their order through [JSON.parse]. *)
Fixpoint plain_keys (ks : list jstring) : bool :=
  match ks with
  | [] => true
  | k :: r =>
      match array_index k with
      | Some _ => false
      | None => negb (existsb (jeqb k) r) && plain_keys r
      end
  end.

(** The values [JSON.stringify] writes without loss: no [undefined], numbers
    that are integers of at most 21 digits, objects with plain keys. Every
    record of the data model is one: its numbers are the grade and the
    timestamp, its keys are field names. *)
Fixpoint jsonable (v : JsVal) : bool :=
  match v with
  | JUndefined => false
  | JNull | JBool _ | JStr _ => true
  | JNum (Fin m O) => (length (digits_of_N (Z.abs_N m)) <=? 21)%nat
  | JNum _ => false
  | JArr l => forallb jsonable l
  | JObj o => forallb (fun kv => jsonable (snd kv)) o && plain_keys (map fst o)
  end.

(** The fuel the parser needs for the text of a value. *)
Fixpoint parse_fuel (v : JsVal) : nat :=
  match v with
  | JArr l => S (fold_right (fun x n => S (parse_fuel x) + n)%nat O l)
  | JObj o => S (fold_right (fun kv n => S (parse_fuel (snd kv)) + n)%nat O o)
  | _ => 1
  end.

Definition no_unit (c : N) (s : jstring) : bool := forallb (fun x => negb (x =? c)%N) s.

(** Text without a backtick. *)
Definition no_backtick (s : jstring) : bool := no_unit 96 s.

(** Text without a bracket or a brace. *)
Definition no_bracket (s : jstring) : bool :=
  no_unit 91 s && no_unit 93 s && no_unit 123 s && no_unit 125 s.

(** The text of a reply: prose, an opening fence, a tag line, the payload, a
    trailer, a closing fence, prose. *)
Definition fenced (prefix tag payload trailer suffix : jstring) : jstring :=
  prefix ++ js "```" ++ tag ++ payload ++ trailer ++ js "```" ++ suffix.

(** A text that is empty or starts with a unit outside [f]. *)
Definition stops (f : N -> bool) (b : jstring) : Prop :=
  match b with
  | [] => True
  | c :: _ => f c = false
  end.

(** One more unit in front of what [parse_string] read. *)
Definition push (c : N) (o : option (jstring * jstring)) : option (jstring * jstring) :=
  match o with
  | Some (x, rest) => Some (c :: x, rest)
  | None => None
  end.

(** The units that continue a number: digits, the point and the exponent
    mark. *)
Definition number_unit (c : N) : bool :=
  is_digit c || (c =? 46)%N || (c =? 101)%N || (c =? 69)%N.

(** The units that follow a value inside a compact JSON text. *)
Definition delimiter (c : N) : bool := ((c =? 44) || (c =? 93) || (c =? 125))%N.

(** A text that is empty or starts with a delimiter. *)
Definition delimited (rest : jstring) : Prop :=
  match rest with
  | [] => True
  | c :: _ => delimiter c = true
  end.

(** The units a JSON value can start with. *)
Definition value_start (c : N) : bool :=
  ((c =? 110) || (c =? 116) || (c =? 102) || (c =? 45) || is_digit c
   || (c =? 34) || (c =? 91) || (c =? 123))%N.

(** One member of an object, as the compact serialisation writes it. *)
Definition member (kv : jstring * JsVal) : jstring :=
  quote (fst kv) ++ js ":" ++ serialize [] [] (snd kv).

Definition elements_fuel (l : list JsVal) : nat :=
  fold_right (fun x n => S (parse_fuel x) + n)%nat O l.

Definition members_fuel (o : props) : nat :=
  fold_right (fun kv n => S (parse_fuel (snd kv)) + n)%nat O o.

Definition define_all (o acc : props) : props :=
  fold_left (fun a kv => set_prop (fst kv) (snd kv) a) o acc.

(** A text some three consecutive units of which are the letters s, h and a,
    each in either case: what the pattern [/sha/i] matches. *)
Definition mentions_sha (t : jstring) : Prop :=
  exists a x y z b,
    t = a ++ x :: y :: z :: b
    /\ (x = 115 \/ x = 83)%N /\ (y = 104 \/ y = 72)%N /\ (z = 97 \/ z = 65)%N.

(** ** Vocabulary of the further properties *)

(** The requests a whole call of the persistence handler made. *)
Definition calls (env : PersistEnv) (req : Request) : list GhRequest :=
  snd (run (persist env req)).

(** Whether the four conversions the generation handler applies to the
    fields of a body return. *)
Definition fields_convert (b : JsVal) : bool :=
  convertible (or_else (get b (js "grade")) (JNum (Fin 1 0)))
  && convertible (or_else (get b (js "type")) (JStr (js "PPT")))
  && convertible (or_else (get b (js "theme")) (JStr (js "")))
  && convertible (or_else (get b (js "count")) (JNum (Fin 1 0))).

(** The text of the first candidate of a reply of the language-model
    service, [''] when a link of the chain is missing or the text is falsy. *)
Definition candidate_text (json : JsVal) : JsVal :=
  or_else (get (get (get (get (get (get json (js "candidates")) (js "0"))
                            (js "content")) (js "parts")) (js "0")) (js "text"))
          (JStr (js "")).

(** The fields [normalizeProblem] assigns. *)
Definition assigned_key (k : jstring) : bool :=
  existsb (jeqb k)
    [js "id"; js "createdAt"; js "grade"; js "type"; js "steps"; js "data"; js "labels";
     js "operation"; js "answer"].



(** A string of 16-bit code units without a lone surrogate. *)
Fixpoint well_formed (s : jstring) : bool :=
  match s with
  | [] => true
  | c :: r =>
      if is_high_surrogate c then
        match r with
        | c2 :: r2 => is_low_surrogate c2 && well_formed r2
        | [] => false
        end
      else negb (is_low_surrogate c) && (c <? 65536)%N && well_formed r
  end.

(** The byte order mark U+FEFF. *)
Definition byte_order_mark : N := 65279.

(** A list of bytes. *)
Definition octets (l : list N) : bool := forallb (fun b => (b <? 256)%N) l.

(** A code point that is no surrogate. *)
Definition scalar (cp : N) : bool :=
  (cp <? 1114112)%N && negb (is_high_surrogate cp) && negb (is_low_surrogate cp).

(** The [content] field of the body of a write request. *)
Definition written_base64 (r : GhRequest) : JsVal :=
  match gh_body r with
  | Some b => get b (js "content")
  | None => JUndefined
  end.

(** A base64 text without the whitespace a service may break it with
    ([atob] skips it). *)
Definition unbroken (b64 : jstring) : jstring :=
  filter (fun c => negb (is_ascii_ws c)) b64.

(** Whitespace of JSON. *)
Definition blank (w : jstring) : bool := forallb is_json_ws w.

(** A text that is empty or starts with a delimiter or with whitespace: what
    follows a value inside an indented JSON text. *)
Definition separated (rest : jstring) : Prop :=
  match rest with
  | [] => True
  | c :: _ => delimiter c || is_json_ws c = true
  end.

(** One member of an object, as the serialisation with an indentation of two
    spaces writes it at the indentation [inner]. *)
Definition member_2 (inner : jstring) (kv : jstring * JsVal) : jstring :=
  quote (fst kv) ++ js ": " ++ serialize (js "  ") inner (snd kv).

(** A base64 text broken into lines of [n] characters, each ended by a line
    feed, the way the hosting service returns the content of a file. *)
Fixpoint broken (fuel n : nat) (b64 : jstring) : jstring :=
  match fuel, b64 with
  | S f, _ :: _ => firstn n b64 ++ [10%N] ++ broken f n (skipn n b64)
  | _, _ => []
  end.

(** The document the hosting service holds after the write a [POST] of the
    body [b] made, under the hash [sha]: the content in lines of 60
    characters. *)
Definition stored_document (env : PersistEnv) (b : JsVal) (sha : string) : JsVal :=
  let c := ToString (written_base64 (posted_write env b)) in
  obj [("content", JStr (broken (length c) 60 c)); ("sha", JStr (js sha))].

(** A body that posts one record. *)
Definition sample_post : JsVal :=
  obj [("problems", JArr [obj [("type", JStr (js "PPT")); ("grade", JNum (Fin 2 0));
                               ("answer", JStr (js "7"))]])].

(** The document of a reply of the language-model service whose first
    candidate is [text]. *)
Definition model_document (text : jstring) : JsVal :=
  obj [("candidates",
        JArr [obj [("content", obj [("parts", JArr [obj [("text", JStr text)]])])]])].

(** ** The earlier variant of the generation endpoint

    [api/generate-problem.js] holds an earlier variant of the endpoint: its
    [normalizeProblem], [coerceStr] and [genId] are the ones above, its
    [callGemini] extracts the payload with two patterns anchored at the end
    of the text, and its handler has no branch for [OPTIONS]. *)

Module Earlier.

(** Whether a text ends with the unit [c]. *)
Definition ends_with (c : N) (t : jstring) : bool := head_is c (rev t).

(** [t.match(/\[[\s\S]*\]$/)] and [t.match(/\{[\s\S]*\}$/)]: the match starts
    at the first opening unit and runs to the end of the text, which has to
    be the closing unit; [None] is [null]. *)
Definition match_to_end (opening closing : N) (t : jstring) : option jstring :=
  let i := indexOf t [opening] in
  if (0 <=? i)%Z && ends_with closing t then Some (skipn (Z.to_nat i) t) else None.

(** The text [callGemini] hands to [JSON.parse]. *)
Definition raw (text : jstring) : jstring :=
  trim (match match_to_end 91 93 text with
        | Some m => m
        | None => match match_to_end 123 125 text with
                  | Some m => m
                  | None => text
                  end
        end).

(** [callGemini]: the object it returns, [{ problems }] or [{ error }]. A
    candidate text that is no string has no [match] method. *)
Definition callGemini (env : GenEnv) (prompt : Prompt) : JsVal :=
  if negb (env_truthy (GEMINI_API_KEY env)) then
    obj [("error", JStr (js "Missing GEMINI_API_KEY"))]
  else
    match gemini env (env_value (GEMINI_API_KEY env)) prompt with
    | NetworkError => obj [("error", JStr (exn_text env FetchError))]
    | Reply status t =>
        if negb (ok_status status) then
          obj [("error", JStr (js "Gemini error " ++ Number_toString (Fin status 0)
                               ++ js ": " ++ slice t 0 500))]
        else
          match JSON_parse t with
          | None => obj [("error", JStr (exn_text env SyntaxError))]
          | Some json =>
              match candidate_text json with
              | JStr text =>
                  match JSON_parse (raw text) with
                  | Some parsed =>
                      obj [("problems", if isArray parsed then parsed else JArr [parsed])]
                  | None => obj [("error", JStr (exn_text env SyntaxError))]
                  end
              | _ => obj [("error", JStr (exn_text env TypeError))]
              end
          end
    end.

(** What the handler does with a parsed body, inside its [try]. *)
Definition generate_body {engine : Engine} (env : GenEnv) (b : JsVal) : option Response :=
  do grade <- effective_grade b;
  do t <- String_of (or_else (get b (js "type")) (JStr (js "PPT")));
  let type := toUpperCase t in
  do theme <- String_of (or_else (get b (js "theme")) (JStr (js "")));
  do count <- effective_count b;
  let prompt := buildPrompt grade type theme count in
  let result := callGemini env prompt in
  if truthy (get result (js "error")) then
    Some (json_response 500 [("error", get result (js "error"))])
  else
    do arr <- map_indexed (fun i p => normalizeProblem (entropy env i) p
                                        {| grade := grade; type := type |}) 0
                (slice_to (elements (or_else (get result (js "problems")) (JArr []))) count);
    let first := or_else (nth 0 arr JUndefined) JNull in
    Some (json_response 200 [("problem", first); ("problems", JArr arr)]).

(** The handler. *)
Definition generate {engine : Engine} (env : GenEnv) (req : Request) : Response :=
  if negb (jeqb (method req) (js "POST")) then
    json_response 405 [("error", JStr (js "Method not allowed"))]
  else
    match and_then (JSON_parse (body req)) (generate_body env) with
    | Some response => response
    | None => json_response 400 [("error", JStr (js "Bad request"))]
    end.

End Earlier.

(** * Properties *)

Unset Implicit Arguments.

(** ** Values *)

(** Induction on values, through the lists that nest them. *)
Lemma JsVal_ind (P : JsVal -> Prop) :
  P JUndefined -> P JNull -> (forall b, P (JBool b)) -> (forall n, P (JNum n)) ->
  (forall s, P (JStr s)) ->
  (forall l, Forall P l -> P (JArr l)) ->
  (forall o, Forall (fun kv => P (snd kv)) o -> P (JObj o)) ->
  forall v, P v.
Proof.
  intros HU HN HB HM HS HA HO.
  fix IH 1; intros [| |b|n|s|l|o].
  - exact HU.
  - exact HN.
  - apply HB.
  - apply HM.
  - apply HS.
  - apply HA; induction l as [|x l IHl]; constructor; [apply IH|exact IHl].
  - apply HO; induction o as [|[k x] o IHo]; constructor; [apply IH|exact IHo].
Qed.

(** ** Strings and properties *)

Lemma jeqb_refl (a : jstring) : jeqb a a = true.
Proof.
  induction a as [|x a IH]; simpl; [reflexivity|].
  now rewrite N.eqb_refl, IH.
Qed.

Lemma jeqb_eq (a b : jstring) : jeqb a b = true <-> a = b.
Proof.
  split; [|intros ->; apply jeqb_refl].
  revert b; induction a as [|x a IH]; intros [|y b]; simpl; try discriminate; auto.
  intros H; apply andb_true_iff in H as [H1 H2].
  apply N.eqb_eq in H1; subst; f_equal; auto.
Qed.

Lemma jeqb_neq (a b : jstring) : jeqb a b = false <-> a <> b.
Proof.
  split.
  - intros H E; apply jeqb_eq in E; congruence.
  - intros H; destruct (jeqb a b) eqn:E; [apply jeqb_eq in E; contradiction|reflexivity].
Qed.

Lemma jeqb_sym (a b : jstring) : jeqb a b = jeqb b a.
Proof.
  destruct (jeqb a b) eqn:E.
  - apply jeqb_eq in E; subst; symmetry; apply jeqb_refl.
  - symmetry; apply jeqb_neq; apply jeqb_neq in E; congruence.
Qed.

Lemma lookup_set_same (k : jstring) (x : JsVal) (o : props) :
  lookup k (set_prop k x o) = Some x.
Proof.
  induction o as [|[k' y] o IH]; simpl.
  - now rewrite jeqb_refl.
  - destruct (jeqb k k') eqn:E; simpl.
    + now rewrite E.
    + destruct (enumerated_before k k'); simpl.
      * now rewrite jeqb_refl.
      * now rewrite E.
Qed.

Lemma lookup_set_other (k k' : jstring) (x : JsVal) (o : props) :
  jeqb k k' = false -> lookup k (set_prop k' x o) = lookup k o.
Proof.
  intros NE; induction o as [|[k2 y] o IH]; simpl.
  - now rewrite NE.
  - destruct (jeqb k' k2) eqn:E; simpl.
    + apply jeqb_eq in E; subst; now rewrite NE.
    + destruct (enumerated_before k' k2); simpl.
      * now rewrite NE.
      * now rewrite IH.
Qed.

Lemma get_set_same (k : jstring) (x : JsVal) (o : props) :
  get (JObj (set_prop k x o)) k = x.
Proof. unfold get; simpl; now rewrite lookup_set_same. Qed.

Lemma get_set_other (k k' : jstring) (x : JsVal) (o : props) :
  jeqb k k' = false -> get (JObj (set_prop k' x o)) k = get (JObj o) k.
Proof. intros NE; unfold get; simpl; now rewrite lookup_set_other. Qed.

Lemma has_key_set_other (k k' : jstring) (x : JsVal) (o : props) :
  jeqb k k' = false -> has_key (JObj (set_prop k' x o)) k = has_key (JObj o) k.
Proof. intros NE; unfold has_key; cbn [spread]; now rewrite lookup_set_other. Qed.

(** Assigning to a property the value it already has leaves an object as it
    is, when the key is no array index. *)
Lemma set_prop_same_value (k : jstring) (x : JsVal) (o : props) :
  array_index k = None -> lookup k o = Some x -> set_prop k x o = o.
Proof.
  intros NI; induction o as [|[k' y] o IH]; simpl; [discriminate|].
  destruct (jeqb k k') eqn:E.
  - intros [= ->]; reflexivity.
  - unfold enumerated_before; rewrite NI; intros H; now rewrite IH.
Qed.

(** ** Numeric coercion *)

Lemma replace_class_g_filter (s : jstring) :
  replace_class_g (fun c => negb (numeric_char c))
    (fun m => if jeqb m (js "?") then js "?" else js "") s
  = filter numeric_char s.
Proof.
  unfold replace_class_g.
  induction s as [|c s IH]; [reflexivity|].
  cbn [flat_map filter]; rewrite IH.
  destruct (numeric_char c) eqn:E; [reflexivity|].
  destruct (jeqb [c] (js "?")) eqn:Q; [|reflexivity].
  apply jeqb_eq in Q; injection Q as ->; discriminate.
Qed.

Lemma coercion_string (s : jstring) :
  coercion (JStr s)
  = if jeqb s (js "?") || jeqb s (js "RESULTADO_ANTERIOR") then s
    else filter numeric_char (replace_first (js ",") (js ".") s).
Proof.
  unfold coercion, is_str; simpl ToString.
  destruct (jeqb s (js "?") || jeqb s (js "RESULTADO_ANTERIOR")); [reflexivity|].
  apply replace_class_g_filter.
Qed.

Lemma filter_numeric_all (s : jstring) : forallb numeric_char (filter numeric_char s) = true.
Proof.
  induction s as [|c s IH]; simpl; [reflexivity|].
  destruct (numeric_char c) eqn:E; simpl; [now rewrite E|exact IH].
Qed.

Lemma coercion_coerced (v : JsVal) : coerced_value (JStr (coercion v)) = true.
Proof.
  assert (G : forall s, forallb numeric_char
                (replace_class_g (fun c => negb (numeric_char c))
                   (fun m => if jeqb m (js "?") then js "?" else js "") s) = true)
    by (intros s; rewrite replace_class_g_filter; apply filter_numeric_all).
  destruct v as [| |b|n|s|l|o]; try reflexivity;
    try (unfold coerced_value, coercion; cbn [is_str orb]; rewrite G; reflexivity).
  rewrite coercion_string; unfold coerced_value.
  destruct (jeqb s (js "?")) eqn:Q; cbn [orb].
  - apply jeqb_eq in Q; subst; reflexivity.
  - destruct (jeqb s (js "RESULTADO_ANTERIOR")) eqn:R.
    + rewrite R; apply orb_true_r.
    + now rewrite filter_numeric_all.
Qed.

(** ** The conversions that can throw *)

Ltac returned H :=
  cbv zeta in H;
  repeat match type of H with
         | and_then ?m _ = Some _ =>
             let E := fresh "E" in
             destruct m eqn:E; cbn [and_then] in H; [cbv zeta in H|discriminate H]
         end.

Ltac b2p :=
  repeat match goal with
         | H : (_ && _) = true |- _ => apply andb_true_iff in H; destruct H
         | H : (_ && _) = false |- _ => apply andb_false_iff in H; destruct H
         | H : (_ || _) = true |- _ => apply orb_true_iff in H; destruct H
         | H : (_ || _) = false |- _ => apply orb_false_iff in H; destruct H
         | H : negb _ = true |- _ => apply negb_true_iff in H
         | H : negb _ = false |- _ => apply negb_false_iff in H
         | H : (_ <=? _)%N = true |- _ => apply N.leb_le in H
         | H : (_ <=? _)%N = false |- _ => apply N.leb_gt in H
         | H : (_ <? _)%N = true |- _ => apply N.ltb_lt in H
         | H : (_ <? _)%N = false |- _ => apply N.ltb_ge in H
         | H : (_ =? _)%N = true |- _ => apply N.eqb_eq in H
         | H : (_ =? _)%N = false |- _ => apply N.eqb_neq in H
         end.

Section Normalisation.

Context {engine : Engine}.

Lemma String_of_string (s : jstring) : String_of (JStr s) = Some s.
Proof. reflexivity. Qed.

Lemma String_of_returns (v : JsVal) (s : jstring) : String_of v = Some s -> s = ToString v.
Proof. unfold String_of; destruct (convertible v); congruence. Qed.

Lemma Number_of_returns (v : JsVal) (n : JsNum) : Number_of v = Some n -> n = ToNumber v.
Proof. unfold Number_of; destruct (convertible v); congruence. Qed.

(** [coerceStr] throws exactly when the conversion of its argument does. *)
Lemma coerceStr_convertible (v : JsVal) :
  coerceStr v = if convertible v then Some (coercion v) else None.
Proof.
  destruct v as [| |b|n|s|l|o]; try reflexivity.
  - unfold coerceStr, coercion; cbn [is_str convertible].
    destruct (jeqb s (js "?") || jeqb s (js "RESULTADO_ANTERIOR")); reflexivity.
  - unfold coerceStr, coercion, String_of; cbn [is_str orb].
    destruct (convertible (JArr l)); reflexivity.
  - unfold coerceStr, coercion, String_of; cbn [is_str orb].
    destruct (convertible (JObj o)); reflexivity.
Qed.

Lemma coerceStr_string (s : jstring) : coerceStr (JStr s) = Some (coercion (JStr s)).
Proof. now rewrite coerceStr_convertible. Qed.

Lemma coerceStr_returns (v : JsVal) (s : jstring) : coerceStr v = Some s -> s = coercion v.
Proof. rewrite coerceStr_convertible; destruct (convertible v); congruence. Qed.

(** C8. [coerceStr] maps ['12,5'] to ['12.5'], ['$12'] to ['12'], and leaves
    ['?'] and ['RESULTADO_ANTERIOR'] as they are; on every other string it
    returns the string with its (first) comma replaced by a point and then
    only its digits, points, minus signs and question marks kept, in their
    order. *)
Theorem coerceStr_numeric_coercion :
  coerceStr (JStr (js "12,5")) = Some (js "12.5")
  /\ coerceStr (JStr (js "$12")) = Some (js "12")
  /\ coerceStr (JStr (js "?")) = Some (js "?")
  /\ coerceStr (JStr (js "RESULTADO_ANTERIOR")) = Some (js "RESULTADO_ANTERIOR")
  /\ forall s : jstring,
       coerceStr (JStr s)
       = Some (if jeqb s (js "RESULTADO_ANTERIOR") then s
               else filter numeric_char (replace_first (js ",") (js ".") s)).
Proof.
  repeat split; try reflexivity.
  intros s; rewrite coerceStr_string, coercion_string; f_equal.
  destruct (jeqb s (js "?")) eqn:Q; simpl; [|reflexivity].
  apply jeqb_eq in Q; subst; reflexivity.
Qed.

Lemma data_literal_returns (d : JsVal) (a b r : string) (x : JsVal) :
  data_literal d a b r = Some x -> x = data_fields d a b r.
Proof.
  unfold data_literal; intros H; returned H.
  apply coerceStr_returns in E, E0, E1; subst.
  now injection H as <-.
Qed.

Lemma assign_data_returns (ty : jstring) (d : JsVal) (x y : props) :
  assign_data ty d x = Some y -> y = with_data ty d x.
Proof.
  unfold assign_data, with_data; intros H.
  repeat match type of H with
         | (if ?c then _ else _) = _ => destruct c
         end; returned H;
    try (apply data_literal_returns in E; subst); now injection H as <-.
Qed.

Lemma normalizeStep_returns (s r : JsVal) : normalizeStep s = Some r -> r = normal_step s.
Proof.
  unfold normalizeStep, normal_step; intros H; returned H.
  apply String_of_returns in E; subst.
  apply assign_data_returns in E0; subst.
  apply coerceStr_returns in E1; subst.
  now injection H as <-.
Qed.

Lemma mapM_returns (A B : Type) (f : A -> option B) (g : A -> B) (l : list A) (l' : list B) :
  (forall x y, f x = Some y -> y = g x) -> mapM f l = Some l' -> l' = map g l.
Proof.
  intros FG; revert l'; induction l as [|x l IH]; cbn [mapM map]; intros l' H.
  - now injection H as <-.
  - returned H; injection H as <-.
    now rewrite (FG _ _ E), (IH _ eq_refl).
Qed.

Lemma normalizeSimple_returns (ty : jstring) (out F : props) :
  normalizeSimple ty out = Some F -> F = normal_simple ty out.
Proof.
  unfold normalizeSimple, normal_simple; intros H; returned H.
  apply assign_data_returns in E; subst.
  apply coerceStr_returns in E0; subst.
  now injection H as <-.
Qed.

(** What [normalizeProblem] returns, when it returns. *)
Lemma normalizeProblem_returns (e : Entropy) (p : JsVal) (ctx : Ctx) (r : JsVal) :
  normalizeProblem e p ctx = Some r -> r = normal_record e p ctx.
Proof.
  unfold normalizeProblem, normal_record; intros H; returned H.
  apply Number_of_returns in E; apply String_of_returns in E0; subst.
  match type of H with
  | (if ?c then _ else _) = _ => destruct c
  end; returned H; injection H as <-.
  - now rewrite (mapM_returns _ _ normalizeStep normal_step _ _ normalizeStep_returns E).
  - now rewrite (normalizeSimple_returns _ _ _ E).
Qed.

(** ** Normalisation of one record *)

Lemma normal_record_unfold (e : Entropy) (p : JsVal) (ctx : Ctx) :
  normal_record e p ctx
  = let ty := record_type e p ctx in
    let out := set_prop (js "type") (JStr ty) (stamped e p ctx) in
    if jeqb ty (js "DOS_OPERACIONES") && isArray (get (JObj out) (js "steps")) then
      JObj (set_prop (js "steps")
              (JArr (map normal_step (slice (elements (get (JObj out) (js "steps"))) 0 2))) out)
    else JObj (normal_simple ty out).
Proof. reflexivity. Qed.

Lemma type_keys_cases (ty : jstring) (ks : list jstring) :
  type_keys ty = Some ks ->
  (ty = js "PPT" /\ ks = [js "p1"; js "p2"; js "t"])
  \/ (ty = js "UVT" /\ ks = [js "u"; js "v"; js "t"])
  \/ (ty = js "COMPARACION" /\ ks = [js "cm"; js "cmen"; js "d"])
  \/ (ty = js "CAMBIO" /\ ks = [js "ci"; js "c"; js "cf"]).
Proof.
  unfold type_keys.
  destruct (jeqb ty (js "PPT")) eqn:E1; [apply jeqb_eq in E1; intros [= <-]; auto|].
  destruct (jeqb ty (js "UVT")) eqn:E2; [apply jeqb_eq in E2; intros [= <-]; auto|].
  destruct (jeqb ty (js "COMPARACION")) eqn:E3; [apply jeqb_eq in E3; intros [= <-]; auto|].
  destruct (jeqb ty (js "CAMBIO")) eqn:E4; [apply jeqb_eq in E4; intros [= <-]; auto 6|].
  discriminate.
Qed.

Lemma type_keys_none (ty : jstring) (d : JsVal) (x : props) :
  type_keys ty = None -> with_data ty d x = x.
Proof.
  unfold type_keys, with_data.
  destruct (jeqb ty (js "PPT")); [discriminate|].
  destruct (jeqb ty (js "UVT")); [discriminate|].
  destruct (jeqb ty (js "COMPARACION")); [discriminate|].
  destruct (jeqb ty (js "CAMBIO")); [discriminate|reflexivity].
Qed.

Lemma with_data_known (ty : jstring) (ks : list jstring) (d : JsVal) (x : props) :
  type_keys ty = Some ks ->
  exists a b r : string,
    ks = [js a; js b; js r]
    /\ jeqb (js a) (js b) = false /\ jeqb (js a) (js r) = false /\ jeqb (js b) (js r) = false
    /\ with_data ty d x = set_prop (js "data") (data_fields d a b r) x.
Proof.
  intros H; apply type_keys_cases in H as [[-> ->]|[[-> ->]|[[-> ->]|[-> ->]]]].
  - exists "p1"%string, "p2"%string, "t"%string; repeat split.
  - exists "u"%string, "v"%string, "t"%string; repeat split.
  - exists "cm"%string, "cmen"%string, "d"%string; repeat split.
  - exists "ci"%string, "c"%string, "cf"%string; repeat split.
Qed.

Lemma with_data_get_other (ty : jstring) (d : JsVal) (x : props) (k : jstring) :
  jeqb k (js "data") = false ->
  lookup k (with_data ty d x) = lookup k x.
Proof.
  intros NE; unfold with_data.
  repeat match goal with
         | |- context [if ?b then _ else _] => destruct b
         end; try reflexivity; now apply lookup_set_other.
Qed.

Lemma data_fields_keys (d : JsVal) (a b r : string) :
  keys_of (data_fields d a b r) = [js a; js b; js r].
Proof. reflexivity. Qed.

Lemma data_fields_values (d : JsVal) (a b r : string) :
  forallb coerced_value (values_of (data_fields d a b r)) = true.
Proof.
  unfold values_of, data_fields, obj; cbn [spread map snd fst forallb].
  now rewrite !coercion_coerced.
Qed.

Lemma get_lookup (o : props) (k : jstring) :
  get (JObj o) k = match lookup k o with Some x => x | None => JUndefined end.
Proof. reflexivity. Qed.

(** What the branch for simple records leaves in each field. *)
Lemma normal_simple_other (ty : jstring) (out : props) (k : jstring) :
  jeqb k (js "data") = false -> jeqb k (js "labels") = false ->
  jeqb k (js "operation") = false -> jeqb k (js "answer") = false ->
  lookup k (normal_simple ty out) = lookup k out.
Proof.
  intros H1 H2 H3 H4; unfold normal_simple.
  now rewrite !lookup_set_other, with_data_get_other by assumption.
Qed.

Lemma normal_simple_data (ty : jstring) (out : props) :
  lookup (js "data") (normal_simple ty out)
  = lookup (js "data")
      (with_data ty (JObj (spread (or_else (get (JObj out) (js "data")) (JObj [])))) out).
Proof. unfold normal_simple; now rewrite !lookup_set_other by reflexivity. Qed.

Lemma normal_simple_answer (ty : jstring) (out : props) :
  lookup (js "answer") (normal_simple ty out)
  = Some (JStr (coercion (get (JObj out) (js "answer")))).
Proof.
  unfold normal_simple; rewrite lookup_set_same.
  do 2 f_equal. rewrite !get_lookup.
  now rewrite !lookup_set_other, with_data_get_other by reflexivity.
Qed.

Lemma normal_record_type (e : Entropy) (p : JsVal) (ctx : Ctx) :
  get (normal_record e p ctx) (js "type") = JStr (record_type e p ctx).
Proof.
  rewrite normal_record_unfold; cbv zeta.
  destruct (jeqb _ _ && isArray _).
  - rewrite get_set_other by reflexivity; apply get_set_same.
  - rewrite get_lookup, normal_simple_other by reflexivity.
    now rewrite lookup_set_same.
Qed.

Lemma stamped_lookup_other (e : Entropy) (p : JsVal) (ctx : Ctx) (k : jstring) :
  jeqb k (js "id") = false -> jeqb k (js "createdAt") = false ->
  jeqb k (js "grade") = false ->
  lookup k (stamped e p ctx) = lookup k (spread p).
Proof.
  intros H1 H2 H3; unfold stamped; cbv zeta.
  rewrite lookup_set_other by assumption.
  repeat match goal with
         | |- context [if ?b then _ else _] => destruct b
         end; rewrite ?lookup_set_other by assumption; reflexivity.
Qed.

(** What the record of a known type holds. *)
Lemma normal_record_shape (e : Entropy) (p : JsVal) (ctx : Ctx) (ks : list jstring) :
  type_keys (ToString (get (normal_record e p ctx) (js "type"))) = Some ks ->
  keys_of (get (normal_record e p ctx) (js "data")) = ks
  /\ forallb coerced_value (values_of (get (normal_record e p ctx) (js "data"))) = true
  /\ coerced_value (get (normal_record e p ctx) (js "answer")) = true.
Proof.
  rewrite normal_record_type; cbn [ToString]; intros HK.
  rewrite normal_record_unfold; cbv zeta.
  set (ty := record_type e p ctx) in *.
  set (out := set_prop (js "type") (JStr ty) (stamped e p ctx)).
  assert (ND : jeqb ty (js "DOS_OPERACIONES") = false).
  { apply type_keys_cases in HK as [[-> _]|[[-> _]|[[-> _]|[-> _]]]]; reflexivity. }
  rewrite ND; cbn [andb].
  rewrite !get_lookup, normal_simple_data, normal_simple_answer.
  destruct (@with_data_known ty ks
              (JObj (spread (or_else (get (JObj out) (js "data")) (JObj [])))) out HK)
    as (a & b & r & -> & _ & _ & _ & ->).
  rewrite lookup_set_same.
  split; [apply data_fields_keys|].
  split; [apply data_fields_values|apply coercion_coerced].
Qed.

Lemma normal_record_object (e : Entropy) (p : JsVal) (ctx : Ctx) :
  exists o, normal_record e p ctx = JObj o.
Proof.
  rewrite normal_record_unfold; cbv zeta.
  destruct (jeqb _ _ && isArray _); eauto.
Qed.

Lemma firstn_le_length (A : Type) (n : nat) (l : list A) :
  firstn (Nat.min n (length l)) l = firstn n l.
Proof.
  destruct (Nat.le_ge_cases n (length l)) as [H|H].
  - now rewrite Nat.min_l.
  - rewrite Nat.min_r by assumption.
    now rewrite !firstn_all2 by lia.
Qed.

(** [l.slice(0, n)] keeps the first [n] elements. *)
Lemma slice_from_0 (A : Type) (l : list A) (n : nat) :
  slice l 0 (Z.of_nat n) = firstn n l.
Proof.
  unfold slice, clamp_index.
  replace (0 <? 0)%Z with false by reflexivity.
  replace (Z.of_nat n <? 0)%Z with false by (symmetry; apply Z.ltb_ge; lia).
  rewrite (Z.min_l 0) by lia.
  cbn [Z.to_nat skipn].
  rewrite Z.sub_0_r, <- Nat2Z.inj_min, Nat2Z.id.
  apply firstn_le_length.
Qed.

(** *** Inputs on which no conversion throws *)

Lemma plain_convertible (v : JsVal) : plain v = true -> convertible v = true.
Proof.
  induction v as [| |b|n|s|l IH|o IH] using JsVal_ind; try reflexivity.
  - cbn [plain convertible]; intros H.
    induction IH as [|x l Hx _ IHl]; [reflexivity|].
    cbn [forallb] in *; apply andb_true_iff in H as [H1 H2].
    now rewrite (Hx H1), (IHl H2).
  - cbn [plain convertible]; intros H; apply andb_true_iff in H as [H _].
    destruct (lookup (js "toString") o); [discriminate|reflexivity].
Qed.

Lemma String_of_plain (v : JsVal) : plain v = true -> String_of v = Some (ToString v).
Proof. intros H; unfold String_of; now rewrite plain_convertible. Qed.

Lemma Number_of_plain (v : JsVal) : plain v = true -> Number_of v = Some (ToNumber v).
Proof. intros H; unfold Number_of; now rewrite plain_convertible. Qed.

Lemma coerceStr_plain (v : JsVal) : plain v = true -> coerceStr v = Some (coercion v).
Proof. intros H; rewrite coerceStr_convertible; now rewrite plain_convertible. Qed.

Lemma lookup_plain (o : props) (k : jstring) (x : JsVal) :
  all_plain o = true -> lookup k o = Some x -> plain x = true.
Proof.
  unfold all_plain; induction o as [|[k' y] o IH]; cbn [lookup forallb snd]; [discriminate|].
  intros H; apply andb_true_iff in H as [H1 H2].
  destruct (jeqb k k'); [now intros [= <-]|now apply IH].
Qed.

Lemma get_plain (o : props) (k : jstring) : all_plain o = true -> plain (get (JObj o) k) = true.
Proof.
  intros H; rewrite get_lookup.
  destruct (lookup k o) as [x|] eqn:E; [exact (lookup_plain o k x H E)|reflexivity].
Qed.

Lemma index_props_plain (l : list JsVal) (i : N) :
  forallb plain l = true -> all_plain (index_props i l) = true.
Proof.
  unfold all_plain; revert i; induction l as [|x l IH]; intros i; cbn [index_props forallb snd];
    [reflexivity|].
  intros H; apply andb_true_iff in H as [H1 H2]; now rewrite H1, IH.
Qed.

Lemma spread_plain (v : JsVal) : plain v = true -> all_plain (spread v) = true.
Proof.
  destruct v as [| |b|n|s|l|o]; try reflexivity; cbn [spread plain].
  - intros _; apply index_props_plain.
    induction s as [|c s IH]; [reflexivity|exact IH].
  - apply index_props_plain.
  - intros H; apply andb_true_iff in H as [_ H]; exact H.
Qed.

Lemma set_prop_plain (k : jstring) (x : JsVal) (o : props) :
  plain x = true -> all_plain o = true -> all_plain (set_prop k x o) = true.
Proof.
  unfold all_plain; intros HX; induction o as [|[k' y] o IH]; cbn [set_prop forallb snd].
  - now rewrite HX.
  - intros H; apply andb_true_iff in H as [H1 H2].
    destruct (jeqb k k'); [cbn [forallb snd]; now rewrite HX, H2|].
    destruct (enumerated_before k k'); cbn [forallb snd].
    + now rewrite HX, H1, H2.
    + now rewrite H1, IH.
Qed.

Lemma or_else_plain (a b : JsVal) : plain a = true -> plain b = true -> plain (or_else a b) = true.
Proof. unfold or_else; destruct (truthy a); auto. Qed.

Lemma nullish_plain (a b : JsVal) : plain a = true -> plain b = true -> plain (nullish a b) = true.
Proof. destruct a; auto. Qed.

Lemma valid_operation_plain (v : JsVal) : plain v = true -> plain (valid_operation v) = true.
Proof. unfold valid_operation; destruct (_ || _); auto. Qed.

Lemma data_literal_plain (o : props) (a b r : string) :
  all_plain o = true -> data_literal (JObj o) a b r = Some (data_fields (JObj o) a b r).
Proof.
  intros H; unfold data_literal, data_fields.
  rewrite !coerceStr_plain; [reflexivity| | |]; auto using nullish_plain, get_plain.
Qed.

Lemma assign_data_plain (ty : jstring) (o x : props) :
  all_plain o = true -> assign_data ty (JObj o) x = Some (with_data ty (JObj o) x).
Proof.
  intros H; unfold assign_data, with_data.
  repeat match goal with
         | |- context [if ?c then _ else _] => destruct c
         end; rewrite ?data_literal_plain by exact H; reflexivity.
Qed.

Lemma with_data_plain (ty : jstring) (d : JsVal) (x : props) :
  all_plain x = true -> all_plain (with_data ty d x) = true.
Proof.
  intros H; unfold with_data.
  repeat match goal with
         | |- context [if ?c then _ else _] => destruct c
         end; try exact H; now apply set_prop_plain.
Qed.

Lemma defaults_plain (ty : jstring) : plain (get defaults ty) = true.
Proof. apply get_plain; reflexivity. Qed.

Ltac plainly :=
  repeat first
    [ assumption
    | reflexivity
    | apply set_prop_plain
    | apply with_data_plain
    | apply or_else_plain
    | apply nullish_plain
    | apply valid_operation_plain
    | apply defaults_plain
    | apply get_plain
    | apply spread_plain ].

Lemma normalizeStep_plain (s : JsVal) :
  plain s = true -> normalizeStep s = Some (normal_step s).
Proof.
  intros H; unfold normalizeStep, normal_step; cbv zeta.
  rewrite String_of_plain by plainly; cbn [and_then].
  rewrite assign_data_plain by plainly; cbn [and_then].
  rewrite coerceStr_plain by plainly; reflexivity.
Qed.

Lemma mapM_plain (l : list JsVal) :
  forallb plain l = true -> mapM normalizeStep l = Some (map normal_step l).
Proof.
  induction l as [|x l IH]; cbn [forallb mapM map]; [reflexivity|].
  intros H; apply andb_true_iff in H as [H1 H2].
  now rewrite (normalizeStep_plain x H1), (IH H2).
Qed.

Lemma normalizeSimple_plain (ty : jstring) (out : props) :
  all_plain out = true -> normalizeSimple ty out = Some (normal_simple ty out).
Proof.
  intros H; unfold normalizeSimple, normal_simple; cbv zeta.
  rewrite assign_data_plain by plainly; cbn [and_then].
  rewrite coerceStr_plain by plainly; reflexivity.
Qed.

Lemma forallb_firstn (A : Type) (f : A -> bool) (n : nat) (l : list A) :
  forallb f l = true -> forallb f (firstn n l) = true.
Proof.
  revert n; induction l as [|x l IH]; intros [|n]; cbn [firstn forallb]; auto.
  intros H; apply andb_true_iff in H as [H1 H2]; now rewrite H1, IH.
Qed.

(** On an input without [toString] properties [normalizeProblem] returns. *)
Lemma normalizeProblem_plain (e : Entropy) (p : JsVal) (ctx : Ctx) :
  plain p = true -> normalizeProblem e p ctx = Some (normal_record e p ctx).
Proof.
  intros H; unfold normalizeProblem, normal_record; cbv zeta.
  assert (P1 : all_plain (if truthy (get (JObj (spread p)) (js "id")) then spread p
                          else set_prop (js "id") (JStr (genId e)) (spread p)) = true)
    by (destruct (truthy _); plainly).
  remember (if truthy (get (JObj (spread p)) (js "id")) then spread p
            else set_prop (js "id") (JStr (genId e)) (spread p)) as o1 eqn:E1; clear E1.
  assert (P2 : all_plain (if truthy (get (JObj o1) (js "createdAt")) then o1
                          else set_prop (js "createdAt") (JNum (now e)) o1) = true)
    by (destruct (truthy _); plainly).
  remember (if truthy (get (JObj o1) (js "createdAt")) then o1
            else set_prop (js "createdAt") (JNum (now e)) o1) as o2 eqn:E2; clear E2.
  rewrite Number_of_plain by plainly; cbn [and_then].
  rewrite String_of_plain by plainly; cbn [and_then].
  match goal with
  | |- context [if ?c then _ else _] => destruct c eqn:B
  end.
  - apply andb_true_iff in B as [_ B].
    rewrite mapM_plain; [reflexivity|].
    match goal with
    | |- forallb plain (slice (elements ?s) 0 2) = true =>
        assert (PS : plain s = true) by plainly; destruct s; try reflexivity
    end.
    change 2%Z with (Z.of_nat 2); rewrite slice_from_0.
    apply forallb_firstn; exact PS.
  - rewrite normalizeSimple_plain by plainly; reflexivity.
Qed.

(** C1 (amended). On every input none of whose objects has a property named
    [toString], [normalizeProblem] returns an object. Whenever it returns, it
    returns an object, and when the type of that record is one of the four
    types of the key table, the keys of its [data] are exactly those of the
    table, in its order, and every value of [data] and the [answer] are
    strings that are either [RESULTADO_ANTERIOR] or made of digits, points,
    minus signs and question marks only (such a string may be empty or
    ill-formed as a numeral). *)
Theorem normalizeProblem_invariants (e : Entropy) (p : JsVal) (ctx : Ctx) :
  (plain p = true -> exists o, normalizeProblem e p ctx = Some (JObj o))
  /\ forall r, normalizeProblem e p ctx = Some r ->
       (exists o, r = JObj o)
       /\ forall ks, type_keys (ToString (get r (js "type"))) = Some ks ->
            keys_of (get r (js "data")) = ks
            /\ forallb coerced_value (values_of (get r (js "data"))) = true
            /\ coerced_value (get r (js "answer")) = true.
Proof.
  split.
  - intros H; rewrite (normalizeProblem_plain e p ctx H).
    destruct (normal_record_object e p ctx) as [o ->]; eauto.
  - intros r H; apply normalizeProblem_returns in H; subst r.
    split; [apply normal_record_object|].
    intros ks; apply normal_record_shape.
Qed.


Lemma has_key_lookup (o : props) (k : jstring) :
  has_key (JObj o) k = match lookup k o with Some _ => true | None => false end.
Proof. reflexivity. Qed.

Lemma record_steps (e : Entropy) (p : JsVal) (ctx : Ctx) :
  lookup (js "steps") (set_prop (js "type") (JStr (record_type e p ctx)) (stamped e p ctx))
  = lookup (js "steps") (spread p).
Proof.
  rewrite lookup_set_other by reflexivity.
  now apply stamped_lookup_other.
Qed.

Lemma record_data (e : Entropy) (p : JsVal) (ctx : Ctx) :
  lookup (js "data") (set_prop (js "type") (JStr (record_type e p ctx)) (stamped e p ctx))
  = lookup (js "data") (spread p).
Proof.
  rewrite lookup_set_other by reflexivity.
  now apply stamped_lookup_other.
Qed.

(** What the record of a two-step type holds. *)
Lemma normal_record_steps (e : Entropy) (p : JsVal) (ctx : Ctx) :
  get (normal_record e p ctx) (js "type") = JStr (js "DOS_OPERACIONES") ->
  (forall l, get p (js "steps") = JArr l ->
     get (normal_record e p ctx) (js "steps") = JArr (map normal_step (firstn 2 l))
     /\ (length (map normal_step (firstn 2 l)) <= 2)%nat)
  /\ (isArray (get p (js "steps")) = false ->
      get (normal_record e p ctx) (js "steps") = get p (js "steps"))
  /\ get (normal_record e p ctx) (js "data") = get p (js "data")
  /\ has_key (normal_record e p ctx) (js "data") = has_key p (js "data").
Proof.
  rewrite normal_record_type; intros [= HT].
  rewrite normal_record_unfold; cbv zeta.
  assert (HS : get (JObj (set_prop (js "type") (JStr (record_type e p ctx)) (stamped e p ctx)))
                 (js "steps") = get p (js "steps"))
    by (unfold get at 1 2; cbn [spread]; now rewrite record_steps).
  assert (HD := record_data e p ctx).
  set (ty := record_type e p ctx) in *.
  set (out := set_prop (js "type") (JStr ty) (stamped e p ctx)) in *.
  assert (HJ : jeqb ty (js "DOS_OPERACIONES") = true) by (rewrite HT; reflexivity).
  assert (NK : type_keys ty = None) by (rewrite HT; reflexivity).
  rewrite HJ, HS; cbn [andb].
  split; [intros l Hl; split|split; [|split]].
  - rewrite Hl; cbn [isArray elements].
    rewrite get_set_same. change 2%Z with (Z.of_nat 2). now rewrite slice_from_0.
  - rewrite length_map, length_firstn; lia.
  - intros NA; rewrite NA.
    rewrite get_lookup, normal_simple_other by reflexivity.
    fold (get (JObj out) (js "steps")); exact HS.
  - destruct (isArray (get p (js "steps"))).
    + rewrite get_set_other by reflexivity.
      unfold get; cbn [spread]; now rewrite HD.
    + rewrite get_lookup, normal_simple_data, type_keys_none by exact NK.
      unfold get; now rewrite HD.
  - destruct (isArray (get p (js "steps"))).
    + rewrite has_key_set_other by reflexivity.
      unfold has_key; cbn [spread]; now rewrite HD.
    + rewrite has_key_lookup, normal_simple_data, type_keys_none by exact NK.
      unfold has_key; now rewrite HD.
Qed.


(** The branch a returning normalisation took. *)
Lemma normalizeProblem_branch (e : Entropy) (p : JsVal) (ctx : Ctx) (r : JsVal) :
  normalizeProblem e p ctx = Some r ->
  let ty := record_type e p ctx in
  let out := set_prop (js "type") (JStr ty) (stamped e p ctx) in
  (if jeqb ty (js "DOS_OPERACIONES") && isArray (get (JObj out) (js "steps")) then
     do steps <- mapM normalizeStep (slice (elements (get (JObj out) (js "steps"))) 0 2);
     Some (JObj (set_prop (js "steps") (JArr steps) out))
   else
     do o <- normalizeSimple ty out;
     Some (JObj o)) = Some r.
Proof.
  unfold normalizeProblem; intros H; returned H.
  apply Number_of_returns in E; apply String_of_returns in E0; subst.
  exact H.
Qed.

(** C2 (amended). On every input none of whose objects has a property named
    [toString], [normalizeProblem] returns. Whenever it returns a record of
    type [DOS_OPERACIONES]: if the input's [steps] is an array, the record's
    [steps] is the array of its first two entries, each normalised, so it has
    at most two; otherwise [steps] is left as the input had it. In both cases
    normalisation neither adds, removes nor changes a top-level [data]: the
    record has one exactly when the input has one. *)
Theorem normalizeProblem_two_steps (e : Entropy) (p : JsVal) (ctx : Ctx) :
  (plain p = true -> exists r, normalizeProblem e p ctx = Some r)
  /\ forall r, normalizeProblem e p ctx = Some r ->
       get r (js "type") = JStr (js "DOS_OPERACIONES") ->
       (forall l, get p (js "steps") = JArr l ->
          exists steps, mapM normalizeStep (firstn 2 l) = Some steps
                        /\ get r (js "steps") = JArr steps
                        /\ (length steps <= 2)%nat)
       /\ (isArray (get p (js "steps")) = false -> get r (js "steps") = get p (js "steps"))
       /\ get r (js "data") = get p (js "data")
       /\ has_key r (js "data") = has_key p (js "data").
Proof.
  split; [intros H; rewrite (normalizeProblem_plain e p ctx H); eauto|].
  intros r H HT.
  assert (B := normalizeProblem_branch e p ctx r H); cbv zeta in B.
  apply normalizeProblem_returns in H; subst r.
  destruct (normal_record_steps e p ctx HT) as (S1 & S2 & D1 & D2).
  split; [|auto].
  intros l Hl; destruct (S1 l Hl) as [G L].
  exists (map normal_step (firstn 2 l)); split; [|auto].
  rewrite normal_record_type in HT; injection HT as HT.
  assert (HS : get (JObj (set_prop (js "type") (JStr (record_type e p ctx)) (stamped e p ctx)))
                 (js "steps") = get p (js "steps"))
    by (unfold get at 1 2; cbn [spread]; now rewrite record_steps).
  rewrite HS, Hl, HT in B; cbn [andb isArray elements] in B.
  change 2%Z with (Z.of_nat 2) in B; rewrite slice_from_0 in B.
  change (jeqb (js "DOS_OPERACIONES") (js "DOS_OPERACIONES")) with true in B; cbn [andb] in B.
  returned B.
  now rewrite (mapM_returns _ _ normalizeStep normal_step _ _ normalizeStep_returns E).
Qed.


(** ** Idempotence of the normalisation *)

Lemma upper_unit_fixed (x : N) :
  (x < 97 \/ (122 < x /\ x < 224 /\ x <> 181 /\ x <> 223) \/ x = 247 \/ 255 < x)%N ->
  upper_unit x = [x].
Proof.
  intros H; unfold upper_unit.
  destruct ((97 <=? x) && (x <=? 122))%N eqn:A; [b2p; lia|].
  destruct (x =? 181)%N eqn:B; [b2p; lia|].
  destruct (x =? 223)%N eqn:C; [b2p; lia|].
  destruct ((224 <=? x) && (x <=? 254) && negb (x =? 247))%N eqn:D; [b2p; lia|].
  destruct (x =? 255)%N eqn:E; [b2p; lia|reflexivity].
Qed.

Lemma upper_unit_idem (c : N) : flat_map upper_unit (upper_unit c) = upper_unit c.
Proof.
  unfold upper_unit at 2 3.
  destruct ((97 <=? c) && (c <=? 122))%N eqn:A.
  { cbn [flat_map]; rewrite upper_unit_fixed; [reflexivity|b2p; lia]. }
  destruct (c =? 181)%N eqn:B; [reflexivity|].
  destruct (c =? 223)%N eqn:C; [reflexivity|].
  destruct ((224 <=? c) && (c <=? 254) && negb (c =? 247))%N eqn:D.
  { cbn [flat_map]; rewrite upper_unit_fixed; [reflexivity|b2p; lia]. }
  destruct (c =? 255)%N eqn:E; [reflexivity|].
  cbn [flat_map]; rewrite upper_unit_fixed; [reflexivity|].
  b2p; lia.
Qed.

(** The engine of the examples is one whose case mapping is stable. *)
Lemma latin1_stable : stable_case (engine := latin1).
Proof.
  intros s; cbn [toUpperCase latin1]; induction s as [|c s IH]; [reflexivity|].
  cbn [flat_map]; now rewrite flat_map_app, upper_unit_idem, IH.
Qed.

Lemma valid_operation_idem (v : JsVal) : valid_operation (valid_operation v) = valid_operation v.
Proof.
  unfold valid_operation at 2 3.
  destruct (is_str v (js "+") || is_str v (js "-") || is_str v (js "*") || is_str v (js "/")) eqn:E.
  - unfold valid_operation; now rewrite E.
  - reflexivity.
Qed.

Lemma filter_all (A : Type) (f : A -> bool) (l : list A) :
  forallb f l = true -> filter f l = l.
Proof.
  induction l as [|x l IH]; simpl; [reflexivity|].
  intros H; apply andb_true_iff in H as [H1 H2]; now rewrite H1, IH.
Qed.

Lemma replace_first_numeric (s : jstring) :
  forallb numeric_char s = true -> replace_first (js ",") (js ".") s = s.
Proof.
  induction s as [|c s IH]; [reflexivity|].
  cbn [forallb]; intros H; apply andb_true_iff in H as [H1 H2].
  cbn [replace_first].
  replace (starts_with (js ",") (c :: s)) with false; [now rewrite IH|].
  symmetry; cbn [js list_ascii_of_string map starts_with].
  rewrite andb_true_r; apply N.eqb_neq; intros <-; discriminate.
Qed.

Lemma coercion_idem (v : JsVal) : coercion (JStr (coercion v)) = coercion v.
Proof.
  assert (H := coercion_coerced v); unfold coerced_value in H.
  rewrite coercion_string.
  destruct (jeqb (coercion v) (js "?") || jeqb (coercion v) (js "RESULTADO_ANTERIOR")) eqn:E;
    [reflexivity|].
  apply orb_false_iff in E as [_ E]; rewrite E, orb_false_r in H.
  now rewrite replace_first_numeric, filter_all.
Qed.

Lemma obj3_get (a b r : string) (x y z : JsVal) :
  jeqb (js a) (js b) = false -> jeqb (js a) (js r) = false -> jeqb (js b) (js r) = false ->
  get (obj [(a, x); (b, y); (r, z)]) (js a) = x
  /\ get (obj [(a, x); (b, y); (r, z)]) (js b) = y
  /\ get (obj [(a, x); (b, y); (r, z)]) (js r) = z.
Proof.
  intros AB AR BR.
  unfold get, obj; cbn [spread map fst snd lookup].
  rewrite !jeqb_refl, (jeqb_sym (js b) (js a)), (jeqb_sym (js r) (js a)),
    (jeqb_sym (js r) (js b)), AB, AR, BR.
  auto.
Qed.

Lemma data_fields_idem (d : JsVal) (a b r : string) :
  jeqb (js a) (js b) = false -> jeqb (js a) (js r) = false -> jeqb (js b) (js r) = false ->
  data_fields (data_fields d a b r) a b r = data_fields d a b r.
Proof.
  intros AB AR BR.
  unfold data_fields at 1.
  destruct (obj3_get a b r (JStr (coercion (get d (js a)))) (JStr (coercion (get d (js b))))
              (JStr (coercion (nullish (get d (js r)) (JStr (js "?"))))) AB AR BR)
    as (E1 & E2 & E3).
  fold (data_fields d a b r) in E1, E2, E3.
  rewrite E1, E2, E3; cbn [nullish].
  now rewrite !coercion_idem.
Qed.

Lemma data_literal_fixed (d : JsVal) (a b r : string) :
  jeqb (js a) (js b) = false -> jeqb (js a) (js r) = false -> jeqb (js b) (js r) = false ->
  data_literal (data_fields d a b r) a b r = Some (data_fields d a b r).
Proof.
  intros AB AR BR.
  rewrite <- (data_fields_idem d a b r AB AR BR) at 2.
  unfold data_literal, data_fields at 4.
  destruct (obj3_get a b r (JStr (coercion (get d (js a)))) (JStr (coercion (get d (js b))))
              (JStr (coercion (nullish (get d (js r)) (JStr (js "?"))))) AB AR BR)
    as (E1 & E2 & E3).
  fold (data_fields d a b r) in E1, E2, E3.
  rewrite E1, E2, E3; cbn [nullish].
  now rewrite !coerceStr_string.
Qed.

Lemma with_data_shape (ty : jstring) (ks : list jstring) :
  type_keys ty = Some ks ->
  exists a b r : string,
    ks = [js a; js b; js r]
    /\ jeqb (js a) (js b) = false /\ jeqb (js a) (js r) = false /\ jeqb (js b) (js r) = false
    /\ (forall d x, with_data ty d x = set_prop (js "data") (data_fields d a b r) x)
    /\ (forall d x, assign_data ty d x
                    = do l <- data_literal d a b r; Some (set_prop (js "data") l x)).
Proof.
  intros H; apply type_keys_cases in H as [[-> ->]|[[-> ->]|[[-> ->]|[-> ->]]]].
  - exists "p1"%string, "p2"%string, "t"%string; repeat split.
  - exists "u"%string, "v"%string, "t"%string; repeat split.
  - exists "cm"%string, "cmen"%string, "d"%string; repeat split.
  - exists "ci"%string, "c"%string, "cf"%string; repeat split.
Qed.

Lemma assign_data_none (ty : jstring) (d : JsVal) (x : props) :
  type_keys ty = None -> assign_data ty d x = Some x.
Proof.
  unfold type_keys, assign_data.
  destruct (jeqb ty (js "PPT")); [discriminate|].
  destruct (jeqb ty (js "UVT")); [discriminate|].
  destruct (jeqb ty (js "COMPARACION")); [discriminate|].
  destruct (jeqb ty (js "CAMBIO")); [discriminate|reflexivity].
Qed.

(** A record whose fields are in normal form is a fixed point of the chain
    that assigns [data]. *)
Lemma assign_data_fixed (ty : jstring) (F : props) :
  normal_fields ty F ->
  assign_data ty (JObj (spread (or_else (get (JObj F) (js "data")) (JObj [])))) F = Some F.
Proof.
  intros NF.
  destruct (type_keys ty) as [ks|] eqn:K; [|now apply assign_data_none].
  destruct (nf_data NF K) as (d & a & b & r & -> & AB & AR & BR & L).
  destruct (with_data_shape ty _ K) as (a' & b' & r' & E & _ & _ & _ & _ & SH).
  rewrite SH, get_lookup, L.
  injection E as Ea Eb Er.
  assert (DL : forall x, data_literal x a' b' r' = data_literal x a b r)
    by (intros x; unfold data_literal, obj; cbn [map fst snd]; now rewrite Ea, Eb, Er).
  change (or_else (data_fields d a b r) (JObj [])) with (data_fields d a b r).
  change (JObj (spread (data_fields d a b r))) with (data_fields d a b r).
  rewrite DL, data_literal_fixed by assumption; cbn [and_then].
  now rewrite set_prop_same_value.
Qed.

Lemma or_else_truthy (a b : JsVal) : truthy a = true -> or_else a b = a.
Proof. unfold or_else; now intros ->. Qed.

Lemma normalizeSimple_fixed (ty : jstring) (F : props) :
  normal_fields ty F -> normalizeSimple ty F = Some F.
Proof.
  intros NF; unfold normalizeSimple; cbv zeta.
  rewrite (assign_data_fixed ty F NF); cbn [and_then].
  destruct (nf_labels NF) as (L & HL & TL).
  destruct (nf_operation NF) as (V & HV & EV).
  destruct (nf_answer NF) as (A & HA & EA).
  rewrite (get_lookup F (js "labels")), HL, !(or_else_truthy L _ TL).
  rewrite (set_prop_same_value (js "labels") L F eq_refl HL).
  rewrite (get_lookup F (js "operation")), HV, EV.
  rewrite (set_prop_same_value (js "operation") V F eq_refl HV).
  rewrite (get_lookup F (js "answer")), HA, coerceStr_string, EA; cbn [and_then].
  now rewrite (set_prop_same_value (js "answer") (JStr A) F eq_refl HA).
Qed.

Lemma labels_truthy (a b : JsVal) : truthy (or_else (or_else a b) (JObj [])) = true.
Proof.
  unfold or_else at 1.
  destruct (truthy (or_else a b)) eqn:E; [exact E|reflexivity].
Qed.

Lemma normal_simple_normal (ty : jstring) (out : props) :
  normal_fields ty (normal_simple ty out).
Proof.
  split.
  - unfold normal_simple; cbv zeta.
    rewrite lookup_set_other by reflexivity; rewrite lookup_set_same.
    eexists; split; [reflexivity|apply valid_operation_idem].
  - unfold normal_simple; cbv zeta.
    rewrite !lookup_set_other by reflexivity; rewrite lookup_set_same.
    eexists; split; [reflexivity|apply labels_truthy].
  - rewrite normal_simple_answer.
    eexists; split; [reflexivity|apply coercion_idem].
  - intros ks K; rewrite normal_simple_data.
    destruct (with_data_shape ty ks K) as (a & b & r & E & AB & AR & BR & SH & _).
    rewrite SH, lookup_set_same.
    eexists _, a, b, r; repeat split; assumption.
Qed.

Lemma normal_step_type (s : JsVal) :
  lookup (js "type") (spread (normal_step s)) = Some (JStr (step_type s)).
Proof.
  unfold normal_step; cbv zeta; cbn [spread].
  rewrite !lookup_set_other, with_data_get_other, lookup_set_other by reflexivity.
  apply lookup_set_same.
Qed.

Lemma normal_step_normal (s : JsVal) :
  normal_fields (step_type s) (spread (normal_step s)).
Proof.
  unfold normal_step; cbv zeta; cbn [spread]; fold (step_type s).
  split.
  - rewrite !lookup_set_other, with_data_get_other by reflexivity.
    rewrite lookup_set_same.
    eexists; split; [reflexivity|apply valid_operation_idem].
  - rewrite lookup_set_other by reflexivity; rewrite lookup_set_same.
    eexists; split; [reflexivity|apply labels_truthy].
  - rewrite lookup_set_same.
    eexists; split; [reflexivity|apply coercion_idem].
  - intros ks K; rewrite !lookup_set_other by reflexivity.
    destruct (with_data_shape (step_type s) ks K) as (a & b & r & E & AB & AR & BR & SH & _).
    rewrite SH, lookup_set_same.
    eexists _, a, b, r; repeat split; assumption.
Qed.

Lemma normalizeStep_fixed (F : props) (ty : jstring) :
  lookup (js "type") F = Some (JStr ty) -> truthy (JStr ty) = true ->
  toUpperCase ty = ty -> normal_fields ty F ->
  normalizeStep (JObj F) = Some (JObj F).
Proof.
  intros HT NE UP NF; unfold normalizeStep; cbv zeta; cbn [spread].
  rewrite (get_lookup F (js "type")), HT, (or_else_truthy (JStr ty) _ NE).
  rewrite String_of_string; cbn [and_then]; rewrite UP.
  rewrite (set_prop_same_value (js "type") (JStr ty) F eq_refl HT).
  destruct (nf_labels NF) as (L & HL & TL).
  destruct (nf_operation NF) as (V & HV & EV).
  destruct (nf_answer NF) as (A & HA & EA).
  rewrite (get_lookup F (js "operation")), HV, EV.
  rewrite (set_prop_same_value (js "operation") V F eq_refl HV).
  rewrite (assign_data_fixed ty F NF); cbn [and_then].
  rewrite (get_lookup F (js "labels")), HL, !(or_else_truthy L _ TL).
  rewrite (set_prop_same_value (js "labels") L F eq_refl HL).
  rewrite (get_lookup F (js "answer")), HA, coerceStr_string, EA; cbn [and_then].
  now rewrite (set_prop_same_value (js "answer") (JStr A) F eq_refl HA).
Qed.

(** A step with a non-empty type is normalised once and for all. *)
Lemma normalizeStep_idem (s : JsVal) :
  stable_case ->
  truthy (get (normal_step s) (js "type")) = true ->
  normalizeStep (normal_step s) = Some (normal_step s).
Proof.
  intros SC NE.
  assert (HT := normal_step_type s).
  assert (NF := normal_step_normal s).
  remember (spread (normal_step s)) as F eqn:EF.
  assert (E : normal_step s = JObj F) by (subst F; reflexivity).
  rewrite E in *.
  rewrite get_lookup, HT in NE.
  apply normalizeStep_fixed with (ty := step_type s); try assumption.
  apply SC.
Qed.

Lemma genId_truthy (e : Entropy) : truthy (JStr (genId e)) = true.
Proof. unfold genId; destruct (rand1 e); reflexivity. Qed.

Lemma stamped_id (e : Entropy) (p : JsVal) (ctx : Ctx) :
  exists v, lookup (js "id") (stamped e p ctx) = Some v /\ truthy v = true.
Proof.
  unfold stamped; cbv zeta.
  rewrite lookup_set_other by reflexivity.
  assert (H : exists v,
             lookup (js "id")
               (if truthy (get (JObj (spread p)) (js "id")) then spread p
                else set_prop (js "id") (JStr (genId e)) (spread p)) = Some v
             /\ truthy v = true).
  { destruct (truthy (get (JObj (spread p)) (js "id"))) eqn:T.
    - rewrite get_lookup in T.
      destruct (lookup (js "id") (spread p)) as [v|]; [eauto|discriminate].
    - rewrite lookup_set_same; eauto using genId_truthy. }
  match goal with
  | |- context [if truthy (get (JObj ?o) (js "createdAt")) then _ else _] =>
      destruct (truthy (get (JObj o) (js "createdAt")))
  end; [exact H|now rewrite lookup_set_other by reflexivity].
Qed.

Lemma stamped_createdAt (e : Entropy) (p : JsVal) (ctx : Ctx) :
  truthy (JNum (now e)) = true ->
  exists v, lookup (js "createdAt") (stamped e p ctx) = Some v /\ truthy v = true.
Proof.
  intros HN; unfold stamped; cbv zeta.
  rewrite lookup_set_other by reflexivity.
  match goal with
  | |- context [if truthy (get (JObj ?o) (js "createdAt")) then _ else _] =>
      destruct (truthy (get (JObj o) (js "createdAt"))) eqn:T;
      [rewrite get_lookup in T;
       destruct (lookup (js "createdAt") o) as [v|]; [eauto|discriminate]|]
  end.
  rewrite lookup_set_same; eauto.
Qed.

Lemma stamped_grade (e : Entropy) (p : JsVal) (ctx : Ctx) :
  exists g, lookup (js "grade") (stamped e p ctx) = Some (JNum g).
Proof. unfold stamped; cbv zeta; rewrite lookup_set_same; eauto. Qed.

Lemma mapM_fixed (A : Type) (f : A -> option A) (l : list A) :
  (forall x, In x l -> f x = Some x) -> mapM f l = Some l.
Proof.
  induction l as [|x l IH]; cbn [mapM]; intros H; [reflexivity|].
  rewrite H by (left; reflexivity); cbn [and_then].
  rewrite IH by (intros y Hy; apply H; right; exact Hy); reflexivity.
Qed.

(** The second normalisation of a record that already carries [id],
    [createdAt], a numeric [grade] and a non-empty upper-case [type] only runs
    the branch of its type. *)
Lemma normalizeProblem_stamped (e : Entropy) (F : props) (ctx : Ctx)
      (ty : jstring) (vi vc : JsVal) (g : JsNum) :
  lookup (js "id") F = Some vi -> truthy vi = true ->
  lookup (js "createdAt") F = Some vc -> truthy vc = true ->
  lookup (js "grade") F = Some (JNum g) ->
  lookup (js "type") F = Some (JStr ty) -> truthy (JStr ty) = true ->
  toUpperCase ty = ty ->
  normalizeProblem e (JObj F) ctx
  = if jeqb ty (js "DOS_OPERACIONES") && isArray (get (JObj F) (js "steps")) then
      do steps <- mapM normalizeStep (slice (elements (get (JObj F) (js "steps"))) 0 2);
      Some (JObj (set_prop (js "steps") (JArr steps) F))
    else
      do o <- normalizeSimple ty F;
      Some (JObj o).
Proof.
  intros HI TI HC TC HG HT NE UP.
  unfold normalizeProblem; cbv zeta; cbn [spread].
  rewrite (get_lookup F (js "id")), HI, TI.
  rewrite (get_lookup F (js "createdAt")), HC, TC.
  rewrite (get_lookup F (js "grade")), HG; cbn [nullish].
  change (Number_of (JNum g)) with (Some g); cbn [and_then].
  rewrite (set_prop_same_value (js "grade") (JNum g) F eq_refl HG).
  rewrite (get_lookup F (js "type")), HT, (or_else_truthy (JStr ty) _ NE).
  rewrite String_of_string; cbn [and_then]; rewrite UP.
  now rewrite (set_prop_same_value (js "type") (JStr ty) F eq_refl HT).
Qed.

(** C7 (amended). With an engine whose upper-casing is stable: when a first
    normalisation returned, with a clock that gave a non-zero time, a record
    that carries a non-empty [type] and, for a two-step record, a non-empty
    [type] in each of its steps, normalising that record again, with the same
    fallback context and whatever the clock and the random generator give the
    second time, returns the same record, [id] and [createdAt] included. *)
Theorem normalizeProblem_idempotent (e e' : Entropy) (p : JsVal) (ctx : Ctx) (r : JsVal) :
  stable_case ->
  normalizeProblem e p ctx = Some r ->
  truthy (JNum (now e)) = true ->
  types_nonempty r = true ->
  normalizeProblem e' r ctx = Some r.
Proof.
  intros SC HR HN HT; apply normalizeProblem_returns in HR; subst r.
  destruct (stamped_id e p ctx) as (vi & HI & TI).
  destruct (stamped_createdAt e p ctx HN) as (vc & HC & TC).
  destruct (stamped_grade e p ctx) as (g & HG).
  unfold types_nonempty in HT; rewrite normal_record_type in HT.
  apply andb_true_iff in HT as [NE ST].
  assert (UP : toUpperCase (record_type e p ctx) = record_type e p ctx)
    by apply SC.
  rewrite (normal_record_unfold e p ctx) in *; cbv zeta in *.
  set (ty := record_type e p ctx) in *.
  set (out := set_prop (js "type") (JStr ty) (stamped e p ctx)) in *.
  assert (OI : lookup (js "id") out = Some vi)
    by (unfold out; now rewrite lookup_set_other by reflexivity).
  assert (OC : lookup (js "createdAt") out = Some vc)
    by (unfold out; now rewrite lookup_set_other by reflexivity).
  assert (OG : lookup (js "grade") out = Some (JNum g))
    by (unfold out; now rewrite lookup_set_other by reflexivity).
  assert (OT : lookup (js "type") out = Some (JStr ty))
    by (unfold out; apply lookup_set_same).
  destruct (jeqb ty (js "DOS_OPERACIONES") && isArray (get (JObj out) (js "steps"))) eqn:B.
  - apply andb_true_iff in B as [BT BA].
    cbn [is_str] in ST; rewrite BT, get_set_same in ST; cbn [elements] in ST.
    set (l1 := map normal_step (slice (elements (get (JObj out) (js "steps"))) 0 2)) in *.
    assert (LL : (length l1 <= 2)%nat).
    { unfold l1; change 2%Z with (Z.of_nat 2).
      rewrite length_map, slice_from_0, length_firstn; lia. }
    assert (FX : mapM normalizeStep l1 = Some l1).
    { apply mapM_fixed; intros x Hx.
      rewrite forallb_forall in ST; specialize (ST x Hx).
      unfold l1 in Hx; apply in_map_iff in Hx as (s & <- & _).
      now apply normalizeStep_idem. }
    rewrite (normalizeProblem_stamped e' _ ctx ty vi vc g);
      try (rewrite lookup_set_other by reflexivity; assumption); try assumption.
    rewrite BT, get_set_same; cbn [andb isArray elements].
    change 2%Z with (Z.of_nat 2); rewrite slice_from_0, firstn_all2 by exact LL.
    rewrite FX; cbn [and_then].
    rewrite set_prop_same_value; [reflexivity|reflexivity|apply lookup_set_same].
  - rewrite (normalizeProblem_stamped e' _ ctx ty vi vc g);
      try (rewrite normal_simple_other by reflexivity; assumption); try assumption.
    rewrite (get_lookup (normal_simple ty out)), normal_simple_other by reflexivity.
    rewrite get_lookup in B; rewrite B.
    now rewrite normalizeSimple_fixed by apply normal_simple_normal.
Qed.

End Normalisation.

(** ** Examples of normalisation *)

(** The examples run on the Latin-1 engine; their strings are ASCII. *)

Lemma normalizeProblem_invariants_witness :
  let p := obj [("data", obj [("p1", JStr (js "12,5"))])]%string in
  let r := normal_record (engine := latin1) sample_entropy p (ctx_of 3 "ppt") in
  plain p = true
  /\ normalizeProblem (engine := latin1) sample_entropy p (ctx_of 3 "ppt") = Some r
  /\ get r (js "type") = JStr (js "PPT")
  /\ get (get r (js "data")) (js "p1") = JStr (js "12.5")
  /\ keys_of (get r (js "data")) = [js "p1"; js "p2"; js "t"]
  /\ forallb coerced_value (values_of (get r (js "data"))) = true
  /\ coerced_value (get r (js "answer")) = true.
Proof.
  cbv zeta; do 4 (split; [reflexivity|]).
  apply (normalizeProblem_invariants (engine := latin1) sample_entropy
           (obj [("data", obj [("p1", JStr (js "12,5"))])]%string) (ctx_of 3 "ppt"));
    reflexivity.
Defined.

(** C1 as stated fails: the empty object normalised as a [PPT] record gets
    [data.p1 = ''] and [answer = ''], which are neither numerals nor
    sentinels; a record whose type is outside the table keeps whatever
    [data] the input had, here none; and on a record whose [type] is an
    object with a property named [toString] the conversion throws. *)
Lemma normalizeProblem_invariants_counterexample :
  let r := normal_record (engine := latin1) sample_entropy (obj []) (ctx_of 3 "PPT") in
  let r' := normal_record (engine := latin1) sample_entropy
              (obj [("type", JStr (js "FOO"))]%string) (ctx_of 3 "PPT") in
  normalizeProblem (engine := latin1) sample_entropy (obj []) (ctx_of 3 "PPT") = Some r
  /\ get (get r (js "data")) (js "p1") = JStr (js "")
  /\ get r (js "answer") = JStr (js "")
  /\ numeric_or_sentinel (JStr (js "")) = false
  /\ record_invariants r = false
  /\ normalizeProblem (engine := latin1) sample_entropy
       (obj [("type", JStr (js "FOO"))]%string) (ctx_of 3 "PPT") = Some r'
  /\ has_key r' (js "data") = false
  /\ record_invariants r' = false
  /\ normalizeProblem (engine := latin1) sample_entropy
       (obj [("type", obj [("toString", JNum (Fin 1 0))])]%string) (ctx_of 3 "PPT") = None.
Proof. cbv zeta; repeat split; vm_compute; reflexivity. Qed.

Lemma normalizeProblem_two_steps_witness :
  let p := obj [("steps", JArr [obj [("type", JStr (js "ppt"))]; JNull; JNull])]%string in
  let r := normal_record (engine := latin1) sample_entropy p (ctx_of 4 "DOS_OPERACIONES") in
  normalizeProblem (engine := latin1) sample_entropy p (ctx_of 4 "DOS_OPERACIONES") = Some r
  /\ (forall l, get p (js "steps") = JArr l ->
        exists steps, mapM (normalizeStep (engine := latin1)) (firstn 2 l) = Some steps
                      /\ get r (js "steps") = JArr steps
                      /\ (length steps <= 2)%nat)
  /\ (isArray (get p (js "steps")) = false -> get r (js "steps") = get p (js "steps"))
  /\ get r (js "data") = get p (js "data")
  /\ has_key r (js "data") = has_key p (js "data").
Proof.
  cbv zeta; split; [reflexivity|].
  apply (normalizeProblem_two_steps (engine := latin1) sample_entropy
           (obj [("steps", JArr [obj [("type", JStr (js "ppt"))]; JNull; JNull])]%string)
           (ctx_of 4 "DOS_OPERACIONES")); reflexivity.
Defined.

(** C2 as stated fails: with request type [DOS_OPERACIONES], a top-level
    [data] of the input is kept beside the steps, and an input that names a
    simple type of its own is normalised as a simple record, with [data] and
    without [steps]. *)
Lemma normalizeProblem_two_steps_counterexample :
  let p := obj [("steps", JArr []); ("data", obj [("p1", JStr (js "4"))])]%string in
  let p' := obj [("type", JStr (js "PPT"))]%string in
  let r := normal_record (engine := latin1) sample_entropy p (ctx_of 4 "DOS_OPERACIONES") in
  let r' := normal_record (engine := latin1) sample_entropy p' (ctx_of 4 "DOS_OPERACIONES") in
  normalizeProblem (engine := latin1) sample_entropy p (ctx_of 4 "DOS_OPERACIONES") = Some r
  /\ get r (js "type") = JStr (js "DOS_OPERACIONES")
  /\ get r (js "steps") = JArr []
  /\ has_key r (js "data") = true
  /\ normalizeProblem (engine := latin1) sample_entropy p' (ctx_of 4 "DOS_OPERACIONES")
     = Some r'
  /\ has_key r' (js "data") = true
  /\ has_key r' (js "steps") = false.
Proof. cbv zeta; repeat split; vm_compute; reflexivity. Qed.

Lemma normalizeProblem_idempotent_witness :
  let p := obj [("type", JStr (js "uvt"));
                ("data", obj [("u", JStr (js "3,5 kg")); ("v", JNum (Fin 4 0))])]%string in
  let r := normal_record (engine := latin1) sample_entropy p (ctx_of 5 "PPT") in
  normalizeProblem (engine := latin1) sample_entropy p (ctx_of 5 "PPT") = Some r
  /\ get (get r (js "data")) (js "u") = JStr (js "3.5")
  /\ normalizeProblem (engine := latin1) later_entropy r (ctx_of 5 "PPT") = Some r.
Proof.
  cbv zeta; do 2 (split; [reflexivity|]).
  apply (normalizeProblem_idempotent (engine := latin1) sample_entropy later_entropy
           (obj [("type", JStr (js "uvt"));
                 ("data", obj [("u", JStr (js "3,5 kg")); ("v", JNum (Fin 4 0))])]%string)
           (ctx_of 5 "PPT") _ latin1_stable); reflexivity.
Defined.

(** C7 as stated fails: a record whose [type] is the empty array gets the
    empty string as type (an array is truthy and prints as its elements
    joined), so it is normalised as a record of no known type; the second
    normalisation finds the empty type falsy, falls back to the request's
    type and reshapes [data]. *)
Lemma normalizeProblem_idempotent_counterexample :
  let p := obj [("type", JArr [])]%string in
  let r := normal_record (engine := latin1) sample_entropy p (ctx_of 3 "PPT") in
  let r2 := normal_record (engine := latin1) later_entropy r (ctx_of 3 "PPT") in
  normalizeProblem (engine := latin1) sample_entropy p (ctx_of 3 "PPT") = Some r
  /\ normalizeProblem (engine := latin1) later_entropy r (ctx_of 3 "PPT") = Some r2
  /\ get r (js "type") = JStr (js "")
  /\ has_key r (js "data") = false
  /\ get r2 (js "type") = JStr (js "PPT")
  /\ has_key r2 (js "data") = true
  /\ r2 <> r.
Proof.
  cbv zeta; repeat split; try (vm_compute; reflexivity).
  vm_compute; discriminate.
Qed.

(** ** The persistence endpoint *)

Lemma persist_post (env : PersistEnv) (req : Request) :
  env_truthy (GITHUB_TOKEN env) = true -> method req = js "POST" ->
  persist env req
  = try_catch
      (b <- of_option (JSON_parse (body req)) ;;
       save <- putFile env (target env)
                 (or_else (get b (js "message")) (JStr (js "Update problems " ++ iso_now env)))
                 (JSON_stringify_2 (posted_problems b))
                 (or_else (get b (js "sha")) JUndefined) ;;
       if error_truthy (f_error save) then
         let st := status_or_500 (f_status save) in
         let isConflict := (st =? 409)%Z || (st =? 412)%Z || test_sha (env_value (f_error save)) in
         of_option (new_Response st [("error", JStr (env_value (f_error save)));
                                     ("conflict", JBool isConflict)])
       else ret (json_response 200 [("ok", JBool true); ("sha", f_sha save)]))
      (ret (json_response 400 [("error", JStr (js "Bad request"))])).
Proof.
  intros HT HM; unfold persist; rewrite HM, HT.
  reflexivity.
Qed.

Lemma persist_get (env : PersistEnv) (req : Request) :
  env_truthy (GITHUB_TOKEN env) = true -> method req = js "GET" ->
  persist env req
  = (file <- getFile env (target env) ;;
     if (f_status file =? 404)%Z then
       ret (json_response 404 [("problems", JArr []); ("sha", JNull); ("notFound", JBool true)])
     else if error_truthy (f_error file) then
       of_option (new_Response (status_or_500 (f_status file))
                    [("error", JStr (env_value (f_error file)))])
     else
       let text := if env_truthy (f_content file) then env_value (f_content file) else js "[]" in
       let problems := match JSON_parse text with
                       | Some v => v
                       | None => JArr []
                       end in
       ret (json_response 200 [("problems", problems); ("sha", f_sha file)])).
Proof.
  intros HT HM; unfold persist; rewrite HM, HT.
  reflexivity.
Qed.

(** C5 (amended). When the server credential is configured, a [POST] whose
    body, read the way [req.json()] reads it (the bytes decoded as UTF-8, a
    leading byte order mark dropped), is not JSON is answered with status 400
    and [{error: 'Bad request'}], and the hosting service is not called. *)
Theorem persist_malformed_body (env : PersistEnv) (req : Request) :
  env_truthy (GITHUB_TOKEN env) = true ->
  method req = js "POST" ->
  JSON_parse (body req) = None ->
  run (persist env req)
  = (Some (json_response 400 [("error", JStr (js "Bad request"))]), []).
Proof.
  intros HT HM HB.
  rewrite persist_post by assumption.
  unfold run, try_catch, bind; rewrite HB; reflexivity.
Qed.

Lemma persist_malformed_body_witness :
  run (persist (persist_env (Some (js "ghp_token")) (Reply 200 (js "{}")))
         (request "POST" (js "{problems:")))
  = (Some (json_response 400 [("error", JStr (js "Bad request"))]), []).
Proof.
  apply (persist_malformed_body
           (persist_env (Some (js "ghp_token")) (Reply 200 (js "{}")))
           (request "POST" (js "{problems:"))); reflexivity.
Defined.

(** C5 as stated fails: without the server credential the same request is
    answered with status 500 before its body is read. *)
Lemma persist_malformed_body_counterexample :
  JSON_parse (body (request "POST" (js "{problems:"))) = None
  /\ run (persist (persist_env None (Reply 200 (js "{}"))) (request "POST" (js "{problems:")))
     = (Some (json_response 500 [("error", JStr (js "Missing GITHUB_TOKEN"))]), []).
Proof. split; vm_compute; reflexivity. Qed.

(** A body that starts with the bytes of the byte order mark is read
    without them. *)
Lemma body_mark (m : jstring) (bs : list N) :
  body {| method := m; bytes := [239; 187; 191]%N ++ bs |} = utf8_decode bs.
Proof. reflexivity. Qed.

Lemma putFile_run (env : PersistEnv) (t : Target) (message : JsVal) (content : jstring)
      (sha : JsVal) (log : list GhRequest) :
  putFile env t message content sha log
  = match github env (write_request t message content sha) with
    | NetworkError => (None, log ++ [write_request t message content sha])
    | Reply st text =>
        if negb (ok_status st) then
          (Some {| f_status := st; f_error := Some text; f_content := None; f_sha := JUndefined |},
           log ++ [write_request t message content sha])
        else
          match JSON_parse text with
          | None => (None, log ++ [write_request t message content sha])
          | Some json =>
              if is_nullish json then (None, log ++ [write_request t message content sha])
              else (Some {| f_status := st; f_error := None; f_content := None;
                            f_sha := get (get json (js "content")) (js "sha") |},
                    log ++ [write_request t message content sha])
          end
    end.
Proof.
  unfold putFile, bind, gh.
  destruct (github env (write_request t message content sha)) as [|st text]; [reflexivity|].
  destruct (negb (ok_status st)); [reflexivity|].
  unfold of_option; destruct (JSON_parse text) as [json|]; [|reflexivity].
  unfold ret, throw; destruct (is_nullish json); reflexivity.
Qed.

(** Every [POST] with a JSON body makes exactly one call, the write, whatever
    comes of it: the handler never calls the service a second time. *)
Lemma persist_post_single_call (env : PersistEnv) (req : Request) (b : JsVal) :
  env_truthy (GITHUB_TOKEN env) = true ->
  method req = js "POST" ->
  JSON_parse (body req) = Some b ->
  snd (run (persist env req)) = [posted_write env b].
Proof.
  intros HT HM HB.
  rewrite persist_post by assumption.
  unfold run, try_catch, bind at 1; rewrite HB; cbn [of_option ret].
  unfold bind; rewrite putFile_run; fold (posted_write env b).
  destruct (github env (posted_write env b)) as [|st text]; [reflexivity|].
  destruct (negb (ok_status st)); cbn [f_error].
  - destruct (error_truthy (Some text)); [|reflexivity].
    cbn [f_status]; unfold new_Response.
    destruct (valid_status (status_or_500 st)); reflexivity.
  - destruct (JSON_parse text) as [json|]; [|reflexivity].
    destruct (is_nullish json); reflexivity.
Qed.

(** C10 (amended). When the server credential is configured, a [POST] whose
    body is JSON but whose [problems] is not an array is not rejected: the
    handler makes one call to the service, a write whose content is the
    serialised empty array, and when the service answers it with a success
    status and a JSON document other than [null], the response is 200 with
    [{ok: true, sha}], [sha] being the hash the service returned. For the
    document [null] the handler answers 400 with [{error: 'Bad request'}],
    after the write. *)
Theorem persist_non_array_problems (env : PersistEnv) (req : Request) (b : JsVal) :
  env_truthy (GITHUB_TOKEN env) = true ->
  method req = js "POST" ->
  JSON_parse (body req) = Some b ->
  isArray (get b (js "problems")) = false ->
  snd (run (persist env req)) = [posted_write env b]
  /\ gh_method (posted_write env b) = js "PUT"
  /\ written_content (posted_write env b) = Some (js "[]")
  /\ forall st text json,
       github env (posted_write env b) = Reply st text ->
       ok_status st = true ->
       JSON_parse text = Some json ->
       fst (run (persist env req))
       = Some (if is_nullish json
               then json_response 400 [("error", JStr (js "Bad request"))]
               else json_response 200 [("ok", JBool true);
                                       ("sha", get (get json (js "content")) (js "sha"))]).
Proof.
  intros HT HM HB HA.
  split; [now apply persist_post_single_call|].
  split; [reflexivity|].
  split.
  { unfold written_content, posted_write, posted_problems; rewrite HA.
    unfold write_request; cbn [gh_body].
    destruct (truthy (or_else (get b (js "sha")) JUndefined)).
    - rewrite get_set_other by reflexivity. reflexivity.
    - reflexivity. }
  intros st text json HR HS HJ.
  rewrite persist_post by assumption.
  unfold run, try_catch, bind at 1; rewrite HB; cbn [of_option ret].
  unfold bind; rewrite putFile_run; fold (posted_write env b).
  rewrite HR, HS; cbn [negb]; rewrite HJ.
  destruct (is_nullish json); reflexivity.
Qed.

Lemma persist_non_array_problems_witness :
  let env := persist_env (Some (js "ghp_token"))
               (Reply 200 (js "{" ++ q "content" ++ js ":{" ++ q "sha" ++ js ":" ++ q "9fceb02" ++ js "}}")) in
  let req := request "POST" (js "{" ++ q "problems" ++ js ":" ++ q "none" ++ js "}") in
  let b := obj [("problems", JStr (js "none"))] in
  snd (run (persist env req)) = [posted_write env b]
  /\ gh_method (posted_write env b) = js "PUT"
  /\ written_content (posted_write env b) = Some (js "[]")
  /\ forall st text json,
       github env (posted_write env b) = Reply st text ->
       ok_status st = true ->
       JSON_parse text = Some json ->
       fst (run (persist env req))
       = Some (if is_nullish json
               then json_response 400 [("error", JStr (js "Bad request"))]
               else json_response 200 [("ok", JBool true);
                                       ("sha", get (get json (js "content")) (js "sha"))]).
Proof.
  cbv zeta.
  apply (persist_non_array_problems
           (persist_env (Some (js "ghp_token"))
              (Reply 200 (js "{" ++ q "content" ++ js ":{" ++ q "sha" ++ js ":" ++ q "9fceb02" ++ js "}}")))
           (request "POST" (js "{" ++ q "problems" ++ js ":" ++ q "none" ++ js "}"))
           (obj [("problems", JStr (js "none"))])); reflexivity.
Defined.

(** C10 as stated fails: without the server credential the request is
    rejected with status 500 and nothing is written. *)
Lemma persist_non_array_problems_counterexample :
  let env := persist_env None (Reply 200 (js "{}")) in
  let req := request "POST" (js "{" ++ q "problems" ++ js ":" ++ q "none" ++ js "}") in
  JSON_parse (body req) = Some (obj [("problems", JStr (js "none"))])
  /\ run (persist env req)
     = (Some (json_response 500 [("error", JStr (js "Missing GITHUB_TOKEN"))]), []).
Proof. cbv zeta; split; vm_compute; reflexivity. Qed.

(** The reply [null] to a write: the file is written, and the handler
    answers 400. *)
Example persist_null_document :
  let env := persist_env (Some (js "ghp_token")) (Reply 200 (js "null")) in
  let req := request "POST" (js "{}") in
  run (persist env req)
  = (Some (json_response 400 [("error", JStr (js "Bad request"))]),
     [posted_write env (obj [])]).
Proof. cbv zeta; vm_compute; reflexivity. Qed.

Lemma getFile_run (env : PersistEnv) (t : Target) (log : list GhRequest) :
  getFile env t log
  = match github env (read_request t) with
    | NetworkError => (None, log ++ [read_request t])
    | Reply st text =>
        if (st =? 404)%Z then
          (Some {| f_status := 404; f_error := None; f_content := None; f_sha := JUndefined |},
           log ++ [read_request t])
        else if negb (ok_status st) then
          (Some {| f_status := st; f_error := Some text; f_content := None; f_sha := JUndefined |},
           log ++ [read_request t])
        else
          match JSON_parse text with
          | None => (None, log ++ [read_request t])
          | Some json =>
              if is_nullish json then (None, log ++ [read_request t])
              else
                match and_then (String_of (or_else (get json (js "content")) (JStr (js ""))))
                        fromBase64 with
                | Some content =>
                    (Some {| f_status := 200; f_error := None; f_content := Some content;
                             f_sha := get json (js "sha") |}, log ++ [read_request t])
                | None => (None, log ++ [read_request t])
                end
          end
    end.
Proof.
  unfold getFile, bind, gh.
  destruct (github env (read_request t)) as [|st text]; [reflexivity|].
  destruct (st =? 404)%Z; [reflexivity|].
  destruct (negb (ok_status st)); [reflexivity|].
  unfold of_option; destruct (JSON_parse text) as [json|]; [|reflexivity].
  unfold ret, throw; destruct (is_nullish json); [reflexivity|].
  destruct (String_of _) as [b64|]; [|reflexivity]; cbn [and_then].
  destruct (fromBase64 b64); reflexivity.
Qed.

(** C9. When the credential is configured and the service answers the read
    with a success status and a JSON document whose [content] is base64 for
    a text that is not JSON, the [GET] handler answers 200 with
    [{problems: [], sha}], the [sha] being the one of the document: the read
    degrades to the empty collection. One call was made. *)
Theorem persist_get_corrupt_file (env : PersistEnv) (req : Request)
        (st : Z) (text : jstring) (json : JsVal) (b64 content : jstring) :
  env_truthy (GITHUB_TOKEN env) = true ->
  method req = js "GET" ->
  github env (read_request (target env)) = Reply st text ->
  ok_status st = true ->
  JSON_parse text = Some json -> is_nullish json = false ->
  String_of (or_else (get json (js "content")) (JStr (js ""))) = Some b64 ->
  fromBase64 b64 = Some content ->
  JSON_parse content = None ->
  run (persist env req)
  = (Some (json_response 200 [("problems", JArr []); ("sha", get json (js "sha"))]),
     [read_request (target env)]).
Proof.
  intros HT HM HR HO HJ HN HS HC HP.
  rewrite persist_get by assumption.
  unfold run, bind; rewrite getFile_run, HR.
  assert (N4 : (st =? 404)%Z = false).
  { unfold ok_status in HO; apply andb_true_iff in HO as [_ HO].
    apply Z.leb_le in HO; apply Z.eqb_neq; lia. }
  rewrite N4, HO; cbn [negb].
  rewrite HJ, HN, HS; cbn [and_then]; rewrite HC.
  cbn [f_status f_error f_content f_sha error_truthy env_truthy].
  change (200 =? 404)%Z with false; cbv iota.
  destruct content as [|c content]; cbn [env_truthy env_value].
  - reflexivity.
  - now rewrite HP.
Qed.

Lemma persist_get_corrupt_file_witness :
  let reply := js "{" ++ q "content" ++ js ":" ++ q "bm90IGpzb24=" ++ js ","
               ++ q "sha" ++ js ":" ++ q "3d21ec5" ++ js "}" in
  run (persist (persist_env (Some (js "ghp_token")) (Reply 200 reply)) (request "GET" []))
  = (Some (json_response 200 [("problems", JArr []); ("sha", JStr (js "3d21ec5"))]),
     [read_request (target (persist_env (Some (js "ghp_token")) (Reply 200 reply)))]).
Proof.
  cbv zeta.
  apply (persist_get_corrupt_file
           (persist_env (Some (js "ghp_token"))
              (Reply 200 (js "{" ++ q "content" ++ js ":" ++ q "bm90IGpzb24=" ++ js ","
                          ++ q "sha" ++ js ":" ++ q "3d21ec5" ++ js "}")))
           (request "GET" []) 200
           (js "{" ++ q "content" ++ js ":" ++ q "bm90IGpzb24=" ++ js ","
            ++ q "sha" ++ js ":" ++ q "3d21ec5" ++ js "}")
           (obj [("content", JStr (js "bm90IGpzb24=")); ("sha", JStr (js "3d21ec5"))])
           (js "bm90IGpzb24=") (js "not json")); reflexivity.
Defined.

(** A unit is a given lower-case letter up to case. *)
Lemma lower_ascii_letter (c l : N) :
  (97 <= l <= 122)%N -> (lower_ascii c = l <-> c = l \/ c = l - 32)%N.
Proof.
  intros HL; unfold lower_ascii.
  destruct ((65 <=? c) && (c <=? 90))%N eqn:E.
  - apply andb_true_iff in E as [E1 E2]; apply N.leb_le in E1, E2; lia.
  - apply andb_false_iff in E as [E|E]; [apply N.leb_gt in E|apply N.leb_gt in E]; lia.
Qed.

Lemma starts_with_sha (s : jstring) :
  starts_with_ci (js "sha") s = true
  <-> exists x y z b, s = x :: y :: z :: b
        /\ (x = 115 \/ x = 83)%N /\ (y = 104 \/ y = 72)%N /\ (z = 97 \/ z = 65)%N.
Proof.
  change (js "sha") with [115; 104; 97]%N.
  assert (L : forall c l, (97 <= l <= 122)%N ->
                (l =? lower_ascii c)%N = true <-> (c = l \/ c = l - 32)%N).
  { intros c l HL; rewrite N.eqb_eq; split.
    - intros E; now apply lower_ascii_letter.
    - intros E; symmetry; now apply lower_ascii_letter. }
  split.
  - destruct s as [|x [|y [|z b]]]; cbn [starts_with_ci]; try discriminate;
      try (rewrite ?andb_false_r; discriminate).
    rewrite andb_true_r; intros H.
    apply andb_true_iff in H as [H1 H]; apply andb_true_iff in H as [H2 H3].
    apply L in H1, H2, H3; try lia.
    exists x, y, z, b; repeat split; assumption.
  - intros (x & y & z & b & -> & H1 & H2 & H3); cbn [starts_with_ci].
    rewrite andb_true_r.
    apply andb_true_iff; split; [|apply andb_true_iff; split]; apply L; try lia; assumption.
Qed.

(** [test_sha] is the test of the pattern [/sha/i]. *)
Lemma test_sha_mentions (t : jstring) : test_sha t = true <-> mentions_sha t.
Proof.
  unfold mentions_sha; induction t as [|c t IH].
  - split; [discriminate|].
    intros (a & x & y & z & b & E & _); destruct a; discriminate.
  - cbn [test_sha]; rewrite orb_true_iff, starts_with_sha, IH; split.
    + intros [(x & y & z & b & E & H)|(a & x & y & z & b & E & H)].
      * exists [], x, y, z, b; split; [exact E|exact H].
      * exists (c :: a), x, y, z, b; split; [now rewrite E|exact H].
    + intros (a & x & y & z & b & E & H); destruct a as [|c' a].
      * left; exists x, y, z, b; split; [exact E|exact H].
      * right; injection E as _ E; exists a, x, y, z, b; split; [exact E|exact H].
Qed.

(** X1. What the [POST] handler does with a failed write whose error text is
    not empty and whose status a response can carry (within 200..599 and not
    204, 205 or 304): it passes the status and the text on, flags a conflict
    exactly for the statuses 409 and 412 and for a text that holds the
    letters s, h, a in a row, in either case, and makes no second call. *)
Lemma persist_write_error (env : PersistEnv) (req : Request) (b : JsVal)
      (st : Z) (text : jstring) :
  env_truthy (GITHUB_TOKEN env) = true ->
  method req = js "POST" ->
  JSON_parse (body req) = Some b ->
  github env (posted_write env b) = Reply st text ->
  ok_status st = false -> valid_status st = true -> text <> [] ->
  exists conflict : bool,
    run (persist env req)
    = (Some (json_response st [("error", JStr text); ("conflict", JBool conflict)]),
       [posted_write env b])
    /\ (conflict = true <-> st = 409%Z \/ st = 412%Z \/ mentions_sha text).
Proof.
  intros HT HM HB HR HS HV HE.
  exists ((st =? 409)%Z || (st =? 412)%Z || test_sha text); split.
  - rewrite persist_post by assumption.
    unfold run, try_catch, bind at 1; rewrite HB; cbn [of_option ret].
    unfold bind; rewrite putFile_run; fold (posted_write env b).
    rewrite HR, HS; cbn [negb f_error f_status error_truthy env_value].
    destruct text as [|c text]; [contradiction|]; cbn [env_truthy].
    assert (H0 : status_or_500 st = st).
    { unfold status_or_500; destruct (Z.eqb_spec st 0) as [->|]; [discriminate|reflexivity]. }
    rewrite H0; unfold new_Response; rewrite HV.
    reflexivity.
  - rewrite !orb_true_iff, !Z.eqb_eq, test_sha_mentions; tauto.
Qed.

Lemma persist_write_error_witness :
  let env := persist_env (Some (js "ghp_token")) (Reply 422 (js "Invalid request: SHA missing")) in
  let req := request "POST" (js "{" ++ q "problems" ++ js ":[]}") in
  run (persist env req)
  = (Some (json_response 422
             [("error", JStr (js "Invalid request: SHA missing")); ("conflict", JBool true)]),
     [posted_write env (obj [("problems", JArr [])])]).
Proof.
  cbv zeta.
  destruct (persist_write_error
              (persist_env (Some (js "ghp_token")) (Reply 422 (js "Invalid request: SHA missing")))
              (request "POST" (js "{" ++ q "problems" ++ js ":[]}"))
              (obj [("problems", JArr [])]) 422 (js "Invalid request: SHA missing")
              eq_refl eq_refl eq_refl eq_refl eq_refl eq_refl ltac:(discriminate))
    as (conflict & E & C).
  assert (T : conflict = true).
  { apply C; right; right.
    exists (js "Invalid request: "), 83%N, 72%N, 65%N, (js " missing").
    repeat split; auto. }
  rewrite E, T; reflexivity.
Defined.

(** C3, the failing input. The service refuses the write with status 500 and
    an empty body; [putFile] returns [{status: 500, error: ''}], the handler
    finds the empty text falsy and answers 200 with [{ok: true}] (the [sha]
    is [undefined]), as for a write that succeeded. *)
Lemma persist_write_error_empty_text :
  let env := persist_env (Some (js "ghp_token")) (Reply 500 []) in
  let req := request "POST" (js "{" ++ q "problems" ++ js ":[]}") in
  putFile env (target env) (JStr (js "m")) (js "[]") JUndefined []
  = (Some {| f_status := 500; f_error := Some []; f_content := None; f_sha := JUndefined |},
     [write_request (target env) (JStr (js "m")) (js "[]") JUndefined])
  /\ fst (run (persist env req))
     = Some (json_response 200 [("ok", JBool true); ("sha", JUndefined)])
  /\ length (snd (run (persist env req))) = 1%nat.
Proof. cbv zeta; repeat split; vm_compute; reflexivity. Qed.

(** ** The generation endpoint *)

Lemma pow10_pos (d : nat) : (0 < pow10 d)%Z.
Proof. unfold pow10; apply Z.pow_pos_nonneg; lia. Qed.

(** Clamping works on every number but [NaN]. *)
Lemma clamp_between (lo hi : Z) (x : JsNum) :
  (lo <= hi)%Z -> x <> NaN ->
  num_between lo hi (clamp lo hi x) = true.
Proof.
  intros LH NN; unfold clamp.
  assert (P1 : pow10 0 = 1%Z) by reflexivity.
  destruct x as [|[|]|m d]; [contradiction| | |].
  - change (Math_min (Fin hi 0) (Inf true)) with (Inf true).
    change (Math_max (Fin lo 0) (Inf true)) with (Fin lo 0).
    unfold num_between; rewrite P1.
    apply andb_true_iff; split; apply Z.leb_le; lia.
  - change (Math_min (Fin hi 0) (Inf false)) with (Fin hi 0).
    unfold Math_max, num_ltb; rewrite P1.
    destruct (lo * 1 <? hi * 1)%Z eqn:E; unfold num_between; rewrite P1;
      apply andb_true_iff; split; apply Z.leb_le; lia.
  - assert (PD := pow10_pos d).
    unfold Math_min, num_ltb, Math_max; rewrite P1.
    destruct (m * 1 <? hi * pow10 d)%Z eqn:E1.
    + apply Z.ltb_lt in E1.
      unfold num_ltb; rewrite P1.
      destruct (lo * pow10 d <? m * 1)%Z eqn:E2; unfold num_between.
      * apply Z.ltb_lt in E2. apply andb_true_iff; split; apply Z.leb_le; lia.
      * apply Z.ltb_ge in E2. rewrite P1. apply andb_true_iff; split; apply Z.leb_le; lia.
    + unfold num_ltb; rewrite P1.
      destruct (lo * 1 <? hi * 1)%Z eqn:E2; unfold num_between; rewrite P1;
        apply andb_true_iff; split; apply Z.leb_le; lia.
Qed.
(** X2. The grade of a request is clamped into 1..6 whenever its conversion
    returns a number other than [NaN] (1 stands in for a falsy grade). *)
Lemma effective_grade_clamped (b : JsVal) (n : JsNum) :
  Number_of (or_else (get b (js "grade")) (JNum (Fin 1 0))) = Some n -> n <> NaN ->
  exists g, effective_grade b = Some g /\ num_between 1 6 g = true.
Proof.
  intros E H; unfold effective_grade; rewrite E; cbn [and_then].
  eexists; split; [reflexivity|apply clamp_between; [lia|exact H]].
Qed.

Lemma effective_grade_clamped_witness :
  exists g, effective_grade (obj [("grade", JStr (js "9"))]) = Some g
            /\ num_between 1 6 g = true.
Proof.
  apply (effective_grade_clamped (obj [("grade", JStr (js "9"))]) (Fin 9 0));
    [reflexivity|discriminate].
Defined.

(** X3. The count of a request is clamped into 1..10 whenever its conversion
    returns a number other than [NaN] (1 stands in for a falsy count). *)
Lemma effective_count_clamped (b : JsVal) (n : JsNum) :
  Number_of (or_else (get b (js "count")) (JNum (Fin 1 0))) = Some n -> n <> NaN ->
  exists c, effective_count b = Some c /\ num_between 1 10 c = true.
Proof.
  intros E H; unfold effective_count; rewrite E; cbn [and_then].
  eexists; split; [reflexivity|apply clamp_between; [lia|exact H]].
Qed.

Lemma effective_count_clamped_witness :
  exists c, effective_count (obj []) = Some c /\ num_between 1 10 c = true.
Proof.
  apply (effective_count_clamped (obj []) (Fin 1 0)); [reflexivity|discriminate].
Defined.

(** X4. The number of problems the prompt asks for is always within 1..10: a
    [NaN] count is falsy and gives way to 1. *)
Lemma buildPrompt_n_clamped (g : JsNum) (ty th : jstring) (c : JsNum) :
  num_between 1 10 (prompt_n (buildPrompt g ty th c)) = true.
Proof.
  unfold buildPrompt; cbn [prompt_n]; apply clamp_between; [lia|].
  unfold or_else; destruct c as [|n|m d]; cbn; try discriminate.
  destruct (m =? 0)%Z; discriminate.
Qed.

Lemma length_map_indexed (A B : Type) (f : nat -> A -> option B) (i : nat)
      (l : list A) (l' : list B) :
  map_indexed f i l = Some l' -> length l' = length l.
Proof.
  revert i l'; induction l as [|x l IH]; intros i l' H; cbn [map_indexed] in H.
  - now injection H as <-.
  - returned H; injection H as <-; cbn [length]; f_equal; eauto.
Qed.

Lemma length_slice_to (A : Type) (l : list A) (m : Z) (d : nat) :
  (0 <= m)%Z ->
  (Z.of_nat (length (slice_to l (Fin m d))) * pow10 d <= m)%Z.
Proof.
  intros HM; assert (PD := pow10_pos d).
  unfold slice_to, ToIntegerOrInfinity.
  assert (Q : (0 <= Z.quot m (pow10 d))%Z) by (apply Z.quot_pos; lia).
  rewrite <- (Z2Nat.id (Z.quot m (pow10 d))) by exact Q.
  rewrite slice_from_0, length_firstn.
  assert (B : (Z.quot m (pow10 d) * pow10 d <= m)%Z).
  { rewrite Z.mul_comm; apply Z.mul_quot_le; lia. }
  assert (Z.of_nat (Nat.min (Z.to_nat (Z.quot m (pow10 d))) (length l)) <= Z.quot m (pow10 d))%Z
    by lia.
  nia.
Qed.

(** X5. A response of status 200 carries no more problems than the count of
    the request, when that count is a number. *)
Lemma generate_length {engine : Engine} (env : GenEnv) (b : JsVal) (resp : Response)
      (m : Z) (d : nat) :
  generate_body env b = Some resp -> status resp = 200%Z ->
  effective_count b = Some (Fin m d) -> num_between 1 10 (Fin m d) = true ->
  exists first arr,
    payload resp = Json (obj [("problem", first); ("problems", JArr arr)])
    /\ (Z.of_nat (length arr) * pow10 d <= m)%Z.
Proof.
  intros H HS EC B; unfold generate_body in H.
  rewrite EC in H; returned H.
  match type of H with
  | (if ?c then _ else _) = _ => destruct c
  end; [injection H as <-; discriminate HS|].
  returned H; injection H as <-.
  eexists _, _; split; [reflexivity|].
  rewrite (length_map_indexed _ _ _ _ _ _ E2).
  unfold num_between in B; apply andb_true_iff in B as [B1 _]; apply Z.leb_le in B1.
  assert (PD := pow10_pos d).
  apply length_slice_to; nia.
Qed.

Lemma generate_length_witness :
  let env := gen_env (Some (js "key")) (model_reply (js "[{},{},{}]")) in
  let r := normal_record (engine := latin1) sample_entropy (obj [])
             {| grade := Fin 1 0; type := js "PPT" |} in
  exists first arr,
    payload (json_response 200 [("problem", r); ("problems", JArr [r; r])])
    = Json (obj [("problem", first); ("problems", JArr arr)])
    /\ (Z.of_nat (length arr) * pow10 0 <= 2)%Z.
Proof.
  cbv zeta.
  apply (generate_length (engine := latin1)
           (gen_env (Some (js "key")) (model_reply (js "[{},{},{}]")))
           (obj [("count", JNum (Fin 2 0))])); vm_compute; reflexivity.
Defined.

(** C6, the failing input. A request body whose [grade] and [count] are
    strings that are no numerals: both conversions give [NaN], which
    [Math.min] and [Math.max] pass on, so the grade the handler uses is [NaN],
    outside 1..6, the count is [NaN], outside 1..10, the record of the
    response has [NaN] as grade and the response has no problem although the
    model returned one. *)
Lemma generate_grade_not_clamped :
  let b := obj [("grade", JStr (js "abc")); ("count", JStr (js "many"))] in
  let req := request "POST" (js "{" ++ q "grade" ++ js ":" ++ q "abc" ++ js ","
                             ++ q "count" ++ js ":" ++ q "many" ++ js "}") in
  let req1 := request "POST" (js "{" ++ q "grade" ++ js ":" ++ q "abc" ++ js "}") in
  let env := gen_env (Some (js "key")) (model_reply (js "[{}]")) in
  JSON_parse (body req) = Some b
  /\ effective_grade b = Some NaN /\ num_between 1 6 NaN = false
  /\ effective_count b = Some NaN /\ num_between 1 10 NaN = false
  /\ generate (engine := latin1) env req = json_response 200 [("problem", JNull); ("problems", JArr [])]
  /\ exists r, generate (engine := latin1) env req1 = json_response 200 [("problem", r); ("problems", JArr [r])]
               /\ get r (js "grade") = JNum NaN.
Proof.
  cbv zeta; repeat split; try (vm_compute; reflexivity).
  eexists; split; vm_compute; reflexivity.
Qed.

(** ** JSON: what is written is read back *)

Lemma dropwhile_app_stop (f : N -> bool) (a : jstring) (c : N) (b : jstring) :
  f c = false -> dropwhile f (a ++ c :: b) = dropwhile f a ++ c :: b.
Proof.
  intros H; induction a as [|x a IH]; simpl; [now rewrite H|].
  destruct (f x); [exact IH|reflexivity].
Qed.

Lemma takewhile_stop (f : N -> bool) (a b : jstring) :
  forallb f a = true -> stops f b -> takewhile f (a ++ b) = a.
Proof.
  intros HA HB; induction a as [|x a IH]; simpl in *.
  - destruct b as [|c b]; simpl in *; [reflexivity|now rewrite HB].
  - apply andb_true_iff in HA as [H1 H2]; rewrite H1; f_equal; auto.
Qed.

Lemma dropwhile_stop (f : N -> bool) (a b : jstring) :
  forallb f a = true -> stops f b -> dropwhile f (a ++ b) = b.
Proof.
  intros HA HB; induction a as [|x a IH]; simpl in *.
  - destruct b as [|c b]; simpl in *; [reflexivity|now rewrite HB].
  - apply andb_true_iff in HA as [H1 H2]; rewrite H1; auto.
Qed.

(** *** Digits *)

Lemma uint_codes_digits (u : Decimal.uint) : forallb is_digit (uint_codes u) = true.
Proof. induction u; simpl; auto. Qed.

Lemma digits_of_N_digits (n : N) : forallb is_digit (digits_of_N n) = true.
Proof. apply uint_codes_digits. Qed.

Ltac eval_digit :=
  match goal with
  | |- context [digit_value ?c] =>
      let v := eval vm_compute in (digit_value c) in
      change (digit_value c) with v
  end.

Lemma fold_radix_acc (u : Decimal.uint) (acc : positive) :
  fold_left (fun a c => (10 * a + digit_value c)%N) (uint_codes u) (Npos acc)
  = Npos (Pos.of_uint_acc u acc).
Proof.
  revert acc; induction u as [|u IHu|u IHu|u IHu|u IHu|u IHu|u IHu|u IHu|u IHu|u IHu|u IHu];
    intros acc; cbn [uint_codes fold_left Pos.of_uint_acc]; [reflexivity| ..];
    rewrite <- IHu; f_equal; eval_digit; lia.
Qed.

Lemma N_of_digits_uint (u : Decimal.uint) : N_of_digits (uint_codes u) = N.of_uint u.
Proof.
  unfold N_of_digits, N_of_radix, N.of_uint.
  induction u as [|u IHu|u IHu|u IHu|u IHu|u IHu|u IHu|u IHu|u IHu|u IHu|u IHu];
    cbn [uint_codes fold_left Pos.of_uint]; [reflexivity|exact IHu| ..];
    eval_digit; apply fold_radix_acc.
Qed.

Lemma N_of_digits_of_N (n : N) : N_of_digits (digits_of_N n) = n.
Proof.
  unfold digits_of_N; rewrite N_of_digits_uint.
  apply DecimalN.Unsigned.of_to.
Qed.

Lemma digits_of_N_nonempty (n : N) : digits_of_N n <> [].
Proof.
  unfold digits_of_N.
  assert (H : N.to_uint n <> Decimal.Nil).
  { destruct n; [discriminate|apply DecimalPos.Unsigned.to_uint_nonnil]. }
  destruct (N.to_uint n); [contradiction|discriminate ..].
Qed.

(** The digits of a number start with a zero only when the number is zero. *)
Lemma digits_of_N_no_leading_zero (n : N) (r : jstring) :
  digits_of_N n = 48%N :: r -> r = [].
Proof.
  unfold digits_of_N; intros H.
  assert (U : Decimal.unorm (N.to_uint n) = N.to_uint n).
  { rewrite <- DecimalN.Unsigned.to_of; now rewrite DecimalN.Unsigned.of_to. }
  destruct (N.to_uint n) as [|u| | | | | | | | |] eqn:E; try discriminate.
  injection H as H.
  destruct u as [|u'|u'|u'|u'|u'|u'|u'|u'|u'|u'] eqn:EU; [now subst r|exfalso ..];
    rewrite DecimalFacts.unorm_D0 in U;
    assert (L := DecimalFacts.nb_digits_unorm u);
    rewrite <- EU in U;
    (assert (NN : u <> Decimal.Nil) by (rewrite EU; discriminate));
    specialize (L NN); rewrite U in L; simpl in L; lia.
Qed.

(** *** Strings *)

Lemma hex_char_value (d : N) : (d < 16)%N -> digit_value (hex_char d) = d.
Proof.
  intros H; unfold hex_char, digit_value, is_digit.
  destruct (d <? 10)%N eqn:E; b2p.
  - replace ((48 <=? 48 + d) && (48 + d <=? 57))%N with true; [lia|].
    symmetry; apply andb_true_iff; split; apply N.leb_le; lia.
  - replace ((48 <=? 87 + d) && (87 + d <=? 57))%N with false.
    + replace ((97 <=? 87 + d) && (87 + d <=? 102))%N with true; [lia|].
      symmetry; apply andb_true_iff; split; apply N.leb_le; lia.
    + symmetry; apply andb_false_iff; right; apply N.leb_gt; lia.
Qed.

Lemma hex_char_is_hex (d : N) : (d < 16)%N -> is_hex (hex_char d) = true.
Proof. intros H; unfold is_hex; rewrite hex_char_value by exact H; now apply N.ltb_lt. Qed.

Lemma mod16_lt (n : N) : (n mod 16 < 16)%N.
Proof. apply N.mod_lt; discriminate. Qed.

Lemma hex4_value (c : N) :
  (c < 65536)%N ->
  (16 * (16 * (16 * (16 * 0 + c / 4096 mod 16) + c / 256 mod 16) + c / 16 mod 16) + c mod 16 = c)%N.
Proof.
  intros H.
  assert (E1 := N.div_mod c 16).
  assert (E2 := N.div_mod (c / 16) 16).
  assert (E3 := N.div_mod (c / 16 / 16) 16).
  assert (D2 : (c / 256 = c / 16 / 16)%N) by (now rewrite N.Div0.div_div).
  assert (D3 : (c / 4096 = c / 16 / 16 / 16)%N) by (now rewrite !N.Div0.div_div).
  assert (S3 : (c / 4096 < 16)%N) by (apply N.Div0.div_lt_upper_bound; exact H).
  rewrite (N.mod_small (c / 4096) 16) by exact S3.
  rewrite D2, D3 in *.
  specialize (E1 ltac:(discriminate)); specialize (E2 ltac:(discriminate));
    specialize (E3 ltac:(discriminate)).
  lia.
Qed.

Lemma unicode_escape_parse (c : N) (t : jstring) :
  (c < 65536)%N -> parse_string (unicode_escape c ++ t) = push c (parse_string t).
Proof.
  intros H; unfold unicode_escape.
  cbn [app parse_string].
  change (92 =? 34)%N with false; change (92 =? 92)%N with true.
  change (117 =? 34)%N with false; change (117 =? 92)%N with false;
    change (117 =? 47)%N with false; change (117 =? 98)%N with false;
    change (117 =? 102)%N with false; change (117 =? 110)%N with false;
    change (117 =? 114)%N with false; change (117 =? 116)%N with false;
    change (117 =? 117)%N with true; cbv iota.
  rewrite !hex_char_is_hex by apply mod16_lt; cbn [andb].
  unfold N_of_radix; cbn [fold_left].
  rewrite !hex_char_value by apply mod16_lt.
  rewrite hex4_value by exact H.
  reflexivity.
Qed.

Lemma parse_string_plain (c : N) (t : jstring) :
  (c =? 34)%N = false -> (c =? 92)%N = false -> (c <? 32)%N = false ->
  parse_string (c :: t) = push c (parse_string t).
Proof. intros E1 E2 E3; cbn [parse_string]; now rewrite E1, E2, E3. Qed.

Lemma quote_unit_parse (c : N) (t : jstring) :
  parse_string (quote_unit c ++ t) = push c (parse_string t).
Proof.
  unfold quote_unit.
  destruct (c =? 8)%N eqn:E8; [apply N.eqb_eq in E8; subst; reflexivity|].
  destruct (c =? 9)%N eqn:E9; [apply N.eqb_eq in E9; subst; reflexivity|].
  destruct (c =? 10)%N eqn:E10; [apply N.eqb_eq in E10; subst; reflexivity|].
  destruct (c =? 12)%N eqn:E12; [apply N.eqb_eq in E12; subst; reflexivity|].
  destruct (c =? 13)%N eqn:E13; [apply N.eqb_eq in E13; subst; reflexivity|].
  destruct (c =? 34)%N eqn:E34; [apply N.eqb_eq in E34; subst; reflexivity|].
  destruct (c =? 92)%N eqn:E92; [apply N.eqb_eq in E92; subst; reflexivity|].
  destruct ((c <? 32)%N || is_high_surrogate c || is_low_surrogate c) eqn:EU.
  - apply unicode_escape_parse.
    unfold is_high_surrogate, is_low_surrogate in EU; b2p; lia.
  - apply orb_false_iff in EU as [EU _]; apply orb_false_iff in EU as [EU _].
    now apply parse_string_plain.
Qed.

Lemma surrogate_plain (c : N) :
  is_high_surrogate c || is_low_surrogate c = true ->
  (c =? 34)%N = false /\ (c =? 92)%N = false /\ (c <? 32)%N = false.
Proof.
  unfold is_high_surrogate, is_low_surrogate; intros H.
  repeat split; [apply N.eqb_neq|apply N.eqb_neq|apply N.ltb_ge]; b2p; lia.
Qed.

Lemma quote_units_cons2 (c c2 : N) (s : jstring) :
  quote_units (c :: c2 :: s)
  = if is_high_surrogate c && is_low_surrogate c2 then c :: c2 :: quote_units s
    else quote_unit c ++ quote_units (c2 :: s).
Proof. reflexivity. Qed.

Lemma quote_units_parse_pair (rest s : jstring) :
  parse_string (quote_units s ++ 34%N :: rest) = Some (s, rest)
  /\ forall c, parse_string (quote_units (c :: s) ++ 34%N :: rest) = Some (c :: s, rest).
Proof.
  induction s as [|c2 s [IH1 IH2]].
  - split; [reflexivity|].
    intros c; cbn [quote_units]; rewrite quote_unit_parse; reflexivity.
  - split; [apply IH2|].
    intros c; rewrite quote_units_cons2.
    destruct (is_high_surrogate c && is_low_surrogate c2) eqn:E.
    + apply andb_true_iff in E as [EH EL].
      destruct (surrogate_plain c) as (A1 & A2 & A3); [now rewrite EH|].
      destruct (surrogate_plain c2) as (B1 & B2 & B3); [now rewrite EL, orb_true_r|].
      cbn [app]; rewrite (parse_string_plain c _ A1 A2 A3), (parse_string_plain c2 _ B1 B2 B3).
      now rewrite IH1.
    + rewrite <- app_assoc, quote_unit_parse.
      now rewrite (IH2 c2).
Qed.

(** The text of a string literal after its opening quote reads back as the
    string, whatever its code units. *)
Lemma quote_units_parse (s rest : jstring) :
  parse_string (quote_units s ++ 34%N :: rest) = Some (s, rest).
Proof. apply quote_units_parse_pair. Qed.

(** *** Numbers *)

Lemma rev_repeat_same (A : Type) (x : A) (k : nat) : rev (repeat x k) = repeat x k.
Proof.
  induction k as [|k IH]; [reflexivity|].
  cbn [repeat rev]; rewrite IH; symmetry; apply repeat_cons.
Qed.

Lemma dropwhile_zeros (l : jstring) :
  exists k, l = repeat 48%N k ++ dropwhile (N.eqb 48) l
            /\ (length (dropwhile (N.eqb 48) l) + k = length l)%nat.
Proof.
  induction l as [|x l (k & E & L)]; [exists O; split; reflexivity|].
  cbn [dropwhile]; destruct (48 =? x)%N eqn:Q.
  - apply N.eqb_eq in Q; subst x; exists (S k); cbn [repeat app length]; split.
    + now rewrite <- E.
    + lia.
  - exists O; split; [reflexivity|cbn [length]; lia].
Qed.

Lemma strip_trailing_zeros_restore (ds : jstring) :
  strip_trailing_zeros ds
  ++ repeat 48%N (length ds - length (strip_trailing_zeros ds)) = ds.
Proof.
  unfold strip_trailing_zeros.
  destruct (dropwhile_zeros (rev ds)) as (k & E & L).
  rewrite length_rev in *.
  replace (length ds - length (dropwhile (N.eqb 48) (rev ds)))%nat with k by lia.
  assert (D : ds = rev (rev ds)) by (symmetry; apply rev_involutive).
  remember (rev ds) as l eqn:El; clear El.
  rewrite D; clear D L.
  set (t := dropwhile (N.eqb 48) l) in *.
  rewrite E at 1.
  now rewrite rev_app_distr, rev_repeat_same.
Qed.

Lemma strip_trailing_zeros_length (ds : jstring) :
  (length (strip_trailing_zeros ds) <= length ds)%nat.
Proof.
  unfold strip_trailing_zeros.
  destruct (dropwhile_zeros (rev ds)) as (k & _ & L).
  rewrite length_rev in *; lia.
Qed.

(** An integer of at most 21 digits prints as its sign and its digits. *)
Lemma Number_toString_integer (m : Z) :
  (length (digits_of_N (Z.abs_N m)) <= 21)%nat ->
  Number_toString (Fin m 0)
  = (if (m <? 0)%Z then [45%N] else []) ++ digits_of_N (Z.abs_N m).
Proof.
  intros L; unfold Number_toString.
  destruct (m =? 0)%Z eqn:Z0; [apply Z.eqb_eq in Z0; subst; reflexivity|].
  f_equal.
  assert (K := strip_trailing_zeros_length (digits_of_N (Z.abs_N m))).
  assert (R := strip_trailing_zeros_restore (digits_of_N (Z.abs_N m))).
  set (ds := digits_of_N (Z.abs_N m)) in *.
  set (s := strip_trailing_zeros ds) in *.
  replace (Z.of_nat (length ds) - Z.of_nat 0)%Z with (Z.of_nat (length ds)) by lia.
  replace ((Z.of_nat (length s) <=? Z.of_nat (length ds))
           && (Z.of_nat (length ds) <=? 21))%Z with true.
  - replace (Z.to_nat (Z.of_nat (length ds) - Z.of_nat (length s)))
      with (length ds - length s)%nat by lia.
    exact R.
  - symmetry; apply andb_true_iff; split; apply Z.leb_le; lia.
Qed.

Lemma stops_number_unit (rest : jstring) :
  stops number_unit rest ->
  stops is_digit rest /\ head_is 46 rest = false
  /\ head_is 101 rest = false /\ head_is 69 rest = false.
Proof.
  destruct rest as [|c rest]; cbn [stops head_is]; [auto|].
  unfold number_unit; intros H; b2p.
  repeat split; try assumption; now apply N.eqb_neq.
Qed.

(** Digits without a leading zero, followed by a text that does not continue
    a number, parse as the integer they write. *)
Lemma parse_number_digits (neg : bool) (ds rest : jstring) :
  ds <> [] -> forallb is_digit ds = true ->
  head_is 48 ds && (1 <? length ds)%nat = false ->
  stops number_unit rest ->
  parse_number ((if neg then [45%N] else []) ++ ds ++ rest)
  = Some (decimal_value neg (N_of_digits ds) 0 0, rest).
Proof.
  intros NE DG LZ ST.
  destruct (stops_number_unit rest ST) as (SD & H46 & H101 & H69).
  assert (HN : head_is 45 ((if neg then [45%N] else []) ++ ds ++ rest) = neg).
  { destruct neg; [reflexivity|].
    destruct ds as [|d ds]; [contradiction|].
    cbn [app head_is]; cbn [forallb] in DG; apply andb_true_iff in DG as [D _].
    unfold is_digit in D; b2p; apply N.eqb_neq; lia. }
  assert (HR : (if neg then tl ((if neg then [45%N] else []) ++ ds ++ rest)
                else (if neg then [45%N] else []) ++ ds ++ rest) = ds ++ rest)
    by (destruct neg; reflexivity).
  unfold parse_number; cbv zeta.
  rewrite HN, HR.
  rewrite (takewhile_stop is_digit ds rest DG SD), (dropwhile_stop is_digit ds rest DG SD).
  rewrite H46, H101, H69; cbn [orb andb app].
  rewrite List.app_nil_r, LZ.
  destruct ds as [|d ds]; [contradiction|]; cbn [is_nil orb length].
  destruct (head_is 45 (tl rest)); reflexivity.
Qed.

Lemma decimal_value_integer (m : Z) :
  decimal_value (m <? 0)%Z (Z.abs_N m) 0 0 = Fin m 0.
Proof.
  unfold decimal_value; cbn [Z.of_nat].
  rewrite N2Z.inj_abs_N.
  change (0 <=? 0 - 0)%Z with true; change (10 ^ (0 - 0))%Z with 1%Z; cbv iota.
  destruct (m <? 0)%Z eqn:E; f_equal; [apply Z.ltb_lt in E|apply Z.ltb_ge in E]; lia.
Qed.

Lemma parse_number_integer (m : Z) (rest : jstring) :
  (length (digits_of_N (Z.abs_N m)) <= 21)%nat ->
  stops number_unit rest ->
  parse_number (Number_toString (Fin m 0) ++ rest) = Some (Fin m 0, rest).
Proof.
  intros L ST.
  rewrite Number_toString_integer by exact L.
  rewrite <- app_assoc, parse_number_digits; try assumption.
  - now rewrite N_of_digits_of_N, decimal_value_integer.
  - apply digits_of_N_nonempty.
  - apply digits_of_N_digits.
  - destruct (digits_of_N (Z.abs_N m)) as [|d ds] eqn:E; [reflexivity|].
    cbn [head_is]; destruct (d =? 48)%N eqn:Q; [|reflexivity].
    apply N.eqb_eq in Q; subst d.
    apply digits_of_N_no_leading_zero in E; subst; reflexivity.
Qed.

(** *** Values *)

Lemma value_start_not_ws (c : N) : value_start c = true -> is_json_ws c = false.
Proof.
  unfold value_start, is_json_ws, is_digit; intros H.
  repeat (apply orb_false_iff; split); apply N.eqb_neq; b2p; lia.
Qed.

Lemma value_start_not_close (c : N) :
  value_start c = true -> (c =? 93)%N = false /\ (c =? 125)%N = false.
Proof.
  unfold value_start, is_digit; intros H.
  split; apply N.eqb_neq; b2p; lia.
Qed.

Lemma skip_ws_start (c : N) (r : jstring) :
  value_start c = true -> skip_ws (c :: r) = c :: r.
Proof. intros H; unfold skip_ws; cbn [dropwhile]; now rewrite value_start_not_ws. Qed.

Lemma delimited_stops (rest : jstring) : delimited rest -> stops number_unit rest.
Proof.
  destruct rest as [|c rest]; cbn [delimited stops]; [auto|].
  unfold delimiter; intros H; b2p; subst; reflexivity.
Qed.

Lemma Number_toString_start (m : Z) :
  (length (digits_of_N (Z.abs_N m)) <= 21)%nat ->
  exists c r, Number_toString (Fin m 0) = c :: r /\ ((c =? 45)%N || is_digit c = true).
Proof.
  intros L; rewrite Number_toString_integer by exact L.
  destruct (m <? 0)%Z; [exists 45%N; eexists; split; reflexivity|].
  assert (D := digits_of_N_digits (Z.abs_N m)).
  assert (NE := digits_of_N_nonempty (Z.abs_N m)).
  destruct (digits_of_N (Z.abs_N m)) as [|c r]; [contradiction|].
  cbn [forallb] in D; apply andb_true_iff in D as [D _].
  exists c, r; split; [reflexivity|now rewrite D, orb_true_r].
Qed.

(** A text that starts with a minus sign or a digit is read as a number. *)
Lemma parse_value_number (n : nat) (c : N) (r : jstring) :
  (c =? 45)%N || is_digit c = true ->
  parse_value (S n) (c :: r)
  = match parse_number (c :: r) with
    | Some (x, rest) => Some (JNum x, rest)
    | None => None
    end.
Proof.
  intros H.
  assert (W : is_json_ws c = false).
  { unfold is_json_ws, is_digit in *;
      repeat (apply orb_false_iff; split); apply N.eqb_neq; b2p; lia. }
  cbn [parse_value]; unfold skip_ws; cbn [dropwhile]; rewrite W.
  replace (c =? 123)%N with false by (symmetry; apply N.eqb_neq; unfold is_digit in H; b2p; lia).
  replace (c =? 91)%N with false by (symmetry; apply N.eqb_neq; unfold is_digit in H; b2p; lia).
  replace (c =? 34)%N with false by (symmetry; apply N.eqb_neq; unfold is_digit in H; b2p; lia).
  cbn [js list_ascii_of_string map starts_with].
  replace (N_of_ascii "t" =? c)%N with false
    by (symmetry; apply N.eqb_neq; unfold is_digit in H; cbn; b2p; lia).
  replace (N_of_ascii "f" =? c)%N with false
    by (symmetry; apply N.eqb_neq; unfold is_digit in H; cbn; b2p; lia).
  replace (N_of_ascii "n" =? c)%N with false
    by (symmetry; apply N.eqb_neq; unfold is_digit in H; cbn; b2p; lia).
  reflexivity.
Qed.

Lemma serialize_array (l : list JsVal) :
  serialize [] [] (JArr l)
  = match l with
    | [] => js "[]"
    | _ => js "[" ++ join (js ",") (map (serialize [] []) l) ++ js "]"
    end.
Proof. destruct l; reflexivity. Qed.

Lemma jsonable_defined (v : JsVal) : jsonable v = true -> is_undefined v = false.
Proof. destruct v; [discriminate|reflexivity ..]. Qed.

Lemma members_all (o : props) :
  forallb (fun kv => jsonable (snd kv)) o = true ->
  flat_map (fun kv => if is_undefined (snd kv) then []
                      else [quote (fst kv) ++ js ":" ++ serialize [] [] (snd kv)]) o
  = map member o.
Proof.
  induction o as [|kv o IH]; [reflexivity|].
  cbn [forallb flat_map map]; intros J; apply andb_true_iff in J as [J1 J2].
  rewrite (jsonable_defined _ J1), IH by exact J2; reflexivity.
Qed.

Lemma serialize_object (o : props) :
  forallb (fun kv => jsonable (snd kv)) o = true ->
  serialize [] [] (JObj o)
  = match o with
    | [] => js "{}"
    | _ => js "{" ++ join (js ",") (map member o) ++ js "}"
    end.
Proof.
  intros J.
  change (serialize [] [] (JObj o))
    with (match flat_map (fun kv => if is_undefined (snd kv) then []
                                    else [quote (fst kv) ++ js ":" ++ serialize [] [] (snd kv)]) o
          with
          | [] => js "{}"
          | _ :: _ => js "{" ++ join (js ",")
                        (flat_map (fun kv => if is_undefined (snd kv) then []
                                             else [quote (fst kv) ++ js ":"
                                                   ++ serialize [] [] (snd kv)]) o)
                      ++ js "}"
          end).
  rewrite members_all by exact J.
  destruct o; reflexivity.
Qed.

Lemma serialize_start (v : JsVal) :
  jsonable v = true ->
  exists c r, serialize [] [] v = c :: r /\ value_start c = true.
Proof.
  destruct v as [| |[|]|[| n |m [|d]]|s|l|o]; cbn [jsonable]; try discriminate; intros J.
  - exists 110%N; eexists; split; reflexivity.
  - exists 116%N; eexists; split; reflexivity.
  - exists 102%N; eexists; split; reflexivity.
  - apply Nat.leb_le in J.
    destruct (Number_toString_start m J) as (c & r & E & S).
    exists c, r; split; [exact E|].
    unfold value_start; apply orb_true_iff in S as [S|S]; rewrite S;
      repeat (rewrite ?orb_true_r, ?orb_true_l); reflexivity.
  - exists 34%N; eexists; split; reflexivity.
  - exists 91%N; rewrite serialize_array; destruct l; eexists; split; reflexivity.
  - apply andb_true_iff in J as [J _].
    exists 123%N; rewrite serialize_object by exact J.
    destruct o; eexists; split; reflexivity.
Qed.

(** The elements of an array, after the opening bracket. *)
Lemma parse_elements_serialize (l : list JsVal) :
  Forall (fun v => jsonable v = true ->
                   forall n rest, (parse_fuel v <= n)%nat -> delimited rest ->
                   parse_value n (serialize [] [] v ++ rest) = Some (v, rest)) l ->
  forallb jsonable l = true -> l <> [] ->
  forall n acc rest, (elements_fuel l <= n)%nat ->
    parse_elements n (join (js ",") (map (serialize [] []) l) ++ js "]" ++ rest) acc
    = Some (JArr (rev acc ++ l), rest).
Proof.
  induction 1 as [|v l HV HL IH]; [congruence|].
  cbn [forallb]; intros J _ n acc rest F; apply andb_true_iff in J as [JV JL].
  cbn [elements_fuel fold_right] in F; fold (elements_fuel l) in F.
  destruct n as [|n]; [lia|].
  cbn [parse_elements map].
  destruct l as [|v' l'].
  - cbn [join map].
    rewrite (HV JV n (js "]" ++ rest)) by (try lia; reflexivity).
    reflexivity.
  - change (join (js ",") (serialize [] [] v :: map (serialize [] []) (v' :: l')))
      with (serialize [] [] v ++ js "," ++ join (js ",") (map (serialize [] []) (v' :: l'))).
    rewrite <- !app_assoc.
    rewrite (HV JV n) by (try lia; reflexivity).
    change (skip_ws (js "," ++ ?x)) with (js "," ++ x).
    cbn [js list_ascii_of_string map app].
    change (N_of_ascii "," =? 44)%N with true; cbv iota.
    etransitivity; [apply (IH JL ltac:(discriminate) n (v :: acc) rest); lia|].
    cbn [rev]; now rewrite <- app_assoc.
Qed.

Lemma set_prop_append (k : jstring) (x : JsVal) (acc : props) :
  array_index k = None -> existsb (jeqb k) (map fst acc) = false ->
  set_prop k x acc = acc ++ [(k, x)].
Proof.
  intros NI; induction acc as [|[k' y] acc IH]; cbn [map fst existsb set_prop app];
    [reflexivity|].
  intros H; apply orb_false_iff in H as [H1 H2].
  rewrite H1; unfold enumerated_before; rewrite NI.
  now rewrite IH.
Qed.

Lemma plain_keys_middle (a : list jstring) (k : jstring) (b : list jstring) :
  plain_keys (a ++ k :: b) = true ->
  array_index k = None /\ existsb (jeqb k) a = false.
Proof.
  induction a as [|x a IH]; cbn [app plain_keys existsb].
  - destruct (array_index k); [discriminate|auto].
  - destruct (array_index x); [discriminate|].
    intros H; apply andb_true_iff in H as [H1 H2].
    destruct (IH H2) as [I1 I2]; split; [exact I1|].
    apply negb_true_iff in H1; rewrite existsb_app in H1.
    apply orb_false_iff in H1 as [_ H1]; cbn [existsb] in H1.
    apply orb_false_iff in H1 as [H1 _].
    now rewrite jeqb_sym, H1.
Qed.

(** Defining members with plain keys, one after the other, appends them. *)
Lemma define_all_plain (o acc : props) :
  plain_keys (map fst (acc ++ o)) = true -> define_all o acc = acc ++ o.
Proof.
  revert acc; induction o as [|[k x] o IH]; intros acc H; cbn [define_all fold_left].
  - now rewrite List.app_nil_r.
  - rewrite map_app in H; cbn [map fst] in H.
    destruct (plain_keys_middle _ _ _ H) as [NI NE].
    cbn [fst snd]; rewrite set_prop_append by assumption.
    fold (define_all o (acc ++ [(k, x)])).
    rewrite IH; [now rewrite <- app_assoc|].
    now rewrite <- app_assoc, map_app.
Qed.

Lemma skip_ws_delimited (tail : jstring) : delimited tail -> skip_ws tail = tail.
Proof.
  destruct tail as [|c tail]; cbn [delimited]; [reflexivity|].
  unfold delimiter; intros H; unfold skip_ws; cbn [dropwhile].
  replace (is_json_ws c) with false; [reflexivity|].
  b2p; subst; reflexivity.
Qed.

(** One member of an object, and what the parser does after it. *)
Lemma parse_members_step (n : nat) (k : jstring) (x : JsVal) (acc : props) (tail : jstring) :
  parse_value n (serialize [] [] x ++ tail) = Some (x, tail) ->
  delimited tail ->
  parse_members (S n) (member (k, x) ++ tail) acc
  = match tail with
    | c :: r4 =>
        if (c =? 44)%N then parse_members n r4 (set_prop k x acc)
        else if (c =? 125)%N then Some (JObj (set_prop k x acc), r4)
        else None
    | [] => None
    end.
Proof.
  intros HV HD.
  replace (member (k, x) ++ tail)
    with (34%N :: quote_units k ++ 34%N :: 58%N :: serialize [] [] x ++ tail)
    by (unfold member, quote; cbn [fst snd js list_ascii_of_string map app];
        rewrite <- !app_assoc; reflexivity).
  cbn [parse_members].
  change (skip_ws (34%N :: ?t)) with (34%N :: t); cbn [head_is tl].
  change (34 =? 34)%N with true; cbv iota.
  rewrite quote_units_parse.
  change (skip_ws (58%N :: ?t)) with (58%N :: t); cbn [head_is tl].
  change (58 =? 58)%N with true; cbv iota.
  rewrite HV, skip_ws_delimited by exact HD.
  reflexivity.
Qed.

Lemma parse_members_serialize (o : props) :
  Forall (fun kv => jsonable (snd kv) = true ->
                    forall n rest, (parse_fuel (snd kv) <= n)%nat -> delimited rest ->
                    parse_value n (serialize [] [] (snd kv) ++ rest) = Some (snd kv, rest)) o ->
  forallb (fun kv => jsonable (snd kv)) o = true -> o <> [] ->
  forall n acc rest, (members_fuel o <= n)%nat ->
    parse_members n (join (js ",") (map member o) ++ js "}" ++ rest) acc
    = Some (JObj (define_all o acc), rest).
Proof.
  induction 1 as [|[k x] o HV HL IH]; [congruence|].
  cbn [forallb snd]; intros J _ n acc rest F; apply andb_true_iff in J as [JV JL].
  cbn [members_fuel fold_right snd] in F; fold (members_fuel o) in F.
  cbn [snd] in HV.
  destruct n as [|n]; [lia|].
  destruct o as [|kv' o'].
  - cbn [map join].
    rewrite parse_members_step;
      [reflexivity|apply (HV JV); [lia|reflexivity]|reflexivity].
  - change (join (js ",") (map member ((k, x) :: kv' :: o')))
      with (member (k, x) ++ js "," ++ join (js ",") (map member (kv' :: o'))).
    rewrite <- !app_assoc.
    rewrite parse_members_step;
      [|apply (HV JV); [lia|reflexivity]|reflexivity].
    cbn [js list_ascii_of_string map app].
    change (N_of_ascii "," =? 44)%N with true; cbv iota.
    etransitivity; [apply (IH JL ltac:(discriminate) n (set_prop k x acc) rest); lia|].
    reflexivity.
Qed.

(** The text [JSON.stringify] writes for a value reads back as the value, up
    to the text that follows it. *)
Lemma parse_value_serialize (v : JsVal) :
  jsonable v = true ->
  forall n rest, (parse_fuel v <= n)%nat -> delimited rest ->
  parse_value n (serialize [] [] v ++ rest) = Some (v, rest).
Proof.
  induction v as [| |b|x|s|l IH|o IH] using JsVal_ind; cbn [jsonable]; intros J n rest F D.
  - discriminate.
  - destruct n as [|n]; [cbn in F; lia|reflexivity].
  - destruct n as [|n]; [cbn in F; lia|destruct b; reflexivity].
  - destruct x as [|i|m [|d]]; try discriminate.
    apply Nat.leb_le in J.
    destruct n as [|n]; [cbn in F; lia|].
    cbn [serialize].
    destruct (Number_toString_start m J) as (c & r & E & S).
    rewrite E; cbn [app]; rewrite parse_value_number by exact S.
    change (c :: r ++ rest) with ((c :: r) ++ rest); rewrite <- E.
    now rewrite parse_number_integer by (try assumption; now apply delimited_stops).
  - destruct n as [|n]; [cbn in F; lia|].
    change (serialize [] [] (JStr s) ++ rest) with (34%N :: (quote_units s ++ [34%N]) ++ rest).
    rewrite <- app_assoc; cbn [app parse_value].
    change (skip_ws (34%N :: ?t)) with (34%N :: t).
    change (34 =? 123)%N with false; change (34 =? 91)%N with false;
      change (34 =? 34)%N with true; cbv iota.
    now rewrite quote_units_parse.
  - rewrite serialize_array.
    destruct n as [|n]; [cbn in F; lia|].
    destruct l as [|v l]; [reflexivity|].
    cbn [parse_fuel] in F; fold (elements_fuel (v :: l)) in F.
    assert (HS : exists c r, serialize [] [] v = c :: r /\ value_start c = true).
    { apply serialize_start. cbn [forallb] in J. now apply andb_true_iff in J as [J _]. }
    destruct HS as (c & r & E & S).
    replace ((js "[" ++ join (js ",") (map (serialize [] []) (v :: l)) ++ js "]") ++ rest)
      with (91%N :: join (js ",") (map (serialize [] []) (v :: l)) ++ js "]" ++ rest)
      by (cbn [js list_ascii_of_string map app]; rewrite <- !app_assoc; reflexivity).
    cbn [parse_value].
    change (skip_ws (91%N :: ?t)) with (91%N :: t).
    change (91 =? 123)%N with false; change (91 =? 91)%N with true; cbv iota.
    assert (HH : exists t, join (js ",") (map (serialize [] []) (v :: l)) ++ js "]" ++ rest
                           = c :: t).
    { cbn [map join]; rewrite E; destruct (map (serialize [] []) l); eexists; reflexivity. }
    destruct HH as (t & HH).
    rewrite HH, skip_ws_start by exact S; cbn [head_is].
    destruct (value_start_not_close c S) as [NC _]; rewrite NC.
    rewrite <- HH.
    now rewrite parse_elements_serialize by (try assumption; try discriminate; lia).
  - apply andb_true_iff in J as [JV JK].
    rewrite serialize_object by exact JV.
    destruct n as [|n]; [cbn in F; lia|].
    destruct o as [|[k x] o]; [reflexivity|].
    cbn [parse_fuel] in F; fold (members_fuel ((k, x) :: o)) in F.
    replace ((js "{" ++ join (js ",") (map member ((k, x) :: o)) ++ js "}") ++ rest)
      with (123%N :: join (js ",") (map member ((k, x) :: o)) ++ js "}" ++ rest)
      by (cbn [js list_ascii_of_string map app]; rewrite <- !app_assoc; reflexivity).
    cbn [parse_value].
    change (skip_ws (123%N :: ?t)) with (123%N :: t).
    change (123 =? 123)%N with true; cbv iota.
    assert (HH : exists t, join (js ",") (map member ((k, x) :: o)) ++ js "}" ++ rest
                           = 34%N :: t).
    { cbn [map join]; destruct (map member o); eexists; reflexivity. }
    destruct HH as (t & HH).
    rewrite HH; change (skip_ws (34%N :: t)) with (34%N :: t); cbn [head_is].
    change (34 =? 125)%N with false; cbv iota.
    rewrite <- HH.
    rewrite parse_members_serialize by (try assumption; try discriminate; lia).
    now rewrite define_all_plain by exact JK.
Qed.

Lemma length_join_fuel (A : Type) (f : A -> nat) (g : A -> jstring) (l : list A) :
  Forall (fun x => (f x <= length (g x))%nat) l -> l <> [] ->
  (fold_right (fun x n => S (f x) + n) O l <= length (join (js ",") (map g l)) + 1)%nat.
Proof.
  induction 1 as [|x l HX HL IH]; [congruence|]; intros _.
  destruct l as [|y l'].
  - cbn [fold_right map join]; lia.
  - change (join (js ",") (map g (x :: y :: l')))
      with (g x ++ js "," ++ join (js ",") (map g (y :: l'))).
    cbn [fold_right] in *; rewrite !length_app.
    specialize (IH ltac:(discriminate)).
    change (length (js ",")) with 1%nat; lia.
Qed.

(** The parser's fuel for a value is at most the length of its text. *)
Lemma parse_fuel_bound (v : JsVal) :
  jsonable v = true -> (parse_fuel v <= length (serialize [] [] v))%nat.
Proof.
  induction v as [| |b|x|s|l IH|o IH] using JsVal_ind; cbn [jsonable]; intros J.
  - discriminate.
  - cbn; lia.
  - destruct b; cbn; lia.
  - destruct x as [|i|m [|d]]; try discriminate.
    apply Nat.leb_le in J.
    destruct (Number_toString_start m J) as (c & r & E & _).
    cbn [serialize parse_fuel]; rewrite E; cbn [length]; lia.
  - cbn [serialize parse_fuel]; unfold quote; cbn [app length]; lia.
  - rewrite serialize_array; cbn [parse_fuel].
    destruct l as [|v l]; [cbn; lia|].
    assert (B : (fold_right (fun x n => S (parse_fuel x) + n) O (v :: l)
                 <= length (join (js ",") (map (serialize [] []) (v :: l))) + 1)%nat).
    { apply length_join_fuel; [|discriminate].
      rewrite Forall_forall in *; intros x Hx; apply IH; [exact Hx|].
      rewrite forallb_forall in J; now apply J. }
    rewrite !length_app; change (length (js "[")) with 1%nat;
      change (length (js "]")) with 1%nat; lia.
  - apply andb_true_iff in J as [JV JK].
    rewrite serialize_object by exact JV; cbn [parse_fuel].
    destruct o as [|kv o]; [cbn; lia|].
    assert (B : (fold_right (fun x n => S (parse_fuel (snd x)) + n) O (kv :: o)
                 <= length (join (js ",") (map member (kv :: o))) + 1)%nat).
    { apply (length_join_fuel _ (fun x => parse_fuel (snd x)) member); [|discriminate].
      rewrite Forall_forall in *; intros x Hx.
      unfold member; rewrite !length_app.
      assert (parse_fuel (snd x) <= length (serialize [] [] (snd x)))%nat; [|lia].
      apply IH; [exact Hx|].
      rewrite forallb_forall in JV; now apply JV. }
    rewrite !length_app; change (length (js "{")) with 1%nat;
      change (length (js "}")) with 1%nat; lia.
Qed.

(** [JSON.parse(JSON.stringify(v))] is [v] for every value that survives
    serialisation. *)
Lemma JSON_parse_stringify (v : JsVal) :
  jsonable v = true -> JSON_parse (JSON_stringify v) = Some v.
Proof.
  intros J; unfold JSON_parse, JSON_stringify.
  assert (B := parse_fuel_bound v J).
  rewrite <- (List.app_nil_r (serialize [] [] v)) at 2.
  rewrite parse_value_serialize; [reflexivity|exact J|lia|exact I].
Qed.

(** ** Extraction of the payload *)

(** *** Trimming *)

Lemma trimEnd_app_stop (a : jstring) (c : N) (b : jstring) :
  is_space c = false -> trimEnd (a ++ c :: b) = a ++ c :: trimEnd b.
Proof.
  intros H; unfold trimEnd.
  rewrite rev_app_distr; cbn [rev]; rewrite <- app_assoc; cbn [app].
  rewrite dropwhile_app_stop by exact H.
  rewrite rev_app_distr; cbn [rev]; rewrite rev_involutive, <- app_assoc.
  reflexivity.
Qed.

(** Trimming a text whose core starts and ends with units that are no space
    only trims what surrounds the core. *)
Lemma trim_core (a : jstring) (c : N) (m : jstring) (d : N) (b : jstring) :
  is_space c = false -> is_space d = false ->
  trim (a ++ c :: m ++ d :: b) = trimStart a ++ c :: m ++ d :: trimEnd b.
Proof.
  intros HC HD; unfold trim, trimStart.
  rewrite dropwhile_app_stop by exact HC.
  change (dropwhile is_space a ++ c :: m ++ d :: b)
    with (dropwhile is_space a ++ (c :: m) ++ d :: b).
  rewrite app_assoc, trimEnd_app_stop by exact HD.
  now rewrite <- app_assoc.
Qed.

Lemma forallb_dropwhile (P f : N -> bool) (a : jstring) :
  forallb P a = true -> forallb P (dropwhile f a) = true.
Proof.
  induction a as [|x a IH]; cbn [forallb dropwhile]; [auto|].
  intros H; destruct (f x); [apply andb_true_iff in H as [_ H]; auto|exact H].
Qed.

Lemma forallb_rev (P : N -> bool) (a : jstring) : forallb P (rev a) = forallb P a.
Proof.
  induction a as [|x a IH]; [reflexivity|].
  cbn [rev forallb]; rewrite forallb_app, IH; cbn [forallb].
  rewrite andb_true_r; apply andb_comm.
Qed.

Lemma forallb_trimStart (P : N -> bool) (a : jstring) :
  forallb P a = true -> forallb P (trimStart a) = true.
Proof. apply forallb_dropwhile. Qed.

Lemma forallb_trimEnd (P : N -> bool) (a : jstring) :
  forallb P a = true -> forallb P (trimEnd a) = true.
Proof.
  intros H; unfold trimEnd; rewrite forallb_rev.
  apply forallb_dropwhile; now rewrite forallb_rev.
Qed.

Lemma forallb_skipn (P : N -> bool) (n : nat) (a : jstring) :
  forallb P a = true -> forallb P (skipn n a) = true.
Proof.
  revert a; induction n as [|n IH]; intros [|x a]; cbn [skipn forallb]; auto.
  intros H; apply andb_true_iff in H as [_ H]; auto.
Qed.

(** *** Searching *)

Lemma starts_with_app (p s : jstring) : starts_with p (p ++ s) = true.
Proof. induction p as [|x p IH]; cbn [app starts_with]; [reflexivity|now rewrite N.eqb_refl]. Qed.

Lemma indexOf_from_here (p s : jstring) (i : Z) :
  starts_with p s = true -> indexOf_from p s i = i.
Proof. intros H; destruct s; cbn [indexOf_from]; now rewrite H. Qed.

(** A text without the first unit of the pattern is skipped. *)
Lemma indexOf_from_skip (c : N) (p a s : jstring) (i : Z) :
  no_unit c a = true ->
  indexOf_from (c :: p) (a ++ s) i = indexOf_from (c :: p) s (i + Z.of_nat (length a)).
Proof.
  revert i; induction a as [|x a IH]; intros i.
  - intros _; cbn [app length Z.of_nat]; now rewrite Z.add_0_r.
  - unfold no_unit in *; cbn [forallb]; intros H; apply andb_true_iff in H as [H1 H2].
    apply negb_true_iff in H1.
    cbn [app indexOf_from starts_with]; rewrite N.eqb_sym, H1; cbn [andb].
    rewrite IH by exact H2; f_equal; cbn [length]; lia.
Qed.

Lemma indexOf_from_range (p s : jstring) (i : Z) :
  indexOf_from p s i = (-1)%Z \/ (i <= indexOf_from p s i)%Z.
Proof.
  revert i; induction s as [|x s IH]; intros i; cbn [indexOf_from].
  - destruct (starts_with p []); [right; lia|left; reflexivity].
  - destruct (starts_with p (x :: s)); [right; lia|].
    destruct (IH (i + 1)%Z) as [E|E]; [left; exact E|right; lia].
Qed.

Lemma lastIndexOf_from_none (c : N) (p s : jstring) (i : Z) :
  no_unit c s = true -> lastIndexOf_from (c :: p) s i = (-1)%Z.
Proof.
  revert i; induction s as [|x s IH]; intros i; [reflexivity|].
  unfold no_unit in *; cbn [forallb]; intros H; apply andb_true_iff in H as [H1 H2].
  apply negb_true_iff in H1.
  cbn [lastIndexOf_from starts_with]; rewrite IH by exact H2.
  now rewrite N.eqb_sym, H1.
Qed.

(** What follows the last occurrence does not move it. *)
Lemma lastIndexOf_from_app (p a b : jstring) (i : Z) :
  (0 <= i)%Z -> (0 <= lastIndexOf_from p b (i + Z.of_nat (length a)))%Z ->
  lastIndexOf_from p (a ++ b) i = lastIndexOf_from p b (i + Z.of_nat (length a)).
Proof.
  revert i; induction a as [|x a IH]; intros i HI HB.
  - cbn [app length Z.of_nat] in *; now rewrite Z.add_0_r in *.
  - cbn [app lastIndexOf_from].
    replace (i + Z.of_nat (length (x :: a)))%Z with (i + 1 + Z.of_nat (length a))%Z in *
      by (cbn [length]; lia).
    rewrite IH by (try lia; exact HB).
    apply Z.leb_le in HB; now rewrite HB.
Qed.

Lemma lastIndexOf_from_bound (c : N) (p s : jstring) (i : Z) :
  (0 <= i)%Z ->
  lastIndexOf_from (c :: p) s i = (-1)%Z
  \/ (i <= lastIndexOf_from (c :: p) s i < i + Z.of_nat (length s))%Z.
Proof.
  revert i; induction s as [|x s IH]; intros i HI; [left; reflexivity|].
  cbn [lastIndexOf_from].
  destruct (IH (i + 1)%Z ltac:(lia)) as [E|E].
  - rewrite E; cbn [Z.leb Z.compare].
    destruct (starts_with (c :: p) (x :: s)); [right; cbn [length]; lia|left; reflexivity].
  - replace (0 <=? lastIndexOf_from (c :: p) s (i + 1))%Z with true
      by (symmetry; apply Z.leb_le; lia).
    right; cbn [length]; lia.
Qed.

(** The first fence of a text is where its backtick-free prefix ends. *)
Lemma fence_index (P R : jstring) :
  no_backtick P = true ->
  indexOf (P ++ js "```" ++ R) (js "```") = Z.of_nat (length P).
Proof.
  intros H; unfold indexOf.
  change (js "```") with (96%N :: [96%N; 96%N]).
  rewrite indexOf_from_skip by exact H.
  now rewrite indexOf_from_here by apply starts_with_app.
Qed.

Lemma fence_tail (S : jstring) (j : Z) :
  no_backtick S = true ->
  lastIndexOf_from (js "```") (js "```" ++ S) j = j.
Proof.
  intros H.
  change (js "```" ++ S) with (96%N :: 96%N :: 96%N :: S).
  change (js "```") with (96%N :: [96%N; 96%N]).
  assert (N3 : forall k, lastIndexOf_from (96%N :: [96%N; 96%N]) S k = (-1)%Z)
    by (intros k; now apply lastIndexOf_from_none).
  assert (HS : match S with [] => True | y :: _ => (96 =? y)%N = false end).
  { destruct S as [|y S']; [exact I|].
    unfold no_backtick, no_unit in H; cbn [forallb] in H.
    apply andb_true_iff in H as [H _]; apply negb_true_iff in H.
    now rewrite N.eqb_sym. }
  cbn [lastIndexOf_from]; rewrite N3; cbn [Z.leb Z.compare starts_with].
  change (96 =? 96)%N with true; cbn [andb].
  destruct S as [|y S']; [reflexivity|now rewrite HS].
Qed.

(** The last fence of a text is where its backtick-free suffix starts. *)
Lemma fence_last_index (A S : jstring) :
  no_backtick S = true ->
  lastIndexOf (A ++ js "```" ++ S) (js "```") = Z.of_nat (length A).
Proof.
  intros H; unfold lastIndexOf.
  rewrite lastIndexOf_from_app; rewrite ?fence_tail by exact H; lia.
Qed.

Lemma slice_middle (A : Type) (a b c : list A) :
  slice (a ++ b ++ c) (Z.of_nat (length a)) (Z.of_nat (length a + length b)) = b.
Proof.
  unfold slice, clamp_index; rewrite !length_app.
  replace (Z.of_nat (length a) <? 0)%Z with false by (symmetry; apply Z.ltb_ge; lia).
  replace (Z.of_nat (length a + length b) <? 0)%Z with false
    by (symmetry; apply Z.ltb_ge; lia).
  rewrite !Z.min_l by lia.
  replace (Z.to_nat (Z.of_nat (length a + length b) - Z.of_nat (length a)))
    with (length b) by lia.
  rewrite Nat2Z.id, skipn_app, skipn_all, Nat.sub_diag; cbn [app skipn].
  rewrite firstn_app, firstn_all, Nat.sub_diag; cbn [firstn].
  apply List.app_nil_r.
Qed.

Lemma no_bracket_parts (a : jstring) :
  no_bracket a = true ->
  no_unit 91 a = true /\ no_unit 93 a = true /\ no_unit 123 a = true /\ no_unit 125 a = true.
Proof. unfold no_bracket; intros H; b2p; auto. Qed.

Lemma no_bracket_forallb (a : jstring) :
  no_bracket a
  = forallb (fun x => negb (x =? 91)%N && negb (x =? 93)%N
                      && negb (x =? 123)%N && negb (x =? 125)%N) a.
Proof.
  unfold no_bracket, no_unit; induction a as [|x a IH]; [reflexivity|].
  cbn [forallb]; rewrite <- IH.
  destruct (x =? 91)%N, (x =? 93)%N, (x =? 123)%N, (x =? 125)%N; cbn [negb andb];
    rewrite ?andb_false_r, ?andb_true_r; try reflexivity.
Qed.

Lemma starts_with_ci_length (p a : jstring) (c : N) (r : jstring) :
  forallb (fun x => negb (x =? lower_ascii c)%N) p = true ->
  starts_with_ci p (a ++ c :: r) = true -> (length p <= length a)%nat.
Proof.
  revert a; induction p as [|x p IH]; intros a HP H; [cbn; lia|].
  cbn [forallb] in HP; apply andb_true_iff in HP as [H1 H2].
  destruct a as [|y a]; cbn [app starts_with_ci length] in *.
  - apply andb_true_iff in H as [H _]; apply negb_true_iff in H1; congruence.
  - apply andb_true_iff in H as [_ H]; specialize (IH a H2 H); lia.
Qed.

(** Removing the language tag leaves the payload and its bracket-free
    surroundings. *)
Lemma strip_json_tag_wrapped (a r : jstring) :
  no_bracket a = true ->
  exists a', no_bracket a' = true /\ strip_json_tag (a ++ 91%N :: r) = a' ++ 91%N :: r.
Proof.
  intros H; unfold strip_json_tag.
  destruct (starts_with_ci (js "json") (a ++ 91%N :: r)) eqn:E; [|eauto].
  apply starts_with_ci_length in E; [|reflexivity].
  change (length (js "json")) with 4%nat in E.
  exists (dropwhile is_space (skipn 4 a)); split.
  - rewrite no_bracket_forallb in *; now apply forallb_dropwhile, forallb_skipn.
  - rewrite skipn_app.
    replace (4 - length a)%nat with O by lia; cbn [skipn].
    now rewrite dropwhile_app_stop by reflexivity.
Qed.

Lemma trim_wrapped (a m b : jstring) :
  trim (a ++ 91%N :: m ++ 93%N :: b) = trimStart a ++ 91%N :: m ++ 93%N :: trimEnd b.
Proof. now apply trim_core. Qed.

Lemma no_bracket_trimStart (a : jstring) : no_bracket a = true -> no_bracket (trimStart a) = true.
Proof. rewrite !no_bracket_forallb; apply forallb_trimStart. Qed.

Lemma no_bracket_trimEnd (a : jstring) : no_bracket a = true -> no_bracket (trimEnd a) = true.
Proof. rewrite !no_bracket_forallb; apply forallb_trimEnd. Qed.

Ltac list_assoc :=
  cbn [app js list_ascii_of_string map]; rewrite <- ?app_assoc;
  cbn [app]; rewrite <- ?app_assoc; cbn [app]; reflexivity.

(** Between two fences that bound backtick-free prose, the fence step keeps
    the inner text, trimmed and without language tag. *)
Lemma fence_content_fenced (P X S : jstring) :
  no_backtick P = true -> no_backtick S = true ->
  fence_content (P ++ js "```" ++ X ++ js "```" ++ S) = trim (strip_json_tag (trim X)).
Proof.
  intros HP HS; unfold fence_content; cbv zeta.
  rewrite fence_index by exact HP.
  assert (E2 : lastIndexOf (P ++ js "```" ++ X ++ js "```" ++ S) (js "```")
               = Z.of_nat (length P + 3 + length X)).
  { replace (P ++ js "```" ++ X ++ js "```" ++ S) with ((P ++ js "```" ++ X) ++ js "```" ++ S)
      by (rewrite <- !app_assoc; reflexivity).
    rewrite fence_last_index by exact HS.
    now rewrite !length_app, Nat.add_assoc. }
  assert (E3 : slice (P ++ js "```" ++ X ++ js "```" ++ S) (Z.of_nat (length P) + 3)
                 (Z.of_nat (length P + 3 + length X)) = X).
  { replace (P ++ js "```" ++ X ++ js "```" ++ S) with ((P ++ js "```") ++ X ++ js "```" ++ S)
      by (rewrite <- !app_assoc; reflexivity).
    replace (Z.of_nat (length P) + 3)%Z with (Z.of_nat (length (P ++ js "```")))
      by (rewrite length_app; change (length (js "```")) with 3%nat; lia).
    replace (length P + 3 + length X)%nat with (length (P ++ js "```") + length X)%nat
      by (rewrite length_app; reflexivity).
    apply slice_middle. }
  rewrite E2, E3.
  replace (negb (Z.of_nat (length P) =? -1)%Z) with true
    by (symmetry; apply negb_true_iff, Z.eqb_neq; lia).
  replace (negb (Z.of_nat (length P + 3 + length X) =? -1)%Z) with true
    by (symmetry; apply negb_true_iff, Z.eqb_neq; lia).
  replace (Z.of_nat (length P) <? Z.of_nat (length P + 3 + length X))%Z with true
    by (symmetry; apply Z.ltb_lt; lia).
  reflexivity.
Qed.

Lemma lastIndexOf_from_single_tail (c : N) (a b : jstring) (i : Z) :
  no_unit c b = true ->
  lastIndexOf_from [c] (a ++ b) i = lastIndexOf_from [c] a i.
Proof.
  intros H; revert i; induction a as [|x a IH]; intros i.
  - cbn [app]; now rewrite lastIndexOf_from_none by exact H.
  - cbn [app lastIndexOf_from starts_with]; now rewrite IH.
Qed.

Lemma lastIndexOf_from_single_end (c : N) (a : jstring) :
  lastIndexOf_from [c] (a ++ [c]) 0 = Z.of_nat (length a).
Proof.
  assert (E : forall j, lastIndexOf_from [c] [c] j = j).
  { intros j; cbn [lastIndexOf_from starts_with Z.leb Z.compare].
    now rewrite N.eqb_refl. }
  rewrite lastIndexOf_from_app; rewrite ?E; lia.
Qed.

(** The bracket step on a payload between bracket-free texts keeps the
    payload. *)
Lemma bracket_span_wrapped (a M b : jstring) :
  no_bracket a = true -> no_bracket b = true ->
  bracket_span (a ++ (91%N :: M ++ [93%N]) ++ b) = 91%N :: M ++ [93%N].
Proof.
  intros HA HB.
  destruct (no_bracket_parts a HA) as (A1 & A2 & A3 & A4).
  destruct (no_bracket_parts b HB) as (B1 & B2 & B3 & B4).
  set (J := 91%N :: M ++ [93%N]).
  assert (E1 : indexOf (a ++ J ++ b) (js "[") = Z.of_nat (length a)).
  { unfold indexOf; change (js "[") with [91%N].
    rewrite indexOf_from_skip by exact A1.
    now rewrite indexOf_from_here by reflexivity. }
  assert (E2 : indexOf (a ++ J ++ b) (js "{") = (-1)%Z
               \/ (Z.of_nat (length a) <= indexOf (a ++ J ++ b) (js "{"))%Z).
  { unfold indexOf; change (js "{") with [123%N].
    rewrite indexOf_from_skip by exact A3.
    apply indexOf_from_range. }
  assert (E3 : lastIndexOf (a ++ J ++ b) (js "]") = Z.of_nat (length a + length M + 1)).
  { unfold lastIndexOf; change (js "]") with [93%N].
    replace (a ++ J ++ b) with (((a ++ 91%N :: M) ++ [93%N]) ++ b)
      by (unfold J; list_assoc).
    rewrite lastIndexOf_from_single_tail by exact B2.
    rewrite lastIndexOf_from_single_end, length_app; cbn [length]; f_equal; lia. }
  assert (E4 : (lastIndexOf (a ++ J ++ b) (js "}") <= Z.of_nat (length a + length M + 1))%Z).
  { unfold lastIndexOf; change (js "}") with [125%N].
    rewrite app_assoc, lastIndexOf_from_single_tail by exact B4.
    destruct (lastIndexOf_from_bound 125 [] (a ++ J) 0 ltac:(lia)) as [E|E]; [lia|].
    unfold J in *; rewrite !length_app in E; cbn [length] in E; rewrite length_app in E.
    cbn [length] in E; lia. }
  assert (E5 : slice (a ++ J ++ b) (Z.of_nat (length a))
                 (Z.of_nat (length a + length M + 1) + 1) = J).
  { replace (Z.of_nat (length a + length M + 1) + 1)%Z
      with (Z.of_nat (length a + length J))
      by (unfold J; cbn [length]; rewrite length_app; cbn [length]; lia).
    apply slice_middle. }
  unfold bracket_span; cbv zeta; fold J.
  rewrite E1, E3, (Z.max_l _ _ E4).
  assert (F : nth_error
                (sort_ascending
                   (filter (fun i => (0 <=? i)%Z)
                      [Z.of_nat (length a); indexOf (a ++ J ++ b) (js "{")])) 0
              = Some (Z.of_nat (length a))).
  { cbn [filter].
    replace (0 <=? Z.of_nat (length a))%Z with true by (symmetry; apply Z.leb_le; lia).
    destruct (0 <=? indexOf (a ++ J ++ b) (js "{"))%Z eqn:Q; [|reflexivity].
    apply Z.leb_le in Q.
    cbn [sort_ascending fold_right insert_sorted].
    replace (Z.of_nat (length a) <=? indexOf (a ++ J ++ b) (js "{"))%Z with true;
      [reflexivity|].
    symmetry; apply Z.leb_le; destruct E2 as [E2|E2]; lia. }
  rewrite F.
  replace (0 <=? Z.of_nat (length a))%Z with true by (symmetry; apply Z.leb_le; lia).
  replace (Z.of_nat (length a) <=? Z.of_nat (length a + length M + 1))%Z with true
    by (symmetry; apply Z.leb_le; lia).
  cbn [andb]; rewrite E5.
  unfold J; change (91%N :: M ++ [93%N]) with ([] ++ 91%N :: M ++ 93%N :: []).
  now rewrite trim_wrapped.
Qed.

Lemma stringify_array_shape (arr : list JsVal) :
  exists M, JSON_stringify (JArr arr) = 91%N :: M ++ [93%N].
Proof.
  unfold JSON_stringify; rewrite serialize_array.
  destruct arr as [|v arr]; [exists []; reflexivity|].
  eexists; reflexivity.
Qed.

(** C4 (amended). An array of values that survive serialisation (every
    record of the data model does), written by [JSON.stringify] and wrapped in
    a fenced block (prose, an opening fence with a tag line, the text, a
    trailer, a closing fence, prose) is recovered by
    [extractProblemsFromText], provided the prose holds no backtick and the
    tag line and the trailer hold no bracket and no brace. *)
Theorem extractProblemsFromText_roundtrip (arr : list JsVal)
        (prefix tag trailer suffix : jstring) :
  forallb jsonable arr = true ->
  no_backtick prefix = true -> no_backtick suffix = true ->
  no_bracket tag = true -> no_bracket trailer = true ->
  extractProblemsFromText
    (JStr (fenced prefix tag (JSON_stringify (JArr arr)) trailer suffix))
  = Some arr.
Proof.
  intros HJ HP HS HT HR.
  destruct (stringify_array_shape arr) as (M & EM).
  assert (PJ : JSON_parse (91%N :: M ++ [93%N]) = Some (JArr arr))
    by (rewrite <- EM; now apply JSON_parse_stringify).
  unfold extractProblemsFromText; cbv zeta.
  rewrite EM.
  assert (T : truthy (JStr (fenced prefix tag (91%N :: M ++ [93%N]) trailer suffix)) = true)
    by (unfold fenced; destruct prefix; reflexivity).
  rewrite (or_else_truthy _ _ T), String_of_string; cbn [and_then].
  assert (E0 : trim (fenced prefix tag (91%N :: M ++ [93%N]) trailer suffix)
               = trimStart prefix ++ js "```" ++ (tag ++ (91%N :: M ++ [93%N]) ++ trailer)
                 ++ js "```" ++ trimEnd suffix).
  { replace (fenced prefix tag (91%N :: M ++ [93%N]) trailer suffix)
      with (prefix ++ 96%N :: (96%N :: 96%N :: (tag ++ (91%N :: M ++ [93%N]) ++ trailer)
                               ++ [96%N; 96%N]) ++ 96%N :: suffix)
      by (unfold fenced; list_assoc).
    rewrite trim_core by reflexivity.
    list_assoc. }
  rewrite E0.
  rewrite fence_content_fenced
    by (apply forallb_trimStart || apply forallb_trimEnd; assumption).
  replace (tag ++ (91%N :: M ++ [93%N]) ++ trailer)
    with (tag ++ 91%N :: M ++ 93%N :: trailer)
    by list_assoc.
  rewrite trim_wrapped.
  destruct (strip_json_tag_wrapped (trimStart tag) (M ++ 93%N :: trimEnd trailer))
    as (a' & HA' & ES); [now apply no_bracket_trimStart|].
  rewrite ES, trim_wrapped.
  replace (trimStart a' ++ 91%N :: M ++ 93%N :: trimEnd (trimEnd trailer))
    with (trimStart a' ++ (91%N :: M ++ [93%N]) ++ trimEnd (trimEnd trailer))
    by list_assoc.
  rewrite bracket_span_wrapped
    by (repeat (apply no_bracket_trimStart || apply no_bracket_trimEnd); assumption).
  unfold parse_lenient; rewrite PJ.
  reflexivity.
Qed.

Lemma extractProblemsFromText_roundtrip_witness :
  extractProblemsFromText
    (JStr (fenced (js "Here are the problems: ") (js "json
")
             (JSON_stringify
                (JArr [normal_record (engine := latin1) sample_entropy
                         (obj [("question", JStr (js "How many in all [3 + 4]?"));
                               ("data", obj [("p1", JNum (Fin 3 0)); ("p2", JNum (Fin 4 0))])])
                         (ctx_of 2 "PPT")]))
             (js "
") (js " Hope this helps {really}.")))
  = Some [normal_record (engine := latin1) sample_entropy
            (obj [("question", JStr (js "How many in all [3 + 4]?"));
                  ("data", obj [("p1", JNum (Fin 3 0)); ("p2", JNum (Fin 4 0))])])
            (ctx_of 2 "PPT")].
Proof.
  apply (extractProblemsFromText_roundtrip
           [normal_record (engine := latin1) sample_entropy
              (obj [("question", JStr (js "How many in all [3 + 4]?"));
                    ("data", obj [("p1", JNum (Fin 3 0)); ("p2", JNum (Fin 4 0))])])
              (ctx_of 2 "PPT")]
           (js "Here are the problems: ") (js "json
") (js "
") (js " Hope this helps {really}.")); reflexivity.
Defined.

(** C4 as stated fails: the empty array, serialised and fenced with the tag
    [json], followed by prose that holds a bracket and a fence. The last
    fence is the one of the prose, the bracket before it becomes the last
    closing bracket, and neither parse succeeds: the extractor throws. *)
Lemma extractProblemsFromText_roundtrip_counterexample :
  JSON_stringify (JArr []) = js "[]"
  /\ extractProblemsFromText
       (JStr (fenced (js "") (js "json
") (js "[]") (js "
") (js "] ```")))
     = None.
Proof. split; vm_compute; reflexivity. Qed.

(** ** The fuel of the parser *)

Lemma length_dropwhile (f : N -> bool) (s : jstring) :
  (length (dropwhile f s) <= length s)%nat.
Proof.
  induction s as [|c s IH]; cbn [dropwhile length]; [lia|].
  destruct (f c); cbn [length]; lia.
Qed.

Lemma length_takewhile_dropwhile (f : N -> bool) (s : jstring) :
  (length (takewhile f s) + length (dropwhile f s) = length s)%nat.
Proof.
  induction s as [|c s IH]; cbn [takewhile dropwhile length]; [lia|].
  destruct (f c); cbn [length]; lia.
Qed.

Lemma length_tl (A : Type) (l : list A) : (length (tl l) <= length l)%nat.
Proof. destruct l; cbn [tl length]; lia. Qed.

Lemma skip_ws_cons (s : jstring) (c : N) (r : jstring) :
  skip_ws s = c :: r -> (S (length r) <= length s)%nat.
Proof.
  intros H; assert (L := length_dropwhile is_json_ws s).
  unfold skip_ws in H; rewrite H in L; exact L.
Qed.

Lemma head_is_tl (c : N) (s : jstring) :
  head_is c s = true -> (S (length (tl s)) <= length s)%nat.
Proof. destruct s; cbn [head_is tl length]; [discriminate|lia]. Qed.

Ltac string_call IH H :=
  match type of H with
  | match parse_string ?t with _ => _ end = Some _ =>
      let E := fresh "E" in
      destruct (parse_string t) as [[? ?]|] eqn:E; [|discriminate H];
      injection H as <- <-; apply IH in E; cbn [length] in *; lia
  end.

Lemma parse_string_shorter_le (n : nat) (s x r : jstring) :
  (length s <= n)%nat -> parse_string s = Some (x, r) -> (S (length r) <= length s)%nat.
Proof.
  revert s x r; induction n as [|n IH]; intros s x r L H.
  - destruct s; [discriminate H|cbn [length] in L; lia].
  - destruct s as [|c s]; [discriminate H|].
    cbn [parse_string] in H.
    repeat first
      [ discriminate H
      | string_call IH H
      | match type of H with
        | Some ([], _) = Some _ => injection H as <- <-; cbn [length]; lia
        | (if ?b then _ else _) = Some _ => destruct b
        | match ?l with [] => _ | _ => _ end = Some _ => destruct l
        end ].
Qed.

(** A string literal ends after where it starts. *)
Lemma parse_string_shorter (s x r : jstring) :
  parse_string s = Some (x, r) -> (S (length r) <= length s)%nat.
Proof. apply (parse_string_shorter_le (length s)); lia. Qed.

Lemma parse_number_shorter (s : jstring) (x : JsNum) (r : jstring) :
  parse_number s = Some (x, r) -> (S (length r) <= length s)%nat.
Proof.
  unfold parse_number.
  set (r0 := if head_is 45 s then tl s else s).
  set (r1 := dropwhile is_digit r0).
  set (r2 := if head_is 46 r1 then dropwhile is_digit (tl r1) else r1).
  set (r2' := if head_is 43 (tl r2) || head_is 45 (tl r2) then tl (tl r2) else tl r2).
  set (r3 := if head_is 101 r2 || head_is 69 r2 then dropwhile is_digit r2' else r2).
  assert (L0 : (length r0 <= length s)%nat)
    by (unfold r0; destruct (head_is 45 s); [apply length_tl|lia]).
  assert (L1 := length_takewhile_dropwhile is_digit r0); fold r1 in L1.
  assert (L2 : (length r2 <= length r1)%nat).
  { unfold r2; destruct (head_is 46 r1); [|lia].
    assert (A := length_dropwhile is_digit (tl r1)); assert (B := length_tl _ r1); lia. }
  assert (L2' : (length r2' <= length r2)%nat).
  { unfold r2'; assert (A := length_tl _ r2); assert (B := length_tl _ (tl r2)).
    destruct (head_is 43 (tl r2) || head_is 45 (tl r2)); lia. }
  assert (L3 : (length r3 <= length r2)%nat).
  { unfold r3; assert (A := length_dropwhile is_digit r2').
    destruct (head_is 101 r2 || head_is 69 r2); lia. }
  destruct (takewhile is_digit r0) as [|d ip] eqn:IP; [discriminate|].
  cbn [is_nil orb length] in *.
  match goal with
  | |- (if ?c then _ else _) = _ -> _ => destruct c; [discriminate|]
  end.
  intros [= _ <-]; lia.
Qed.

Ltac skipped :=
  repeat match goal with
         | |- context [match ?l with [] => _ | _ :: _ => _ end] => destruct l
         end; cbn [length] in *; lia.

(** Whatever the parser reads, it reads at least one code unit. *)
Lemma parse_shorter (f : nat) :
  (forall s v r, parse_value f s = Some (v, r) -> (S (length r) <= length s)%nat)
  /\ (forall s acc v r, parse_elements f s acc = Some (v, r) -> (S (length r) <= length s)%nat)
  /\ (forall s acc v r, parse_members f s acc = Some (v, r) -> (S (length r) <= length s)%nat).
Proof.
  induction f as [|n (IV & IE & IM)]; [repeat split; discriminate|].
  repeat split.
  - intros s v r H; cbn [parse_value] in H.
    destruct (skip_ws s) as [|c t] eqn:W; [discriminate|].
    apply skip_ws_cons in W.
    assert (LT := length_dropwhile is_json_ws t); fold (skip_ws t) in LT.
    assert (TL := length_tl _ (skip_ws t)).
    destruct (c =? 123)%N.
    { destruct (head_is 125 (skip_ws t));
        [injection H as <- <-; lia|apply IM in H; lia]. }
    destruct (c =? 91)%N.
    { destruct (head_is 93 (skip_ws t));
        [injection H as <- <-; lia|apply IE in H; lia]. }
    destruct (c =? 34)%N.
    { destruct (parse_string t) as [[x rest]|] eqn:E; [|discriminate].
      apply parse_string_shorter in E; injection H as <- <-; lia. }
    destruct (starts_with (js "true") (c :: t)).
    { injection H as <- <-; skipped. }
    destruct (starts_with (js "false") (c :: t)).
    { injection H as <- <-; skipped. }
    destruct (starts_with (js "null") (c :: t)).
    { injection H as <- <-; skipped. }
    destruct (parse_number (c :: t)) as [[x rest]|] eqn:E; [|discriminate].
    apply parse_number_shorter in E; injection H as <- <-; cbn [length] in *; lia.
  - intros s acc v r H; cbn [parse_elements] in H.
    destruct (parse_value n s) as [[x t]|] eqn:E; [|discriminate].
    apply IV in E.
    destruct (skip_ws t) as [|c t'] eqn:W; [discriminate|].
    apply skip_ws_cons in W.
    destruct (c =? 44)%N; [apply IE in H; lia|].
    destruct (c =? 93)%N; [injection H as <- <-; lia|discriminate].
  - intros s acc v r H; cbn [parse_members] in H.
    destruct (head_is 34 (skip_ws s)) eqn:Q; [|discriminate].
    apply head_is_tl in Q.
    assert (LS := length_dropwhile is_json_ws s); fold (skip_ws s) in LS.
    destruct (parse_string (tl (skip_ws s))) as [[k r1]|] eqn:E; [|discriminate].
    apply parse_string_shorter in E.
    destruct (head_is 58 (skip_ws r1)) eqn:C; [|discriminate].
    apply head_is_tl in C.
    assert (L1 := length_dropwhile is_json_ws r1); fold (skip_ws r1) in L1.
    destruct (parse_value n (tl (skip_ws r1))) as [[x r3]|] eqn:V; [|discriminate].
    apply IV in V.
    destruct (skip_ws r3) as [|c r4] eqn:W; [discriminate|].
    apply skip_ws_cons in W.
    destruct (c =? 44)%N; [apply IM in H; lia|].
    destruct (c =? 125)%N; [injection H as <- <-; lia|discriminate].
Qed.

(** Fuel beyond twice the length of the text changes nothing: the bound of
    [JSON_parse] is fuel enough for every text, and what it rejects is
    rejected with any fuel. *)
Lemma parse_fuel_stable (f : nat) :
  (forall s m, (2 * length s + 2 <= f)%nat -> (f <= m)%nat ->
               parse_value m s = parse_value f s)
  /\ (forall s acc m, (2 * length s + 3 <= f)%nat -> (f <= m)%nat ->
                      parse_elements m s acc = parse_elements f s acc)
  /\ (forall s acc m, (2 * length s + 3 <= f)%nat -> (f <= m)%nat ->
                      parse_members m s acc = parse_members f s acc).
Proof.
  induction f as [|n (IV & IE & IM)]; [repeat split; intros; lia|].
  repeat split.
  - intros s [|m] B M; [lia|]; cbn [parse_value].
    destruct (skip_ws s) as [|c t] eqn:W; [reflexivity|].
    apply skip_ws_cons in W.
    rewrite (IE t [] m), (IM t [] m) by lia.
    reflexivity.
  - intros s acc [|m] B M; [lia|]; cbn [parse_elements].
    rewrite (IV s m) by lia.
    destruct (parse_value n s) as [[x t]|] eqn:E; [|reflexivity].
    apply (proj1 (parse_shorter n)) in E.
    destruct (skip_ws t) as [|c t'] eqn:W; [reflexivity|].
    apply skip_ws_cons in W.
    rewrite (IE t' (x :: acc) m) by lia.
    reflexivity.
  - intros s acc [|m] B M; [lia|]; cbn [parse_members].
    destruct (head_is 34 (skip_ws s)) eqn:Q; [|reflexivity].
    apply head_is_tl in Q.
    assert (LS := length_dropwhile is_json_ws s); fold (skip_ws s) in LS.
    destruct (parse_string (tl (skip_ws s))) as [[k r1]|] eqn:E; [|reflexivity].
    apply parse_string_shorter in E.
    destruct (head_is 58 (skip_ws r1)) eqn:C; [|reflexivity].
    apply head_is_tl in C.
    assert (L1 := length_dropwhile is_json_ws r1); fold (skip_ws r1) in L1.
    rewrite (IV (tl (skip_ws r1)) m) by lia.
    destruct (parse_value n (tl (skip_ws r1))) as [[x r3]|] eqn:V; [|reflexivity].
    apply (proj1 (parse_shorter n)) in V.
    destruct (skip_ws r3) as [|c r4] eqn:W; [reflexivity|].
    apply skip_ws_cons in W.
    rewrite (IM r4 (set_prop k x acc) m) by lia.
    reflexivity.
Qed.

(** [JSON_parse] does not depend on its fuel. *)
Lemma JSON_parse_fuel (s : jstring) (f : nat) :
  (2 * length s + 2 <= f)%nat ->
  parse_value f s = parse_value (2 * length s + 2) s.
Proof. intros H; apply (proj1 (parse_fuel_stable (2 * length s + 2))); lia. Qed.

(** * Further properties *)

(** ** The persistence endpoint: reads, failures and calls *)

(** X6. Whatever the request and the service, the handler calls the service
    at most once; without the credential it does not call it at all; a call
    carries the credential, and it is a read without body for a [GET] and a
    write for a [POST]. *)
Theorem persist_calls (env : PersistEnv) (req : Request) :
  (length (calls env req) <= 1)%nat
  /\ (env_truthy (GITHUB_TOKEN env) = false -> calls env req = [])
  /\ forall c, In c (calls env req) ->
       gh_token c = env_value (GITHUB_TOKEN env)
       /\ ((method req = js "GET" /\ gh_method c = js "GET" /\ gh_body c = None)
           \/ (method req = js "POST" /\ gh_method c = js "PUT")).
Proof.
  assert (NONE : forall l : list GhRequest, l = [] ->
            (length l <= 1)%nat
            /\ (env_truthy (GITHUB_TOKEN env) = false -> l = [])
            /\ forall c, In c l ->
                 gh_token c = env_value (GITHUB_TOKEN env)
                 /\ ((method req = js "GET" /\ gh_method c = js "GET" /\ gh_body c = None)
                     \/ (method req = js "POST" /\ gh_method c = js "PUT")))
    by (intros l ->; split; [cbn; lia|split; [reflexivity|intros c []]]).
  unfold calls.
  destruct (jeqb (method req) (js "OPTIONS")) eqn:MO.
  { apply NONE; unfold persist; rewrite MO; reflexivity. }
  destruct (env_truthy (GITHUB_TOKEN env)) eqn:HT.
  2:{ apply NONE; unfold persist; rewrite MO, HT; reflexivity. }
  destruct (jeqb (method req) (js "GET")) eqn:MG.
  { apply jeqb_eq in MG.
    assert (E : snd (run (persist env req)) = [read_request (target env)]).
    { rewrite persist_get by assumption.
      unfold run, bind; rewrite getFile_run.
      destruct (github env (read_request (target env))) as [|st text]; [reflexivity|].
      destruct (st =? 404)%Z; [reflexivity|].
      destruct (negb (ok_status st)).
      { cbn [f_status f_error]; destruct (st =? 404)%Z; [reflexivity|].
        destruct (error_truthy (Some text)); [|reflexivity].
        unfold new_Response; destruct (valid_status (status_or_500 st)); reflexivity. }
      destruct (JSON_parse text) as [json|]; [|reflexivity].
      destruct (is_nullish json); [reflexivity|].
      destruct (and_then _ _); reflexivity. }
    rewrite E; split; [cbn; lia|split; [discriminate|]].
    intros c [<-|[]]; split; [reflexivity|left; auto]. }
  destruct (jeqb (method req) (js "POST")) eqn:MP.
  { apply jeqb_eq in MP.
    destruct (JSON_parse (body req)) as [b|] eqn:HB.
    - rewrite (persist_post_single_call env req b HT MP HB).
      split; [cbn; lia|split; [discriminate|]].
      intros c [<-|[]]; split; [reflexivity|right; auto].
    - apply NONE; rewrite persist_post by assumption.
      unfold run, try_catch, bind; rewrite HB; reflexivity. }
  apply NONE; unfold persist; rewrite MO, HT, MG, MP; reflexivity.
Qed.

(** X7. A read of a file that does not exist: the service answers 404 and
    the handler answers 404 with the empty collection, a null hash and the
    [notFound] mark. *)
Theorem persist_get_not_found (env : PersistEnv) (req : Request) (text : jstring) :
  env_truthy (GITHUB_TOKEN env) = true ->
  method req = js "GET" ->
  github env (read_request (target env)) = Reply 404 text ->
  run (persist env req)
  = (Some (json_response 404 [("problems", JArr []); ("sha", JNull); ("notFound", JBool true)]),
     [read_request (target env)]).
Proof.
  intros HT HM HR.
  rewrite persist_get by assumption.
  unfold run, bind; rewrite getFile_run, HR; reflexivity.
Qed.

Lemma persist_get_not_found_witness :
  let env := persist_env (Some (js "ghp_token")) (Reply 404 (js "Not Found")) in
  run (persist env (request "GET" []))
  = (Some (json_response 404 [("problems", JArr []); ("sha", JNull); ("notFound", JBool true)]),
     [read_request (target env)]).
Proof.
  cbv zeta.
  apply (persist_get_not_found
           (persist_env (Some (js "ghp_token")) (Reply 404 (js "Not Found")))
           (request "GET" []) (js "Not Found")); reflexivity.
Defined.

(** X8. A read the service refuses with a status other than 404 and an error
    text that is not empty is answered with that status (500 when the status
    is 0) and the text, when a response can carry the status. When it cannot
    (the status is outside 200..599, or 304), the constructor of the response
    throws outside any [try], and the exception escapes the handler. *)
Theorem persist_get_error (env : PersistEnv) (req : Request) (st : Z) (text : jstring) :
  env_truthy (GITHUB_TOKEN env) = true ->
  method req = js "GET" ->
  github env (read_request (target env)) = Reply st text ->
  ok_status st = false -> st <> 404%Z -> text <> [] ->
  run (persist env req)
  = (if valid_status (status_or_500 st)
     then Some (json_response (status_or_500 st) [("error", JStr text)])
     else None,
     [read_request (target env)]).
Proof.
  intros HT HM HR HO H4 HE.
  rewrite persist_get by assumption.
  unfold run, bind; rewrite getFile_run, HR.
  apply Z.eqb_neq in H4; rewrite H4, HO; cbn [negb f_status f_error].
  rewrite H4; destruct text as [|c text]; [contradiction|].
  cbn [error_truthy env_truthy env_value]; unfold new_Response.
  destruct (valid_status (status_or_500 st)); reflexivity.
Qed.

Lemma persist_get_error_witness :
  (let env := persist_env (Some (js "ghp_token")) (Reply 403 (js "rate limit exceeded")) in
   run (persist env (request "GET" []))
   = (Some (json_response 403 [("error", JStr (js "rate limit exceeded"))]),
      [read_request (target env)]))
  /\ (let env := persist_env (Some (js "ghp_token")) (Reply 304 (js "Not Modified")) in
      run (persist env (request "GET" [])) = (None, [read_request (target env)])).
Proof.
  cbv zeta; split.
  - apply (persist_get_error
             (persist_env (Some (js "ghp_token")) (Reply 403 (js "rate limit exceeded")))
             (request "GET" []) 403 (js "rate limit exceeded")); try reflexivity; discriminate.
  - vm_compute; reflexivity.
Defined.

(** X9. A read the service refuses with an empty body is not reported: the
    empty error text is falsy, and the handler answers 200 with the empty
    collection and no hash. *)
Theorem persist_get_error_empty (env : PersistEnv) (req : Request) (st : Z) :
  env_truthy (GITHUB_TOKEN env) = true ->
  method req = js "GET" ->
  github env (read_request (target env)) = Reply st [] ->
  ok_status st = false -> st <> 404%Z ->
  run (persist env req)
  = (Some (json_response 200 [("problems", JArr []); ("sha", JUndefined)]),
     [read_request (target env)]).
Proof.
  intros HT HM HR HO H4.
  rewrite persist_get by assumption.
  unfold run, bind; rewrite getFile_run, HR.
  apply Z.eqb_neq in H4; rewrite H4, HO; cbn [negb f_status f_error].
  rewrite H4; reflexivity.
Qed.

Lemma persist_get_error_empty_witness :
  let env := persist_env (Some (js "ghp_token")) (Reply 502 []) in
  run (persist env (request "GET" []))
  = (Some (json_response 200 [("problems", JArr []); ("sha", JUndefined)]),
     [read_request (target env)]).
Proof.
  cbv zeta.
  apply (persist_get_error_empty (persist_env (Some (js "ghp_token")) (Reply 502 []))
           (request "GET" []) 502); try reflexivity; discriminate.
Defined.

(** X10. A read that succeeds returns what the file holds: when the content
    of the document decodes to a JSON text, the handler answers 200 with the
    value of that text, array or not, and the hash of the document; an empty
    content counts as the empty collection. *)
Theorem persist_get_file (env : PersistEnv) (req : Request)
        (st : Z) (text : jstring) (json : JsVal) (b64 content : jstring) (v : JsVal) :
  env_truthy (GITHUB_TOKEN env) = true ->
  method req = js "GET" ->
  github env (read_request (target env)) = Reply st text ->
  ok_status st = true ->
  JSON_parse text = Some json -> is_nullish json = false ->
  String_of (or_else (get json (js "content")) (JStr (js ""))) = Some b64 ->
  fromBase64 b64 = Some content ->
  JSON_parse (if is_nil content then js "[]" else content) = Some v ->
  run (persist env req)
  = (Some (json_response 200 [("problems", v); ("sha", get json (js "sha"))]),
     [read_request (target env)]).
Proof.
  intros HT HM HR HO HJ HN HS HC HP.
  rewrite persist_get by assumption.
  unfold run, bind; rewrite getFile_run, HR.
  assert (N4 : (st =? 404)%Z = false).
  { unfold ok_status in HO; apply andb_true_iff in HO as [_ HO].
    apply Z.leb_le in HO; apply Z.eqb_neq; lia. }
  rewrite N4, HO; cbn [negb].
  rewrite HJ, HN, HS; cbn [and_then]; rewrite HC.
  cbn [f_status f_error f_content f_sha error_truthy env_truthy].
  change (200 =? 404)%Z with false; cbv iota.
  destruct content as [|c content]; cbn [env_truthy env_value is_nil] in *; now rewrite HP.
Qed.

Lemma persist_get_file_witness :
  let reply := js "{" ++ q "content" ++ js ":" ++ q "W3siaWQiOiJhMSJ9XQ==" ++ js ","
               ++ q "sha" ++ js ":" ++ q "3d21ec5" ++ js "}" in
  let env := persist_env (Some (js "ghp_token")) (Reply 200 reply) in
  run (persist env (request "GET" []))
  = (Some (json_response 200 [("problems", JArr [obj [("id", JStr (js "a1"))]]);
                              ("sha", JStr (js "3d21ec5"))]),
     [read_request (target env)]).
Proof.
  cbv zeta.
  apply (persist_get_file
           (persist_env (Some (js "ghp_token"))
              (Reply 200 (js "{" ++ q "content" ++ js ":" ++ q "W3siaWQiOiJhMSJ9XQ==" ++ js ","
                          ++ q "sha" ++ js ":" ++ q "3d21ec5" ++ js "}")))
           (request "GET" []) 200
           (js "{" ++ q "content" ++ js ":" ++ q "W3siaWQiOiJhMSJ9XQ==" ++ js ","
            ++ q "sha" ++ js ":" ++ q "3d21ec5" ++ js "}")
           (obj [("content", JStr (js "W3siaWQiOiJhMSJ9XQ==")); ("sha", JStr (js "3d21ec5"))])
           (js "W3siaWQiOiJhMSJ9XQ==") (js "[{" ++ q "id" ++ js ":" ++ q "a1" ++ js "}]"));
    reflexivity.
Defined.

(** X11. The file is written and yet the handler answers 400, as for a
    request it could not read, in three cases: the service accepts the write
    but its reply is no JSON text; its reply is the document [null]; or it
    refuses the write with an error text that is not empty and a status that
    a response cannot carry (outside 200..599, or 304). *)
Theorem persist_post_reply_unreadable (env : PersistEnv) (req : Request) (b : JsVal)
        (st : Z) (text : jstring) :
  env_truthy (GITHUB_TOKEN env) = true ->
  method req = js "POST" ->
  JSON_parse (body req) = Some b ->
  github env (posted_write env b) = Reply st text ->
  (ok_status st = true /\ (JSON_parse text = None \/ JSON_parse text = Some JNull))
  \/ (ok_status st = false /\ text <> [] /\ valid_status (status_or_500 st) = false) ->
  run (persist env req)
  = (Some (json_response 400 [("error", JStr (js "Bad request"))]), [posted_write env b]).
Proof.
  intros HT HM HB HR HC.
  rewrite persist_post by assumption.
  unfold run, try_catch, bind at 1; rewrite HB; cbn [of_option ret].
  unfold bind; rewrite putFile_run; fold (posted_write env b).
  rewrite HR; destruct HC as [[HO [HP|HP]]|[HO [HE HV]]]; rewrite HO; cbn [negb].
  - now rewrite HP.
  - now rewrite HP.
  - destruct text as [|c text]; [contradiction|].
    cbn [f_error f_status error_truthy env_truthy env_value].
    unfold new_Response; now rewrite HV.
Qed.

Lemma persist_post_reply_unreadable_witness :
  (let env := persist_env (Some (js "ghp_token")) (Reply 201 (js "Created")) in
   let req := request "POST" (js "{" ++ q "problems" ++ js ":[]}") in
   run (persist env req)
   = (Some (json_response 400 [("error", JStr (js "Bad request"))]),
      [posted_write env (obj [("problems", JArr [])])]))
  /\ (let env := persist_env (Some (js "ghp_token")) (Reply 304 (js "Not Modified")) in
      let req := request "POST" (js "{" ++ q "problems" ++ js ":[]}") in
      run (persist env req)
      = (Some (json_response 400 [("error", JStr (js "Bad request"))]),
         [posted_write env (obj [("problems", JArr [])])])).
Proof.
  cbv zeta; split.
  - apply (persist_post_reply_unreadable
             (persist_env (Some (js "ghp_token")) (Reply 201 (js "Created")))
             (request "POST" (js "{" ++ q "problems" ++ js ":[]}"))
             (obj [("problems", JArr [])]) 201 (js "Created")); try reflexivity.
    left; split; [reflexivity|left; reflexivity].
  - apply (persist_post_reply_unreadable
             (persist_env (Some (js "ghp_token")) (Reply 304 (js "Not Modified")))
             (request "POST" (js "{" ++ q "problems" ++ js ":[]}"))
             (obj [("problems", JArr [])]) 304 (js "Not Modified")); try reflexivity.
    right; split; [reflexivity|split; [discriminate|reflexivity]].
Defined.

(** ** The generation endpoint: bounds and failures *)

Lemma clamp_cases (lo hi : Z) (x : JsNum) :
  (lo <= hi)%Z -> clamp lo hi x = NaN \/ num_between lo hi (clamp lo hi x) = true.
Proof.
  intros LH; destruct x as [|n|m d]; [left; reflexivity| |];
    right; apply clamp_between; (exact LH || discriminate).
Qed.

Lemma length_slice_to_ten (A : Type) (l : list A) (c : JsNum) :
  c = NaN \/ num_between 1 10 c = true -> (length (slice_to l c) <= 10)%nat.
Proof.
  intros [->|B].
  - unfold slice_to; cbn [ToIntegerOrInfinity].
    change 0%Z with (Z.of_nat 0); rewrite slice_from_0; cbn; lia.
  - destruct c as [|n|m d]; try discriminate.
    unfold num_between in B; apply andb_true_iff in B as [B1 B2].
    apply Z.leb_le in B1, B2; assert (PD := pow10_pos d).
    assert (L := length_slice_to A l m d ltac:(nia)); nia.
Qed.

(** X12. A response of status 200 to a [POST] carries at most ten problems,
    whatever the body asked for and whatever the model returned, and its
    [problem] is the first of them, or [null] when there is none. *)
Theorem generate_at_most_ten {engine : Engine} (env : GenEnv) (req : Request) :
  method req = js "POST" ->
  status (generate env req) = 200%Z ->
  exists arr,
    payload (generate env req)
    = Json (obj [("problem", or_else (nth 0 arr JUndefined) JNull); ("problems", JArr arr)])
    /\ (length arr <= 10)%nat.
Proof.
  intros HM; unfold generate; rewrite HM.
  change (jeqb (js "POST") (js "OPTIONS")) with false.
  change (jeqb (js "POST") (js "POST")) with true; cbn [negb].
  destruct (JSON_parse (body req)) as [b|]; cbn [and_then]; [|discriminate].
  destruct (generate_body env b) as [resp|] eqn:G; [|discriminate].
  unfold generate_body in G; returned G.
  match type of G with
  | (if ?c then _ else _) = _ => destruct c
  end; [injection G as <-; discriminate|].
  returned G; injection G as <-; intros _.
  eexists; split; [reflexivity|].
  rewrite (length_map_indexed _ _ _ _ _ _ E3).
  apply length_slice_to_ten.
  unfold effective_count in E2; returned E2; injection E2 as <-.
  apply clamp_cases; lia.
Qed.

Lemma generate_at_most_ten_witness :
  let env := gen_env (Some (js "key")) (model_reply (js "[{},{}]")) in
  let req := request "POST" (js "{" ++ q "count" ++ js ":99}") in
  exists arr,
    payload (generate (engine := latin1) env req)
    = Json (obj [("problem", or_else (nth 0 arr JUndefined) JNull); ("problems", JArr arr)])
    /\ (length arr <= 10)%nat.
Proof.
  cbv zeta.
  apply (generate_at_most_ten (engine := latin1)
           (gen_env (Some (js "key")) (model_reply (js "[{},{}]")))
           (request "POST" (js "{" ++ q "count" ++ js ":99}"))); vm_compute; reflexivity.
Defined.

(** X13. A body whose [grade], [type], [theme] or [count] is an object that
    the conversions cannot print (it has a property named [toString]) is
    answered 400, before the model is asked. *)
Theorem generate_unconvertible {engine : Engine} (env : GenEnv) (req : Request) (b : JsVal) :
  method req = js "POST" ->
  JSON_parse (body req) = Some b ->
  fields_convert b = false ->
  generate env req = json_response 400 [("error", JStr (js "Bad request"))].
Proof.
  intros HM HB HC; unfold generate; rewrite HM, HB.
  change (jeqb (js "POST") (js "OPTIONS")) with false.
  change (jeqb (js "POST") (js "POST")) with true; cbn [negb and_then].
  unfold generate_body, effective_grade, effective_count, String_of, Number_of.
  unfold fields_convert in HC.
  destruct (convertible (or_else (get b (js "grade")) (JNum (Fin 1 0)))); [|reflexivity].
  destruct (convertible (or_else (get b (js "type")) (JStr (js "PPT")))); [|reflexivity].
  destruct (convertible (or_else (get b (js "theme")) (JStr (js "")))); [|reflexivity].
  destruct (convertible (or_else (get b (js "count")) (JNum (Fin 1 0)))); [discriminate|].
  reflexivity.
Qed.

Lemma generate_unconvertible_witness :
  generate (engine := latin1) (gen_env (Some (js "key")) (model_reply (js "[{}]")))
    (request "POST" (js "{" ++ q "theme" ++ js ":{" ++ q "toString" ++ js ":1}}"))
  = json_response 400 [("error", JStr (js "Bad request"))].
Proof.
  apply (generate_unconvertible (engine := latin1)
           (gen_env (Some (js "key")) (model_reply (js "[{}]")))
           (request "POST" (js "{" ++ q "theme" ++ js ":{" ++ q "toString" ++ js ":1}}"))
           (obj [("theme", obj [("toString", JNum (Fin 1 0))])])); reflexivity.
Defined.

Lemma generate_body_asks {engine : Engine} (env : GenEnv) (b : JsVal) :
  fields_convert b = true ->
  exists prompt,
    generate_body env b
    = (let result := callGemini env prompt in
       if truthy (get result (js "error")) then
         Some (json_response 500 [("error", get result (js "error"))])
       else
         do arr <- map_indexed
                     (fun i p => normalizeProblem (entropy env i) p
                                   {| grade := prompt_grade prompt; type := prompt_type prompt |})
                     0 (slice_to (elements (or_else (get result (js "problems")) (JArr [])))
                          (clamp 1 10 (ToNumber (or_else (get b (js "count")) (JNum (Fin 1 0))))));
         Some (json_response 200 [("problem", or_else (nth 0 arr JUndefined) JNull);
                                  ("problems", JArr arr)])).
Proof.
  unfold fields_convert; intros H; b2p.
  unfold generate_body, effective_grade, effective_count, String_of, Number_of.
  rewrite H, H2, H1, H0; cbn [and_then].
  exists (buildPrompt (clamp 1 6 (ToNumber (or_else (get b (js "grade")) (JNum (Fin 1 0)))))
            (toUpperCase (ToString (or_else (get b (js "type")) (JStr (js "PPT")))))
            (ToString (or_else (get b (js "theme")) (JStr (js ""))))
            (clamp 1 10 (ToNumber (or_else (get b (js "count")) (JNum (Fin 1 0)))))).
  reflexivity.
Qed.

(** X14. Without the key of the language-model service, every [POST] with a
    readable body is answered 500 with [Missing GEMINI_API_KEY]. *)
Theorem generate_missing_key {engine : Engine} (env : GenEnv) (req : Request) (b : JsVal) :
  method req = js "POST" ->
  JSON_parse (body req) = Some b ->
  fields_convert b = true ->
  env_truthy (GEMINI_API_KEY env) = false ->
  generate env req = json_response 500 [("error", JStr (js "Missing GEMINI_API_KEY"))].
Proof.
  intros HM HB HC HK; unfold generate; rewrite HM, HB.
  change (jeqb (js "POST") (js "OPTIONS")) with false.
  change (jeqb (js "POST") (js "POST")) with true; cbn [negb and_then].
  destruct (generate_body_asks env b HC) as [prompt ->]; cbv zeta.
  unfold callGemini; rewrite HK; reflexivity.
Qed.

Lemma generate_missing_key_witness :
  generate (engine := latin1) (gen_env None (model_reply (js "[{}]")))
    (request "POST" (js "{" ++ q "grade" ++ js ":3}"))
  = json_response 500 [("error", JStr (js "Missing GEMINI_API_KEY"))].
Proof.
  apply (generate_missing_key (engine := latin1) (gen_env None (model_reply (js "[{}]")))
           (request "POST" (js "{" ++ q "grade" ++ js ":3}"))
           (obj [("grade", JNum (Fin 3 0))])); reflexivity.
Defined.





(** ** Normalisation: what is kept, what is assigned *)

Lemma assigned_key_false (k : jstring) :
  assigned_key k = false ->
  jeqb k (js "id") = false /\ jeqb k (js "createdAt") = false /\ jeqb k (js "grade") = false
  /\ jeqb k (js "type") = false /\ jeqb k (js "steps") = false /\ jeqb k (js "data") = false
  /\ jeqb k (js "labels") = false /\ jeqb k (js "operation") = false
  /\ jeqb k (js "answer") = false.
Proof.
  unfold assigned_key; cbn [existsb]; intros H.
  repeat (apply orb_false_iff in H; destruct H as [? H]); auto 10.
Qed.


(** X17. [normalizeProblem] touches only the fields it assigns: every other
    field of the input (the question, the hint, the full answer, whatever
    else the model sent) is in the record with the value it had, and no
    other field is added. *)
Theorem normalizeProblem_keeps {engine : Engine} (e : Entropy) (p : JsVal) (ctx : Ctx)
        (r : JsVal) (k : jstring) :
  normalizeProblem e p ctx = Some r ->
  assigned_key k = false ->
  lookup k (spread r) = lookup k (spread p).
Proof.
  intros H HK; apply normalizeProblem_returns in H; subst r.
  destruct (assigned_key_false k HK) as (K1 & K2 & K3 & K4 & K5 & K6 & K7 & K8 & K9).
  rewrite normal_record_unfold; cbv zeta.
  destruct (jeqb _ _ && isArray _); cbn [spread].
  - rewrite !lookup_set_other by assumption.
    now apply stamped_lookup_other.
  - rewrite normal_simple_other, lookup_set_other by assumption.
    now apply stamped_lookup_other.
Qed.

Lemma normalizeProblem_keeps_witness :
  let p := obj [("question", JStr (js "How many?")); ("hint", JNull)]%string in
  let r := normal_record (engine := latin1) sample_entropy p (ctx_of 2 "PPT") in
  normalizeProblem (engine := latin1) sample_entropy p (ctx_of 2 "PPT") = Some r
  /\ lookup (js "question") (spread r) = lookup (js "question") (spread p)
  /\ lookup (js "hint") (spread r) = Some JNull
  /\ lookup (js "logicCheck") (spread r) = None.
Proof.
  cbv zeta; split; [reflexivity|].
  split; [|split; reflexivity].
  apply (normalizeProblem_keeps (engine := latin1) sample_entropy
           (obj [("question", JStr (js "How many?")); ("hint", JNull)]%string)
           (ctx_of 2 "PPT")); reflexivity.
Defined.

Lemma stamped_fields (e : Entropy) (p : JsVal) (ctx : Ctx) :
  get (JObj (stamped e p ctx)) (js "id")
  = (if truthy (get p (js "id")) then get p (js "id") else JStr (genId e))
  /\ get (JObj (stamped e p ctx)) (js "createdAt")
     = (if truthy (get p (js "createdAt")) then get p (js "createdAt") else JNum (now e))
  /\ get (JObj (stamped e p ctx)) (js "grade")
     = JNum (ToNumber (nullish (get p (js "grade")) (JNum (grade ctx))))
  /\ get (JObj (stamped e p ctx)) (js "type") = get p (js "type").
Proof.
  unfold stamped; cbv zeta.
  change (get (JObj (spread p))) with (get p).
  destruct (truthy (get p (js "id"))) eqn:TI.
  - change (get (JObj (spread p))) with (get p).
    destruct (truthy (get p (js "createdAt"))) eqn:TC.
    + change (get (JObj (spread p))) with (get p).
      rewrite get_set_same, !get_set_other by reflexivity.
      change (get (JObj (spread p))) with (get p); auto.
    + rewrite get_set_same, !get_set_other, get_set_same by reflexivity.
      rewrite !get_set_other by reflexivity.
      change (get (JObj (spread p))) with (get p); auto.
  - rewrite (get_set_other (js "createdAt") (js "id")) by reflexivity.
    change (get (JObj (spread p))) with (get p).
    destruct (truthy (get p (js "createdAt"))) eqn:TC.
    + rewrite get_set_same, !get_set_other, get_set_same by reflexivity.
      rewrite !get_set_other by reflexivity.
      change (get (JObj (spread p))) with (get p); auto.
    + rewrite get_set_same, !get_set_other, get_set_same by reflexivity.
      rewrite !get_set_other, get_set_same by reflexivity.
      rewrite !get_set_other by reflexivity.
      change (get (JObj (spread p))) with (get p); auto.
Qed.

Lemma normal_record_stamped_key {engine : Engine} (e : Entropy) (p : JsVal) (ctx : Ctx)
      (k : jstring) :
  jeqb k (js "type") = false -> jeqb k (js "steps") = false -> jeqb k (js "data") = false ->
  jeqb k (js "labels") = false -> jeqb k (js "operation") = false ->
  jeqb k (js "answer") = false ->
  get (normal_record e p ctx) k = get (JObj (stamped e p ctx)) k.
Proof.
  intros K1 K2 K3 K4 K5 K6.
  rewrite normal_record_unfold; cbv zeta.
  destruct (jeqb _ _ && isArray _).
  - now rewrite !get_set_other by assumption.
  - rewrite !get_lookup, normal_simple_other by assumption.
    now rewrite lookup_set_other by assumption.
Qed.

(** X18. The identity of a record: [id] and [createdAt] are the input's when
    those are truthy and are generated otherwise; [grade] is always a number,
    that of the input when it has one, of the request otherwise; [type] is
    always a string, the upper-cased type of the input, or of the request
    when the input's is falsy. *)
Theorem normalizeProblem_stamps {engine : Engine} (e : Entropy) (p : JsVal) (ctx : Ctx)
        (r : JsVal) :
  normalizeProblem e p ctx = Some r ->
  get r (js "id") = (if truthy (get p (js "id")) then get p (js "id") else JStr (genId e))
  /\ get r (js "createdAt")
     = (if truthy (get p (js "createdAt")) then get p (js "createdAt") else JNum (now e))
  /\ get r (js "grade") = JNum (ToNumber (nullish (get p (js "grade")) (JNum (grade ctx))))
  /\ get r (js "type")
     = JStr (toUpperCase (ToString (or_else (get p (js "type")) (JStr (type ctx))))).
Proof.
  intros H; apply normalizeProblem_returns in H; subst r.
  destruct (stamped_fields e p ctx) as (S1 & S2 & S3 & S4).
  rewrite !normal_record_stamped_key by reflexivity.
  rewrite normal_record_type; unfold record_type; rewrite S4; auto.
Qed.

Lemma normalizeProblem_stamps_witness :
  let p := obj [("id", JStr (js "abc")); ("createdAt", JNum (Fin 0 0));
                ("grade", JStr (js "4")); ("type", JStr (js "cambio"))]%string in
  let r := normal_record (engine := latin1) sample_entropy p (ctx_of 2 "PPT") in
  normalizeProblem (engine := latin1) sample_entropy p (ctx_of 2 "PPT") = Some r
  /\ get r (js "id") = JStr (js "abc")
  /\ get r (js "createdAt") = JNum (now sample_entropy)
  /\ get r (js "grade") = JNum (Fin 4 0)
  /\ get r (js "type") = JStr (js "CAMBIO").
Proof.
  cbv zeta; split; [reflexivity|].
  apply (normalizeProblem_stamps (engine := latin1) sample_entropy
           (obj [("id", JStr (js "abc")); ("createdAt", JNum (Fin 0 0));
                 ("grade", JStr (js "4")); ("type", JStr (js "cambio"))]%string)
           (ctx_of 2 "PPT")); reflexivity.
Defined.







(** X20. [coerceStr] is idempotent: what it returns is a string that it
    returns unchanged. *)
Theorem coerceStr_idempotent (v : JsVal) (s : jstring) :
  coerceStr v = Some s -> coerceStr (JStr s) = Some s.
Proof.
  intros H; apply coerceStr_returns in H; subst s.
  now rewrite coerceStr_string, coercion_idem.
Qed.

Lemma coerceStr_idempotent_witness :
  coerceStr (JStr (js "12,5 kg")) = Some (js "12.5")
  /\ coerceStr (JStr (js "12.5")) = Some (js "12.5").
Proof.
  split; [reflexivity|].
  apply (coerceStr_idempotent (JStr (js "12,5 kg"))); reflexivity.
Defined.

(** Reading a field off [{...(x || {})}] is reading it off [x]. *)
Lemma get_spread_or (x : JsVal) (k : jstring) :
  get (JObj (spread (or_else x (JObj [])))) k = get x k.
Proof.
  unfold or_else; destruct (truthy x) eqn:T; [reflexivity|].
  destruct x as [| |b|n|s|l|o]; try reflexivity; try discriminate.
  destruct s; [reflexivity|discriminate].
Qed.

(** X21. The fields of a simple record of a known type, read off the input:
    each of the two operands of [data] is [coerceStr] of the input's, the
    result is [coerceStr] of the input's or of ['?'] when the input has none
    (so a missing operand becomes [''] and a missing result ['?']), [answer]
    is [coerceStr] of the input's, and [labels] are the input's when truthy
    and the captions of the type otherwise. *)
Theorem normalizeProblem_fields {engine : Engine} (e : Entropy) (p : JsVal) (ctx : Ctx)
        (r : JsVal) (ka kb kt : jstring) :
  normalizeProblem e p ctx = Some r ->
  type_keys (ToString (get r (js "type"))) = Some [ka; kb; kt] ->
  exists x y z a,
    coerceStr (get (get p (js "data")) ka) = Some x
    /\ coerceStr (get (get p (js "data")) kb) = Some y
    /\ coerceStr (nullish (get (get p (js "data")) kt) (JStr (js "?"))) = Some z
    /\ coerceStr (get p (js "answer")) = Some a
    /\ get r (js "data") = JObj [(ka, JStr x); (kb, JStr y); (kt, JStr z)]
    /\ get r (js "answer") = JStr a
    /\ get r (js "labels")
       = or_else (get p (js "labels")) (get defaults (ToString (get r (js "type")))).
Proof.
  intros H HK.
  assert (B := normalizeProblem_branch e p ctx r H); cbv zeta in B.
  assert (R := normalizeProblem_returns e p ctx r H).
  assert (TY : ToString (get r (js "type")) = record_type e p ctx)
    by (rewrite R, normal_record_type; reflexivity).
  rewrite TY in *; clear TY R.
  set (ty := record_type e p ctx) in *.
  set (out := set_prop (js "type") (JStr ty) (stamped e p ctx)) in *.
  assert (ND : jeqb ty (js "DOS_OPERACIONES") = false).
  { apply type_keys_cases in HK as [[-> _]|[[-> _]|[[-> _]|[-> _]]]]; reflexivity. }
  rewrite ND in B; cbn [andb] in B; returned B; injection B as <-.
  assert (OD : get (JObj out) (js "data") = get p (js "data"))
    by (unfold get at 1 2; cbn [spread]; unfold out, ty; now rewrite record_data).
  assert (OK : forall k, jeqb k (js "id") = false -> jeqb k (js "createdAt") = false ->
                         jeqb k (js "grade") = false -> jeqb k (js "type") = false ->
                         get (JObj out) k = get p k).
  { intros k K1 K2 K3 K4; unfold get at 1 2; cbn [spread]; unfold out.
    rewrite lookup_set_other by assumption; now rewrite stamped_lookup_other. }
  unfold normalizeSimple in E; returned E.
  destruct (with_data_shape ty _ HK) as (a & b & t & EK & _ & _ & _ & _ & SH).
  injection EK as -> -> ->.
  assert (W := assign_data_returns _ _ _ _ E0).
  rewrite SH in E0; returned E0; injection E0 as <-.
  unfold data_literal in E2; returned E2; injection E2 as <-.
  rewrite OD, !get_spread_or in E0, E3, E4.
  assert (GL : get (JObj (set_prop (js "data")
                            (obj [(a, JStr j1); (b, JStr j2); (t, JStr j3)]) out)) (js "labels")
               = get p (js "labels"))
    by (rewrite get_set_other by reflexivity; now apply OK).
  assert (DT : truthy (get defaults ty) = true).
  { apply type_keys_cases in HK as [[K _]|[[K _]|[[K _]|[K _]]]]; rewrite K; reflexivity. }
  rewrite !get_set_other in E1 by reflexivity.
  rewrite (OK (js "answer")) in E1 by reflexivity.
  injection E as <-.
  exists j1, j2, j3, j; repeat split; try assumption.
  - now rewrite !get_set_other, get_set_same by reflexivity.
  - apply get_set_same.
  - rewrite !get_set_other, get_set_same, GL by reflexivity.
    unfold or_else at 1.
    destruct (truthy (or_else (get p (js "labels")) (get defaults ty))) eqn:T; [reflexivity|].
    unfold or_else in T; destruct (truthy (get p (js "labels"))) eqn:T2; congruence.
Qed.

Lemma normalizeProblem_fields_witness :
  let p := obj [("type", JStr (js "comparacion"));
                ("data", obj [("cm", JNum (Fin 12 0))]); ("answer", JStr (js "5 kg"))]%string in
  let r := normal_record (engine := latin1) sample_entropy p (ctx_of 2 "PPT") in
  normalizeProblem (engine := latin1) sample_entropy p (ctx_of 2 "PPT") = Some r
  /\ get r (js "data")
     = obj [("cm", JStr (js "12")); ("cmen", JStr (js "")); ("d", JStr (js "?"))]
  /\ exists x y z a,
       coerceStr (get (get p (js "data")) (js "cm")) = Some x
       /\ coerceStr (get (get p (js "data")) (js "cmen")) = Some y
       /\ coerceStr (nullish (get (get p (js "data")) (js "d")) (JStr (js "?"))) = Some z
       /\ coerceStr (get p (js "answer")) = Some a
       /\ get r (js "data") = JObj [(js "cm", JStr x); (js "cmen", JStr y); (js "d", JStr z)]
       /\ get r (js "answer") = JStr a
       /\ get r (js "labels")
          = or_else (get p (js "labels")) (get defaults (ToString (get r (js "type")))).
Proof.
  cbv zeta; split; [reflexivity|]; split; [reflexivity|].
  apply (normalizeProblem_fields (engine := latin1) sample_entropy
           (obj [("type", JStr (js "comparacion"));
                 ("data", obj [("cm", JNum (Fin 12 0))]); ("answer", JStr (js "5 kg"))]%string)
           (ctx_of 2 "PPT")); reflexivity.
Defined.

(** X22. A record made from nothing: on an input without properties (a
    number, [null], the empty object or array) and a request type of the
    table, [normalizeProblem] returns the record with a generated [id], the
    time as [createdAt], the grade and the type of the request, blank
    operands and the unknown ['?'] as result, the captions of the type, the
    operation [+] and a blank answer, in that order. *)
Theorem normalizeProblem_from_nothing {engine : Engine} (e : Entropy) (p : JsVal) (ctx : Ctx)
        (ka kb kt : jstring) :
  spread p = [] ->
  type_keys (toUpperCase (type ctx)) = Some [ka; kb; kt] ->
  normalizeProblem e p ctx
  = Some (JObj [(js "id", JStr (genId e));
                (js "createdAt", JNum (now e));
                (js "grade", JNum (grade ctx));
                (js "type", JStr (toUpperCase (type ctx)));
                (js "data", JObj [(ka, JStr (js "")); (kb, JStr (js "")); (kt, JStr (js "?"))]);
                (js "labels", get defaults (toUpperCase (type ctx)));
                (js "operation", JStr (js "+"));
                (js "answer", JStr (js ""))]).
Proof.
  intros HS HK.
  unfold normalizeProblem; rewrite HS; cbv zeta.
  change (truthy (get (JObj []) (js "id"))) with false; cbv iota.
  change (truthy (get (JObj (set_prop (js "id") (JStr (genId e)) [])) (js "createdAt")))
    with false; cbv iota.
  change (Number_of _) with (Some (grade ctx)); cbn [and_then].
  match goal with
  | |- and_then (String_of (or_else ?x (JStr (type ctx)))) _ = _ =>
      change x with JUndefined
  end.
  change (or_else JUndefined (JStr (type ctx))) with (JStr (type ctx)).
  rewrite String_of_string; cbn [and_then].
  apply type_keys_cases in HK as [[-> [= -> -> ->]]|[[-> [= -> -> ->]]|[[-> [= -> -> ->]]|[-> [= -> -> ->]]]]];
    reflexivity.
Qed.

Lemma normalizeProblem_from_nothing_witness :
  normalizeProblem (engine := latin1) later_entropy JNull (ctx_of 3 "uvt")
  = Some (JObj [(js "id", JStr (genId later_entropy));
                (js "createdAt", JNum (now later_entropy));
                (js "grade", JNum (grade (ctx_of 3 "uvt")));
                (js "type", JStr (@toUpperCase latin1 (type (ctx_of 3 "uvt"))));
                (js "data", JObj [(js "u", JStr (js "")); (js "v", JStr (js ""));
                                  (js "t", JStr (js "?"))]);
                (js "labels", get defaults (@toUpperCase latin1 (type (ctx_of 3 "uvt"))));
                (js "operation", JStr (js "+"));
                (js "answer", JStr (js ""))]).
Proof.
  apply (normalizeProblem_from_nothing (engine := latin1) later_entropy JNull (ctx_of 3 "uvt"));
    reflexivity.
Defined.

(** ** Extraction: replies without fences, replies with one object *)

(** A text without a backtick has no fence: the fence step keeps it. *)
Lemma fence_content_plain (t : jstring) : no_backtick t = true -> fence_content t = t.
Proof.
  intros H; unfold fence_content; cbv zeta.
  assert (E : indexOf t (js "```") = (-1)%Z).
  { unfold indexOf; change (js "```") with (96%N :: [96%N; 96%N]).
    rewrite <- (List.app_nil_r t), indexOf_from_skip by exact H.
    reflexivity. }
  now rewrite E.
Qed.

(** The bracket step on an object between bracket-free texts keeps the
    object. *)
Lemma brace_span_wrapped (a M b : jstring) :
  no_bracket a = true -> no_bracket b = true ->
  bracket_span (a ++ (123%N :: M ++ [125%N]) ++ b) = 123%N :: M ++ [125%N].
Proof.
  intros HA HB.
  destruct (no_bracket_parts a HA) as (A1 & A2 & A3 & A4).
  destruct (no_bracket_parts b HB) as (B1 & B2 & B3 & B4).
  set (J := 123%N :: M ++ [125%N]).
  assert (E1 : indexOf (a ++ J ++ b) (js "{") = Z.of_nat (length a)).
  { unfold indexOf; change (js "{") with [123%N].
    rewrite indexOf_from_skip by exact A3.
    now rewrite indexOf_from_here by reflexivity. }
  assert (E2 : indexOf (a ++ J ++ b) (js "[") = (-1)%Z
               \/ (Z.of_nat (length a) <= indexOf (a ++ J ++ b) (js "["))%Z).
  { unfold indexOf; change (js "[") with [91%N].
    rewrite indexOf_from_skip by exact A1.
    apply indexOf_from_range. }
  assert (E3 : lastIndexOf (a ++ J ++ b) (js "}") = Z.of_nat (length a + length M + 1)).
  { unfold lastIndexOf; change (js "}") with [125%N].
    replace (a ++ J ++ b) with (((a ++ 123%N :: M) ++ [125%N]) ++ b)
      by (unfold J; list_assoc).
    rewrite lastIndexOf_from_single_tail by exact B4.
    rewrite lastIndexOf_from_single_end, length_app; cbn [length]; f_equal; lia. }
  assert (E4 : (lastIndexOf (a ++ J ++ b) (js "]") <= Z.of_nat (length a + length M + 1))%Z).
  { unfold lastIndexOf; change (js "]") with [93%N].
    rewrite app_assoc, lastIndexOf_from_single_tail by exact B2.
    destruct (lastIndexOf_from_bound 93 [] (a ++ J) 0 ltac:(lia)) as [E|E]; [lia|].
    unfold J in *; rewrite !length_app in E; cbn [length] in E; rewrite length_app in E.
    cbn [length] in E; lia. }
  assert (E5 : slice (a ++ J ++ b) (Z.of_nat (length a))
                 (Z.of_nat (length a + length M + 1) + 1) = J).
  { replace (Z.of_nat (length a + length M + 1) + 1)%Z
      with (Z.of_nat (length a + length J))
      by (unfold J; cbn [length]; rewrite length_app; cbn [length]; lia).
    apply slice_middle. }
  unfold bracket_span; cbv zeta; fold J.
  rewrite E1, E3, (Z.max_r _ _ E4).
  assert (F : nth_error
                (sort_ascending
                   (filter (fun i => (0 <=? i)%Z)
                      [indexOf (a ++ J ++ b) (js "["); Z.of_nat (length a)])) 0
              = Some (Z.of_nat (length a))).
  { cbn [filter].
    replace (0 <=? Z.of_nat (length a))%Z with true by (symmetry; apply Z.leb_le; lia).
    destruct (0 <=? indexOf (a ++ J ++ b) (js "["))%Z eqn:Q; [|reflexivity].
    apply Z.leb_le in Q.
    cbn [sort_ascending fold_right insert_sorted].
    destruct (Z.leb_spec (indexOf (a ++ J ++ b) (js "[")) (Z.of_nat (length a))) as [L|L];
      cbn [nth_error]; [f_equal|reflexivity].
    destruct E2 as [E2|E2]; lia. }
  rewrite F.
  replace (0 <=? Z.of_nat (length a))%Z with true by (symmetry; apply Z.leb_le; lia).
  replace (Z.of_nat (length a) <=? Z.of_nat (length a + length M + 1))%Z with true
    by (symmetry; apply Z.leb_le; lia).
  cbn [andb]; rewrite E5.
  unfold J; change (123%N :: M ++ [125%N]) with ([] ++ 123%N :: M ++ 125%N :: []).
  now rewrite trim_core.
Qed.

Lemma stringify_object_shape (o : props) :
  jsonable (JObj o) = true -> exists M, JSON_stringify (JObj o) = 123%N :: M ++ [125%N].
Proof.
  cbn [jsonable]; intros J; apply andb_true_iff in J as [J _].
  unfold JSON_stringify; rewrite serialize_object by exact J.
  destruct o as [|kv o]; [exists []; reflexivity|].
  eexists; reflexivity.
Qed.

(** The steps of the extractor on a text without a backtick whose payload
    stands between bracket-free prose. *)
Lemma extract_unfenced (v : JsVal) (prefix suffix M : jstring) (o c : N) :
  (o = 91%N /\ c = 93%N) \/ (o = 123%N /\ c = 125%N) ->
  JSON_parse (o :: M ++ [c]) = Some v ->
  no_bracket prefix = true -> no_bracket suffix = true ->
  no_backtick (prefix ++ (o :: M ++ [c]) ++ suffix) = true ->
  extractProblemsFromText (JStr (prefix ++ (o :: M ++ [c]) ++ suffix))
  = Some (if isArray v then elements v else [v]).
Proof.
  intros HO PJ HP HS HB.
  unfold extractProblemsFromText; cbv zeta.
  assert (T : truthy (JStr (prefix ++ (o :: M ++ [c]) ++ suffix)) = true)
    by (destruct prefix; reflexivity).
  rewrite (or_else_truthy _ _ T), String_of_string; cbn [and_then].
  assert (NW : is_space o = false /\ is_space c = false)
    by (destruct HO as [[-> ->]|[-> ->]]; split; reflexivity).
  assert (E0 : trim (prefix ++ (o :: M ++ [c]) ++ suffix)
               = trimStart prefix ++ (o :: M ++ [c]) ++ trimEnd suffix).
  { replace (prefix ++ (o :: M ++ [c]) ++ suffix) with (prefix ++ o :: M ++ c :: suffix)
      by list_assoc.
    rewrite trim_core by apply NW.
    list_assoc. }
  assert (HB' : no_backtick (trimStart prefix ++ (o :: M ++ [c]) ++ trimEnd suffix) = true).
  { unfold no_backtick, no_unit in *.
    rewrite !forallb_app in *.
    apply andb_true_iff in HB as [B1 B2]; apply andb_true_iff in B2 as [B2 B3].
    rewrite B2, forallb_trimStart, forallb_trimEnd by assumption; reflexivity. }
  rewrite E0, fence_content_plain by exact HB'.
  destruct HO as [[-> ->]|[-> ->]].
  - rewrite bracket_span_wrapped
      by (apply no_bracket_trimStart || apply no_bracket_trimEnd; assumption).
    unfold parse_lenient; now rewrite PJ.
  - rewrite brace_span_wrapped
      by (apply no_bracket_trimStart || apply no_bracket_trimEnd; assumption).
    unfold parse_lenient; now rewrite PJ.
Qed.

(** X23. Fences are optional: an array of values that survive serialisation,
    written by [JSON.stringify] between prose without bracket or brace, in a
    text without a backtick, is recovered by [extractProblemsFromText]. *)
Theorem extractProblemsFromText_unfenced (arr : list JsVal) (prefix suffix : jstring) :
  forallb jsonable arr = true ->
  no_bracket prefix = true -> no_bracket suffix = true ->
  no_backtick (prefix ++ JSON_stringify (JArr arr) ++ suffix) = true ->
  extractProblemsFromText (JStr (prefix ++ JSON_stringify (JArr arr) ++ suffix)) = Some arr.
Proof.
  intros HJ HP HS HB.
  destruct (stringify_array_shape arr) as (M & EM).
  assert (PJ : JSON_parse (91%N :: M ++ [93%N]) = Some (JArr arr))
    by (rewrite <- EM; now apply JSON_parse_stringify).
  rewrite EM in *.
  now rewrite (extract_unfenced (JArr arr) prefix suffix M 91 93) by auto.
Qed.

Lemma extractProblemsFromText_unfenced_witness :
  extractProblemsFromText
    (JStr (js "Claro, aqui tienes: "
           ++ JSON_stringify
                (JArr [obj [("type", JStr (js "PPT")); ("answer", JStr (js "7"))]%string;
                       obj [("type", JStr (js "UVT")); ("answer", JStr (js "12"))]%string])
           ++ js " Espero que sirva."))
  = Some [obj [("type", JStr (js "PPT")); ("answer", JStr (js "7"))]%string;
          obj [("type", JStr (js "UVT")); ("answer", JStr (js "12"))]%string].
Proof.
  apply (extractProblemsFromText_unfenced
           [obj [("type", JStr (js "PPT")); ("answer", JStr (js "7"))]%string;
            obj [("type", JStr (js "UVT")); ("answer", JStr (js "12"))]%string]
           (js "Claro, aqui tienes: ") (js " Espero que sirva.")); reflexivity.
Defined.

(** X24. A reply that holds one object instead of an array gives the array of
    that object: the serialised object between prose without bracket or
    brace, in a text without a backtick, is extracted as a list of one. *)
Theorem extractProblemsFromText_single_object (o : props) (prefix suffix : jstring) :
  jsonable (JObj o) = true ->
  no_bracket prefix = true -> no_bracket suffix = true ->
  no_backtick (prefix ++ JSON_stringify (JObj o) ++ suffix) = true ->
  extractProblemsFromText (JStr (prefix ++ JSON_stringify (JObj o) ++ suffix))
  = Some [JObj o].
Proof.
  intros HJ HP HS HB.
  destruct (stringify_object_shape o HJ) as (M & EM).
  assert (PJ : JSON_parse (123%N :: M ++ [125%N]) = Some (JObj o))
    by (rewrite <- EM; now apply JSON_parse_stringify).
  rewrite EM in *.
  now rewrite (extract_unfenced (JObj o) prefix suffix M 123 125) by auto.
Qed.

Lemma extractProblemsFromText_single_object_witness :
  extractProblemsFromText
    (JStr (js "Un problema: "
           ++ JSON_stringify (obj [("type", JStr (js "CAMBIO")); ("answer", JStr (js "3"))]%string)
           ++ js ""))
  = Some [obj [("type", JStr (js "CAMBIO")); ("answer", JStr (js "3"))]%string].
Proof.
  apply (extractProblemsFromText_single_object
           [(js "type", JStr (js "CAMBIO")); (js "answer", JStr (js "3"))]
           (js "Un problema: ") (js "")); reflexivity.
Defined.

(** ** Base64 and UTF-8: what is written can be read *)

(** *** Base64 *)

Lemma b64_char_value (n : N) :
  (n < 64)%N -> b64_value (b64_char n) = n.
Proof.
  intros H.
  assert (A : forallb (fun k => (b64_value (b64_char k) =? k)%N)
                (map N.of_nat (seq 0 64)) = true) by (vm_compute; reflexivity).
  rewrite forallb_forall in A.
  apply N.eqb_eq, A, in_map_iff.
  exists (N.to_nat n); split; [apply N2Nat.id|].
  apply in_seq; lia.
Qed.

Lemma b64_value_no_space (c : N) : (b64_value c <? 64)%N = true -> is_ascii_ws c = false.
Proof.
  intros H; destruct (is_ascii_ws c) eqn:W; [|reflexivity].
  unfold is_ascii_ws in W.
  repeat (apply orb_true_iff in W as [W|W]); apply N.eqb_eq in W; subst c; discriminate.
Qed.

Lemma b64_value_no_pad (c : N) : (b64_value c <? 64)%N = true -> c <> 61%N.
Proof. intros H ->; discriminate. Qed.

(** A match on the padding sign falls through on any other unit. *)
Ltac probe x :=
  let p := fresh "p" in
  destruct x as [|p]; [reflexivity|];
  do 8 (try (destruct p as [p|p|]; try reflexivity)).

Lemma strip_padding_other (x : N) (r s : jstring) :
  x <> 61%N ->
  match x :: r with
  | 61%N :: 61%N :: r' => rev r'
  | 61%N :: r' => rev r'
  | _ => s
  end = s.
Proof. intros H; probe x; contradiction. Qed.

Lemma strip_padding_one (r : jstring) :
  forallb (fun c => (b64_value c <? 64)%N) r = true ->
  match 61%N :: r with
  | 61%N :: 61%N :: r' => rev r'
  | 61%N :: r' => rev r'
  | _ => []
  end = rev r.
Proof.
  destruct r as [|x r]; [reflexivity|].
  cbn [forallb]; intros H; apply andb_true_iff in H as [H _].
  apply b64_value_no_pad in H.
  probe x; contradiction.
Qed.

(** The decoder on an encoded body and its padding. *)
Lemma atob_padded (body pad : jstring) (k : nat) :
  forallb (fun c => (b64_value c <? 64)%N) body = true ->
  pad = [] \/ pad = [61%N] \/ pad = [61%N; 61%N] ->
  length (body ++ pad) = (4 * k)%nat ->
  atob (body ++ pad) = Some (b64_groups body).
Proof.
  intros HB HP HL; unfold atob; cbv zeta.
  assert (F : filter (fun c => negb (is_ascii_ws c)) (body ++ pad) = body ++ pad).
  { apply forallb_filter_id.
    rewrite forallb_app; apply andb_true_iff; split.
    - rewrite forallb_forall in *; intros c HC.
      now rewrite (b64_value_no_space c (HB c HC)).
    - destruct HP as [->|[->| ->]]; reflexivity. }
  rewrite F.
  replace (length (body ++ pad) mod 4 =? 0)%nat with true
    by (symmetry; apply Nat.eqb_eq; rewrite HL, Nat.mul_comm; apply Nat.Div0.mod_mul).
  assert (RB : forallb (fun c => (b64_value c <? 64)%N) (rev body) = true)
    by (now rewrite forallb_rev).
  assert (S : match rev (body ++ pad) with
              | 61%N :: 61%N :: r' => rev r'
              | 61%N :: r' => rev r'
              | _ => body ++ pad
              end = body).
  { rewrite rev_app_distr.
    destruct HP as [->|[->| ->]]; cbn [rev app].
    - rewrite List.app_nil_r.
      destruct (rev body) as [|x r] eqn:E; [reflexivity|].
      cbn [forallb] in RB; apply andb_true_iff in RB as [RB _].
      apply strip_padding_other, b64_value_no_pad, RB.
    - destruct (rev body) as [|x r] eqn:E.
      + apply (f_equal (@rev N)) in E; rewrite rev_involutive in E; now subst body.
      + cbn [forallb] in RB; apply andb_true_iff in RB as [RB _].
        apply b64_value_no_pad in RB.
        rewrite <- (rev_involutive body), E.
        clear - RB; probe x; contradiction.
    - now rewrite rev_involutive. }
  rewrite S.
  assert (L : (length body mod 4 =? 1)%nat = false).
  { apply Nat.eqb_neq; rewrite length_app in HL.
    intros Q.
    assert (D := Nat.div_mod_eq (length body) 4).
    destruct HP as [->|[->| ->]]; cbn [length] in HL; lia. }
  now rewrite L, HB.
Qed.

(** Lists, three elements at a time. *)
Lemma list_ind3 (A : Type) (P : list A -> Prop) :
  P [] -> (forall a, P [a]) -> (forall a b, P [a; b]) ->
  (forall a b c r, P r -> P (a :: b :: c :: r)) ->
  forall l, P l.
Proof.
  intros H0 H1 H2 H3 l.
  assert (G : P l /\ (forall a, P (a :: l)) /\ (forall a b, P (a :: b :: l))).
  { induction l as [|x l (I0 & I1 & I2)]; [auto|].
    split; [apply I1|]; split; [intros a; apply I2|].
    intros a b; apply H3, I0. }
  apply G.
Qed.

Ltac name_division x d :=
  let H := fresh "D" in
  let H' := fresh "M" in
  assert (H := N.Div0.div_mod x d);
  assert (H' := N.mod_lt x d ltac:(discriminate));
  generalize dependent (x / d)%N; generalize dependent (x mod d)%N; intros.

(** What [btoa] writes: a body of base64 characters that decodes to the
    bytes, and its padding. *)
Lemma btoa_shape (l : list N) :
  octets l = true ->
  exists body pad k,
    btoa l = body ++ pad
    /\ forallb (fun c => (b64_value c <? 64)%N) body = true
    /\ (pad = [] \/ pad = [61%N] \/ pad = [61%N; 61%N])
    /\ length (body ++ pad) = (4 * k)%nat
    /\ b64_groups body = l.
Proof.
  unfold octets; induction l as [|a|a b|a b c r IH] using list_ind3.
  - intros _; exists [], [], 0%nat; repeat split; auto.
  - cbn [forallb]; intros H; apply andb_true_iff in H as [HA _]; apply N.ltb_lt in HA.
    exists [b64_char (a / 4); b64_char (a mod 4 * 16)]%N, [61%N; 61%N], 1%nat.
    cbn [btoa app forallb b64_groups length].
    name_division a 4%N.
    rewrite !b64_char_value by lia.
    repeat split; auto.
    + apply andb_true_iff; split; [apply N.ltb_lt; lia|].
      apply andb_true_iff; split; [apply N.ltb_lt; lia|reflexivity].
    + f_equal; symmetry; apply N.div_unique with (r := 0%N); lia.
  - cbn [forallb]; intros H; apply andb_true_iff in H as [HA H].
    apply andb_true_iff in H as [HB _]; apply N.ltb_lt in HA, HB.
    exists [b64_char (a / 4); b64_char (a mod 4 * 16 + b / 16); b64_char (b mod 16 * 4)]%N,
           [61%N], 1%nat.
    cbn [btoa app forallb b64_groups length].
    name_division a 4%N; name_division b 16%N.
    rewrite !b64_char_value by lia.
    repeat split; auto.
    + repeat (apply andb_true_iff; split; [apply N.ltb_lt; lia|]); reflexivity.
    + replace (n0 * 4096 + (n * 16 + n2) * 64 + n1 * 4)%N with ((b + a * 256) * 4)%N by lia.
      f_equal; [symmetry; apply N.div_unique with (r := (b * 4)%N); lia|].
      f_equal.
      rewrite N.div_mul by discriminate.
      rewrite N.Div0.mod_add; apply N.mod_small; lia.
  - cbn [forallb]; intros H; apply andb_true_iff in H as [HA H].
    apply andb_true_iff in H as [HB H]; apply andb_true_iff in H as [HC HR].
    apply N.ltb_lt in HA, HB, HC.
    destruct (IH HR) as (body & pad & k & E1 & E2 & E3 & E4 & E5).
    exists ([b64_char (a / 4); b64_char (a mod 4 * 16 + b / 16);
             b64_char (b mod 16 * 4 + c / 64); b64_char (c mod 64)]%N ++ body), pad, (S k).
    cbn [btoa app forallb b64_groups length] in *.
    name_division a 4%N; name_division b 16%N; name_division c 64%N.
    rewrite !b64_char_value by lia.
    rewrite E1, E5.
    repeat split; auto.
    + repeat (apply andb_true_iff; split; [apply N.ltb_lt; lia|]); exact E2.
    + lia.
    + replace (n0 * 262144 + (n * 16 + n2) * 4096 + (n1 * 4 + n4) * 64 + n3)%N
        with (c + b * 256 + a * 65536)%N by lia.
      f_equal; [symmetry; apply N.div_unique with (r := (c + b * 256)%N); lia|].
      f_equal; [|f_equal].
      * replace (c + b * 256 + a * 65536)%N with (c + (b + a * 256) * 256)%N by lia.
        rewrite N.div_add by discriminate.
        rewrite (N.div_small c) by lia.
        cbn [N.add]; rewrite N.Div0.mod_add; apply N.mod_small; lia.
      * replace (c + b * 256 + a * 65536)%N with (c + (b + a * 256) * 256)%N by lia.
        rewrite N.Div0.mod_add; apply N.mod_small; lia.
Qed.

(** [atob] reads what [btoa] wrote. *)
Lemma atob_btoa (l : list N) : octets l = true -> atob (btoa l) = Some l.
Proof.
  intros H; destruct (btoa_shape l H) as (body & pad & k & E1 & E2 & E3 & E4 & E5).
  rewrite E1, (atob_padded body pad k) by assumption.
  now rewrite E5.
Qed.

(** *** UTF-8 *)

Ltac split_tests :=
  repeat match goal with
         | |- context [(?x =? ?y)%N] => destruct (N.eqb_spec x y); try lia; cbv iota
         | |- context [(?x <=? ?y)%N] => destruct (N.leb_spec x y); try lia; cbv iota
         | |- context [(?x <? ?y)%N] => destruct (N.ltb_spec x y); try lia; cbv iota
         end.

Lemma scalar_range (cp : N) :
  scalar cp = true -> (cp < 1114112 /\ (cp < 55296 \/ 57343 < cp))%N.
Proof.
  unfold scalar, is_high_surrogate, is_low_surrogate; intros H.
  apply andb_true_iff in H as [H H3]; apply andb_true_iff in H as [H1 H2].
  apply N.ltb_lt in H1; split; [exact H1|].
  revert H2 H3; split_tests; cbn; intros; try discriminate; lia.
Qed.

Ltac outer_if :=
  match goal with
  | |- (if ?b then _ else _) = _ =>
      let T := fresh "T" in
      destruct b eqn:T; try solve [exfalso; unfold continuation in *; b2p; lia]
  end.

(** The decoder on a well-formed sequence of one, two, three and four
    bytes. *)
Lemma utf8_decode_1 (a : N) (r : list N) :
  (a < 128)%N -> utf8_decode (a :: r) = a :: utf8_decode r.
Proof. intros H; cbn [utf8_decode]; outer_if; reflexivity. Qed.

Lemma utf8_decode_2 (a b : N) (r : list N) :
  (194 <= a <= 223)%N -> (128 <= b <= 191)%N ->
  utf8_decode (a :: b :: r) = ((a - 192) * 64 + (b - 128))%N :: utf8_decode r.
Proof. intros HA HB; cbn [utf8_decode]; repeat outer_if; reflexivity. Qed.

Lemma utf8_decode_3 (a b c : N) (r : list N) :
  (224 <= a <= 239)%N -> (128 <= b <= 191)%N -> (128 <= c <= 191)%N ->
  (a = 224 -> 160 <= b)%N -> (a = 237 -> b <= 159)%N ->
  utf8_decode (a :: b :: c :: r)
  = ((a - 224) * 4096 + (b - 128) * 64 + (c - 128))%N :: utf8_decode r.
Proof.
  intros HA HB HC H0 H1; cbn [utf8_decode].
  destruct (N.eqb_spec a 224) as [E0|E0]; destruct (N.eqb_spec a 237) as [E1|E1];
    try lia; try specialize (H0 E0); try specialize (H1 E1);
    repeat outer_if; reflexivity.
Qed.

Lemma utf8_decode_4 (a b c d : N) (r : list N) :
  (240 <= a <= 244)%N -> (128 <= b <= 191)%N -> (128 <= c <= 191)%N -> (128 <= d <= 191)%N ->
  (a = 240 -> 144 <= b)%N -> (a = 244 -> b <= 143)%N ->
  utf8_decode (a :: b :: c :: d :: r)
  = code_units ((a - 240) * 262144 + (b - 128) * 4096 + (c - 128) * 64 + (d - 128))%N
    ++ utf8_decode r.
Proof.
  intros HA HB HC HD H0 H1; cbn [utf8_decode].
  destruct (N.eqb_spec a 240) as [E0|E0]; destruct (N.eqb_spec a 244) as [E1|E1];
    try lia; try specialize (H0 E0); try specialize (H1 E1);
    repeat outer_if; reflexivity.
Qed.

Lemma octets_list (l : list N) : Forall (fun b => (b < 256)%N) l -> octets l = true.
Proof.
  unfold octets; induction 1 as [|b l HB _ IH]; [reflexivity|].
  cbn [forallb]; rewrite IH, andb_true_r; now apply N.ltb_lt.
Qed.

(** The decoder reads the bytes of a code point as its code units, and the
    bytes of a code point are bytes. *)
Lemma utf8_decode_bytes (cp : N) (rest : list N) :
  scalar cp = true ->
  utf8_decode (utf8_bytes cp ++ rest) = code_units cp ++ utf8_decode rest
  /\ octets (utf8_bytes cp) = true.
Proof.
  intros H; apply scalar_range in H as [H1 H2].
  unfold utf8_bytes.
  destruct (N.ltb_spec cp 128) as [L1|L1].
  { split; [|apply octets_list; repeat constructor; lia].
    cbn [app]; rewrite utf8_decode_1 by lia.
    unfold code_units; now replace (cp <? 65536)%N with true by (symmetry; apply N.ltb_lt; lia). }
  destruct (N.ltb_spec cp 2048) as [L2|L2].
  { name_division cp 64%N.
    split; [|apply octets_list; repeat constructor; lia].
    cbn [app]; rewrite utf8_decode_2 by lia.
    unfold code_units; replace (cp <? 65536)%N with true by (symmetry; apply N.ltb_lt; lia).
    cbn [app]; f_equal; lia. }
  destruct (N.ltb_spec cp 65536) as [L3|L3].
  { replace (cp / 4096)%N with (cp / 64 / 64)%N
      by (rewrite N.Div0.div_div; reflexivity).
    name_division (cp / 64)%N 64%N; name_division cp 64%N.
    split; [|apply octets_list; repeat constructor; lia].
    cbn [app]; rewrite utf8_decode_3 by lia.
    unfold code_units; replace (cp <? 65536)%N with true by (symmetry; apply N.ltb_lt; lia).
    cbn [app]; f_equal; lia. }
  replace (cp / 262144)%N with (cp / 64 / 64 / 64)%N
    by (rewrite !N.Div0.div_div; reflexivity).
  replace (cp / 4096)%N with (cp / 64 / 64)%N
    by (rewrite N.Div0.div_div; reflexivity).
  name_division (cp / 64 / 64)%N 64%N; name_division (cp / 64)%N 64%N; name_division cp 64%N.
  split; [|apply octets_list; repeat constructor; lia].
  cbn [app]; rewrite utf8_decode_4 by lia.
  do 2 f_equal; lia.
Qed.

Lemma encode_single (c : N) (r : jstring) :
  is_high_surrogate c = false ->
  TextEncoder_encode (c :: r)
  = (if is_low_surrogate c then utf8_bytes 65533 else utf8_bytes c) ++ TextEncoder_encode r.
Proof.
  intros H; cbn [TextEncoder_encode]; rewrite H; cbn [orb andb].
  destruct r; [now rewrite List.app_nil_r|reflexivity].
Qed.

Lemma encode_pair (c c2 : N) (r : jstring) :
  is_high_surrogate c = true -> is_low_surrogate c2 = true ->
  TextEncoder_encode (c :: c2 :: r)
  = utf8_bytes (65536 + (c - 55296) * 1024 + (c2 - 56320))%N ++ TextEncoder_encode r.
Proof. intros H1 H2; cbn [TextEncoder_encode]; now rewrite H1, H2. Qed.

Lemma surrogate_ranges (c c2 : N) :
  is_high_surrogate c = true -> is_low_surrogate c2 = true ->
  (55296 <= c <= 56319 /\ 56320 <= c2 <= 57343)%N.
Proof.
  unfold is_high_surrogate, is_low_surrogate; intros H1 H2.
  apply andb_true_iff in H1 as [A B], H2 as [C D].
  apply N.leb_le in A, B, C, D; lia.
Qed.

(** The code point of a surrogate pair is a scalar value, and its code units
    are the pair. *)
Lemma pair_code_units (c c2 : N) :
  is_high_surrogate c = true -> is_low_surrogate c2 = true ->
  scalar (65536 + (c - 55296) * 1024 + (c2 - 56320))%N = true
  /\ code_units (65536 + (c - 55296) * 1024 + (c2 - 56320))%N = [c; c2].
Proof.
  intros H1 H2; destruct (surrogate_ranges c c2 H1 H2) as [R1 R2].
  unfold scalar, code_units, is_high_surrogate, is_low_surrogate.
  replace (65536 + (c - 55296) * 1024 + (c2 - 56320) - 65536)%N
    with ((c2 - 56320) + (c - 55296) * 1024)%N by lia.
  rewrite N.div_add, N.Div0.mod_add, N.div_small, N.mod_small by lia.
  split; [split_tests; reflexivity|].
  split_tests; do 2 f_equal; lia.
Qed.

(** Encoding a well-formed string gives bytes that decode to it. *)
Lemma encode_decode (n : nat) :
  forall s, (length s <= n)%nat -> well_formed s = true ->
            utf8_decode (TextEncoder_encode s) = s /\ octets (TextEncoder_encode s) = true.
Proof.
  induction n as [|n IH]; intros s HL HW.
  { destruct s; [split; reflexivity|cbn [length] in HL; lia]. }
  destruct s as [|c r]; [split; reflexivity|].
  cbn [well_formed] in HW.
  destruct (is_high_surrogate c) eqn:HH.
  - destruct r as [|c2 r2]; [discriminate|].
    apply andb_true_iff in HW as [HC HW].
    destruct (IH r2 ltac:(cbn [length] in HL; lia) HW) as [I1 I2].
    destruct (pair_code_units c c2 HH HC) as [S1 S2].
    destruct (utf8_decode_bytes _ (TextEncoder_encode r2) S1) as [D1 D2].
    rewrite encode_pair by assumption.
    split.
    + now rewrite D1, S2, I1.
    + unfold octets in *; now rewrite forallb_app, D2, I2.
  - apply andb_true_iff in HW as [HC HW]; apply andb_true_iff in HC as [HC HB].
    apply negb_true_iff in HC.
    destruct (IH r ltac:(cbn [length] in HL; lia) HW) as [I1 I2].
    assert (S1 : scalar c = true).
    { unfold scalar; rewrite HH, HC.
      apply N.ltb_lt in HB.
      replace (c <? 1114112)%N with true by (symmetry; apply N.ltb_lt; lia); reflexivity. }
    destruct (utf8_decode_bytes _ (TextEncoder_encode r) S1) as [D1 D2].
    rewrite encode_single, HC by assumption.
    split.
    + rewrite D1, I1; unfold code_units; now rewrite HB.
    + unfold octets in *; now rewrite forallb_app, D2, I2.
Qed.

(** The decoder drops a leading byte order mark, and only that. *)
Lemma TextDecoder_decode_test (bytes : list N) :
  TextDecoder_decode bytes
  = if starts_with [239; 187; 191]%N bytes then utf8_decode (skipn 3 bytes)
    else utf8_decode bytes.
Proof.
  unfold TextDecoder_decode.
  destruct bytes as [|a bytes]; [reflexivity|]; probe a.
  destruct bytes as [|b bytes]; [reflexivity|]; probe b.
  destruct bytes as [|c bytes]; [reflexivity|]; probe c.
Qed.

(** The bytes of a well-formed string start with the bytes of the byte order
    mark only when the string starts with the mark. *)
Lemma encode_mark (s : jstring) :
  well_formed s = true -> starts_with [byte_order_mark] s = false ->
  starts_with [239; 187; 191]%N (TextEncoder_encode s) = false.
Proof.
  intros HW HS; destruct s as [|c r]; [reflexivity|].
  cbn [well_formed] in HW; cbn [starts_with] in HS.
  rewrite andb_true_r in HS; apply N.eqb_neq in HS; unfold byte_order_mark in HS.
  destruct (is_high_surrogate c) eqn:HH.
  - destruct r as [|c2 r2]; [discriminate|].
    apply andb_true_iff in HW as [HC HW].
    destruct (surrogate_ranges c c2 HH HC) as [R1 R2].
    rewrite encode_pair by assumption.
    unfold utf8_bytes; split_tests.
    cbn [app starts_with].
    match goal with
    | |- context [(239 =? 240 + ?q)%N] => generalize q; intros q'
    end.
    replace (239 =? 240 + q')%N with false by (symmetry; apply N.eqb_neq; lia).
    reflexivity.
  - apply andb_true_iff in HW as [HC HW]; apply andb_true_iff in HC as [HC HB].
    apply negb_true_iff in HC; apply N.ltb_lt in HB.
    rewrite encode_single, HC by assumption.
    unfold utf8_bytes.
    destruct (N.ltb_spec c 128); [cbn [app starts_with]; split_tests; reflexivity|].
    destruct (N.ltb_spec c 2048).
    { cbn [app starts_with]; name_division c 64%N; split_tests; reflexivity. }
    destruct (N.ltb_spec c 65536); [|lia].
    replace (c / 4096)%N with (c / 64 / 64)%N by (rewrite N.Div0.div_div; reflexivity).
    cbn [app starts_with].
    name_division (c / 64)%N 64%N; name_division c 64%N; split_tests; reflexivity.
Qed.

(** Decoding what was encoded. *)
Lemma read_written (s : jstring) :
  well_formed s = true -> starts_with [byte_order_mark] s = false ->
  fromBase64 (toBase64 s) = Some s.
Proof.
  intros HW HS.
  destruct (encode_decode (length s) s (le_n _) HW) as [D O].
  unfold fromBase64, toBase64.
  rewrite atob_btoa by exact O.
  now rewrite TextDecoder_decode_test, encode_mark, D.
Qed.

(** X25. What [toBase64] writes, [fromBase64] reads: a string without a lone
    surrogate that does not start with the byte order mark comes back
    unchanged. *)
Theorem fromBase64_toBase64 (s : jstring) :
  well_formed s = true -> starts_with [byte_order_mark] s = false ->
  fromBase64 (toBase64 s) = Some s.
Proof. exact (read_written s). Qed.

Lemma fromBase64_toBase64_witness :
  fromBase64 (toBase64 (js "[{" ++ [241; 55357; 56832; 8364]%N ++ js "}]"))
  = Some (js "[{" ++ [241; 55357; 56832; 8364]%N ++ js "}]").
Proof.
  apply (fromBase64_toBase64 (js "[{" ++ [241; 55357; 56832; 8364]%N ++ js "}]"));
    reflexivity.
Defined.

(** X26. A leading byte order mark does not survive: [toBase64] writes it,
    [fromBase64] reads the string without it. *)
Theorem fromBase64_drops_mark (s : jstring) :
  well_formed s = true ->
  fromBase64 (toBase64 (byte_order_mark :: s)) = Some s.
Proof.
  intros HW.
  destruct (encode_decode (length s) s (le_n _) HW) as [D O].
  unfold fromBase64, toBase64.
  rewrite encode_single by reflexivity.
  change (if is_low_surrogate byte_order_mark then utf8_bytes 65533
          else utf8_bytes byte_order_mark) with [239; 187; 191]%N.
  rewrite atob_btoa by exact O.
  exact (f_equal Some D).
Qed.

Lemma fromBase64_drops_mark_witness :
  fromBase64 (toBase64 (byte_order_mark :: js "[]")) = Some (js "[]").
Proof. apply (fromBase64_drops_mark (js "[]")); reflexivity. Defined.

(** *** What a write carries *)

Lemma posted_problems_text (b : JsVal) :
  exists r, JSON_stringify_2 (posted_problems b) = 91%N :: r.
Proof.
  assert (A : forall l, exists r, JSON_stringify_2 (JArr l) = 91%N :: r)
    by (intros [|x l]; eexists; reflexivity).
  unfold posted_problems.
  destruct (isArray (get b (js "problems"))) eqn:E; [|apply A].
  destruct (get b (js "problems")); try discriminate; apply A.
Qed.

Lemma written_base64_posted (env : PersistEnv) (b : JsVal) :
  written_base64 (posted_write env b)
  = JStr (toBase64 (JSON_stringify_2 (posted_problems b))).
Proof.
  unfold written_base64, posted_write, write_request; cbn [gh_body].
  destruct (truthy (or_else (get b (js "sha")) JUndefined)); [|reflexivity].
  now rewrite get_set_other by reflexivity.
Qed.

(** X27. What a save writes: a [POST] with a JSON body, when the credential
    is configured, makes one call whose content, decoded, is the posted
    problems serialised with an indentation of two spaces (the empty array
    when [problems] is no array), provided that text has no lone surrogate. *)
Theorem persist_post_content (env : PersistEnv) (req : Request) (b : JsVal) :
  env_truthy (GITHUB_TOKEN env) = true ->
  method req = js "POST" ->
  JSON_parse (body req) = Some b ->
  well_formed (JSON_stringify_2 (posted_problems b)) = true ->
  map written_content (calls env req) = [Some (JSON_stringify_2 (posted_problems b))].
Proof.
  intros HT HM HB HW.
  unfold calls; rewrite (persist_post_single_call env req b HT HM HB).
  cbn [map]; f_equal.
  assert (E : written_content (posted_write env b)
              = fromBase64 (ToString (written_base64 (posted_write env b))))
    by reflexivity.
  rewrite E, written_base64_posted; cbn [ToString].
  destruct (posted_problems_text b) as (r & ER).
  apply read_written; [exact HW|now rewrite ER].
Qed.

Lemma persist_post_content_witness :
  let env := persist_env (Some (js "ghp_token")) (Reply 200 (js "{}")) in
  let req := request "POST" (js "{" ++ q "problems" ++ js ":[{" ++ q "answer" ++ js ":"
                             ++ q "7" ++ js "}]}") in
  map written_content (calls env req)
  = [Some (JSON_stringify_2 (JArr [obj [("answer", JStr (js "7"))]%string]))].
Proof.
  cbv zeta.
  apply (persist_post_content
           (persist_env (Some (js "ghp_token")) (Reply 200 (js "{}")))
           (request "POST" (js "{" ++ q "problems" ++ js ":[{" ++ q "answer" ++ js ":"
                            ++ q "7" ++ js "}]}"))
           (obj [("problems", JArr [obj [("answer", JStr (js "7"))]])]%string));
    reflexivity.
Defined.

(** ** The indented serialisation reads back *)

Lemma skip_ws_blank (w s : jstring) : blank w = true -> skip_ws (w ++ s) = skip_ws s.
Proof.
  unfold blank, skip_ws; induction w as [|c w IH]; [reflexivity|].
  cbn [forallb app dropwhile]; intros H; apply andb_true_iff in H as [H1 H2].
  now rewrite H1, IH.
Qed.

Lemma skip_ws_stop (c : N) (r : jstring) : is_json_ws c = false -> skip_ws (c :: r) = c :: r.
Proof. intros H; unfold skip_ws; cbn [dropwhile]; now rewrite H. Qed.

(** The parser of values starts after the whitespace. *)
Lemma parse_value_blank (n : nat) (w s : jstring) :
  blank w = true -> parse_value n (w ++ s) = parse_value n s.
Proof.
  intros H; destruct n as [|n]; [reflexivity|].
  cbn [parse_value]; now rewrite skip_ws_blank.
Qed.

Lemma blank_app (a b : jstring) : blank a = true -> blank b = true -> blank (a ++ b) = true.
Proof. unfold blank; intros HA HB; now rewrite forallb_app, HA, HB. Qed.

Lemma separated_stops (rest : jstring) : separated rest -> stops number_unit rest.
Proof.
  destruct rest as [|c rest]; cbn [separated stops]; [auto|].
  unfold delimiter, is_json_ws; intros H; b2p; subst; reflexivity.
Qed.

Lemma serialize_2_array (indent : jstring) (l : list JsVal) :
  serialize (js "  ") indent (JArr l)
  = match l with
    | [] => js "[]"
    | _ => [91; 10]%N ++ (indent ++ js "  ")
           ++ join ([44; 10]%N ++ indent ++ js "  ")
                (map (serialize (js "  ") (indent ++ js "  ")) l)
           ++ [10%N] ++ indent ++ js "]"
    end.
Proof. destruct l; reflexivity. Qed.

Lemma members_all_2 (inner : jstring) (o : props) :
  forallb (fun kv => jsonable (snd kv)) o = true ->
  flat_map (fun kv => if is_undefined (snd kv) then []
                      else [quote (fst kv) ++ js ": " ++ serialize (js "  ") inner (snd kv)]) o
  = map (member_2 inner) o.
Proof.
  induction o as [|kv o IH]; [reflexivity|].
  cbn [forallb flat_map map]; intros J; apply andb_true_iff in J as [J1 J2].
  rewrite (jsonable_defined _ J1), IH by exact J2; reflexivity.
Qed.

Lemma serialize_2_object (indent : jstring) (o : props) :
  forallb (fun kv => jsonable (snd kv)) o = true ->
  serialize (js "  ") indent (JObj o)
  = match o with
    | [] => js "{}"
    | _ => [123; 10]%N ++ (indent ++ js "  ")
           ++ join ([44; 10]%N ++ indent ++ js "  ") (map (member_2 (indent ++ js "  ")) o)
           ++ [10%N] ++ indent ++ js "}"
    end.
Proof.
  intros J.
  change (serialize (js "  ") indent (JObj o))
    with (match flat_map (fun kv => if is_undefined (snd kv) then []
                                    else [quote (fst kv) ++ js ": "
                                          ++ serialize (js "  ") (indent ++ js "  ") (snd kv)]) o
          with
          | [] => js "{}"
          | _ :: _ => [123; 10]%N ++ (indent ++ js "  ")
                      ++ join ([44; 10]%N ++ indent ++ js "  ")
                           (flat_map (fun kv => if is_undefined (snd kv) then []
                                                else [quote (fst kv) ++ js ": "
                                                      ++ serialize (js "  ") (indent ++ js "  ")
                                                           (snd kv)]) o)
                      ++ [10%N] ++ indent ++ js "}"
          end).
  rewrite members_all_2 by exact J.
  destruct o; reflexivity.
Qed.

Lemma serialize_2_start (indent : jstring) (v : JsVal) :
  jsonable v = true ->
  exists c r, serialize (js "  ") indent v = c :: r /\ value_start c = true.
Proof.
  destruct v as [| |[|]|[| n |m [|d]]|s|l|o]; cbn [jsonable]; try discriminate; intros J.
  - exists 110%N; eexists; split; reflexivity.
  - exists 116%N; eexists; split; reflexivity.
  - exists 102%N; eexists; split; reflexivity.
  - apply Nat.leb_le in J.
    destruct (Number_toString_start m J) as (c & r & E & S).
    exists c, r; split; [exact E|].
    unfold value_start; apply orb_true_iff in S as [S|S]; rewrite S;
      repeat (rewrite ?orb_true_r, ?orb_true_l); reflexivity.
  - exists 34%N; eexists; split; reflexivity.
  - exists 91%N; rewrite serialize_2_array; destruct l; eexists; split; reflexivity.
  - apply andb_true_iff in J as [J _].
    exists 123%N; rewrite serialize_2_object by exact J.
    destruct o; eexists; split; reflexivity.
Qed.

(** The elements of an indented array, after the opening bracket. *)
Lemma parse_elements_serialize_2 (l : list JsVal) :
  Forall (fun v => jsonable v = true ->
                   forall n indent rest, (parse_fuel v <= n)%nat -> blank indent = true ->
                   separated rest ->
                   parse_value n (serialize (js "  ") indent v ++ rest) = Some (v, rest)) l ->
  forallb jsonable l = true -> l <> [] ->
  forall n acc indent w rest,
    (elements_fuel l <= n)%nat -> blank indent = true -> blank w = true ->
    parse_elements n
      (w ++ join ([44; 10]%N ++ indent ++ js "  ")
              (map (serialize (js "  ") (indent ++ js "  ")) l)
         ++ [10%N] ++ indent ++ js "]" ++ rest) acc
    = Some (JArr (rev acc ++ l), rest).
Proof.
  induction 1 as [|v l HV HL IH]; [congruence|].
  cbn [forallb]; intros J _ n acc indent w rest F BI BW; apply andb_true_iff in J as [JV JL].
  cbn [elements_fuel fold_right] in F; fold (elements_fuel l) in F.
  destruct n as [|n]; [lia|].
  assert (BN : blank (indent ++ js "  ") = true) by (apply blank_app; [exact BI|reflexivity]).
  cbn [parse_elements]; rewrite parse_value_blank by exact BW.
  destruct l as [|v' l'].
  - cbn [join map].
    rewrite (HV JV n (indent ++ js "  ") ([10%N] ++ indent ++ js "]" ++ rest))
      by (try lia; try exact BN; reflexivity).
    change ([10%N] ++ indent ++ js "]" ++ rest) with ((10%N :: indent) ++ 93%N :: rest).
    rewrite skip_ws_blank, skip_ws_stop by (try reflexivity; exact BI).
    reflexivity.
  - change (join ([44; 10]%N ++ indent ++ js "  ")
              (map (serialize (js "  ") (indent ++ js "  ")) (v :: v' :: l')))
      with (serialize (js "  ") (indent ++ js "  ") v
            ++ ([44; 10]%N ++ indent ++ js "  ")
            ++ join ([44; 10]%N ++ indent ++ js "  ")
                 (map (serialize (js "  ") (indent ++ js "  ")) (v' :: l'))).
    set (rest' := [10%N] ++ indent ++ js "]" ++ rest).
    set (items := join ([44; 10]%N ++ indent ++ js "  ")
                    (map (serialize (js "  ") (indent ++ js "  ")) (v' :: l'))).
    replace ((serialize (js "  ") (indent ++ js "  ") v
              ++ ([44; 10]%N ++ indent ++ js "  ") ++ items) ++ rest')
      with (serialize (js "  ") (indent ++ js "  ") v
            ++ 44%N :: (10%N :: indent ++ js "  ") ++ items ++ rest')
      by (cbn [app]; rewrite <- !app_assoc; cbn [app]; now rewrite <- !app_assoc).
    rewrite (HV JV n) by (try lia; try exact BN; reflexivity).
    rewrite skip_ws_stop by reflexivity.
    change (44 =? 44)%N with true; cbv iota.
    etransitivity;
      [apply (IH JL ltac:(discriminate) n (v :: acc) indent (10%N :: indent ++ js "  ") rest);
       try lia; assumption|].
    cbn [rev]; now rewrite <- app_assoc.
Qed.

(** One member of an indented object, and what the parser does after it. *)
Lemma parse_members_step_2 (n : nat) (w inner : jstring) (k : jstring) (x : JsVal)
      (acc : props) (tail : jstring) :
  blank w = true ->
  parse_value n (serialize (js "  ") inner x ++ tail) = Some (x, tail) ->
  parse_members (S n) (w ++ member_2 inner (k, x) ++ tail) acc
  = match skip_ws tail with
    | c :: r4 =>
        if (c =? 44)%N then parse_members n r4 (set_prop k x acc)
        else if (c =? 125)%N then Some (JObj (set_prop k x acc), r4)
        else None
    | [] => None
    end.
Proof.
  intros BW HV.
  replace (member_2 inner (k, x) ++ tail)
    with (34%N :: quote_units k ++ 34%N :: 58%N :: [32%N] ++ serialize (js "  ") inner x ++ tail)
    by (unfold member_2, quote; cbn [fst snd js list_ascii_of_string map app];
        rewrite <- !app_assoc; reflexivity).
  cbn [parse_members].
  rewrite skip_ws_blank, skip_ws_stop by (try reflexivity; exact BW).
  cbn [head_is tl].
  change (34 =? 34)%N with true; cbv iota.
  rewrite quote_units_parse.
  rewrite skip_ws_stop by reflexivity; cbn [head_is tl].
  change (58 =? 58)%N with true; cbv iota.
  rewrite parse_value_blank by reflexivity.
  now rewrite HV.
Qed.

Lemma parse_members_serialize_2 (o : props) :
  Forall (fun kv => jsonable (snd kv) = true ->
                    forall n indent rest, (parse_fuel (snd kv) <= n)%nat ->
                    blank indent = true -> separated rest ->
                    parse_value n (serialize (js "  ") indent (snd kv) ++ rest)
                    = Some (snd kv, rest)) o ->
  forallb (fun kv => jsonable (snd kv)) o = true -> o <> [] ->
  forall n acc indent w rest,
    (members_fuel o <= n)%nat -> blank indent = true -> blank w = true ->
    parse_members n
      (w ++ join ([44; 10]%N ++ indent ++ js "  ") (map (member_2 (indent ++ js "  ")) o)
         ++ [10%N] ++ indent ++ js "}" ++ rest) acc
    = Some (JObj (define_all o acc), rest).
Proof.
  induction 1 as [|[k x] o HV HL IH]; [congruence|].
  cbn [forallb snd]; intros J _ n acc indent w rest F BI BW; apply andb_true_iff in J as [JV JL].
  cbn [members_fuel fold_right snd] in F; fold (members_fuel o) in F.
  cbn [snd] in HV.
  destruct n as [|n]; [lia|].
  assert (BN : blank (indent ++ js "  ") = true) by (apply blank_app; [exact BI|reflexivity]).
  destruct o as [|kv' o'].
  - cbn [map join].
    rewrite parse_members_step_2;
      [|exact BW|apply (HV JV); [lia|exact BN|reflexivity]].
    change ([10%N] ++ indent ++ js "}" ++ rest) with ((10%N :: indent) ++ 125%N :: rest).
    rewrite skip_ws_blank, skip_ws_stop by (try reflexivity; exact BI).
    reflexivity.
  - change (join ([44; 10]%N ++ indent ++ js "  ")
              (map (member_2 (indent ++ js "  ")) ((k, x) :: kv' :: o')))
      with (member_2 (indent ++ js "  ") (k, x)
            ++ ([44; 10]%N ++ indent ++ js "  ")
            ++ join ([44; 10]%N ++ indent ++ js "  ")
                 (map (member_2 (indent ++ js "  ")) (kv' :: o'))).
    set (rest' := [10%N] ++ indent ++ js "}" ++ rest).
    set (items := join ([44; 10]%N ++ indent ++ js "  ")
                    (map (member_2 (indent ++ js "  ")) (kv' :: o'))).
    replace ((member_2 (indent ++ js "  ") (k, x)
              ++ ([44; 10]%N ++ indent ++ js "  ") ++ items) ++ rest')
      with (member_2 (indent ++ js "  ") (k, x)
            ++ 44%N :: (10%N :: indent ++ js "  ") ++ items ++ rest')
      by (cbn [app]; rewrite <- !app_assoc; cbn [app]; now rewrite <- !app_assoc).
    rewrite parse_members_step_2;
      [|exact BW|apply (HV JV); [lia|exact BN|reflexivity]].
    rewrite skip_ws_stop by reflexivity.
    change (44 =? 44)%N with true; cbv iota.
    etransitivity;
      [apply (IH JL ltac:(discriminate) n (set_prop k x acc) indent
                 (10%N :: indent ++ js "  ") rest);
       try lia; assumption|reflexivity].
Qed.

(** The text [JSON.stringify(v, null, 2)] writes for a value at any
    indentation reads back as the value, up to the text that follows it. *)
Lemma parse_value_serialize_2 (v : JsVal) :
  jsonable v = true ->
  forall n indent rest, (parse_fuel v <= n)%nat -> blank indent = true -> separated rest ->
  parse_value n (serialize (js "  ") indent v ++ rest) = Some (v, rest).
Proof.
  induction v as [| |b|x|s|l IH|o IH] using JsVal_ind; cbn [jsonable];
    intros J n indent rest F BI D.
  - discriminate.
  - destruct n as [|n]; [cbn in F; lia|reflexivity].
  - destruct n as [|n]; [cbn in F; lia|destruct b; reflexivity].
  - destruct x as [|i|m [|d]]; try discriminate.
    apply Nat.leb_le in J.
    destruct n as [|n]; [cbn in F; lia|].
    cbn [serialize].
    destruct (Number_toString_start m J) as (c & r & E & S).
    rewrite E; cbn [app]; rewrite parse_value_number by exact S.
    change (c :: r ++ rest) with ((c :: r) ++ rest); rewrite <- E.
    now rewrite parse_number_integer by (try assumption; now apply separated_stops).
  - destruct n as [|n]; [cbn in F; lia|].
    change (serialize (js "  ") indent (JStr s) ++ rest)
      with (34%N :: (quote_units s ++ [34%N]) ++ rest).
    rewrite <- app_assoc; cbn [app parse_value].
    change (skip_ws (34%N :: ?t)) with (34%N :: t).
    change (34 =? 123)%N with false; change (34 =? 91)%N with false;
      change (34 =? 34)%N with true; cbv iota.
    now rewrite quote_units_parse.
  - rewrite serialize_2_array.
    destruct n as [|n]; [cbn in F; lia|].
    destruct l as [|v l]; [reflexivity|].
    cbn [parse_fuel] in F; fold (elements_fuel (v :: l)) in F.
    assert (BN : blank (indent ++ js "  ") = true)
      by (apply blank_app; [exact BI|reflexivity]).
    assert (HS : exists c r, serialize (js "  ") (indent ++ js "  ") v = c :: r
                             /\ value_start c = true).
    { apply serialize_2_start. cbn [forallb] in J. now apply andb_true_iff in J as [J _]. }
    destruct HS as (c & r & E & S).
    set (items := join ([44; 10]%N ++ indent ++ js "  ")
                    (map (serialize (js "  ") (indent ++ js "  ")) (v :: l))).
    replace (([91; 10]%N ++ (indent ++ js "  ") ++ items ++ [10%N] ++ indent ++ js "]") ++ rest)
      with (91%N :: (10%N :: indent ++ js "  ") ++ items ++ [10%N] ++ indent ++ js "]" ++ rest)
      by (cbn [app]; rewrite <- !app_assoc; cbn [app]; now rewrite <- !app_assoc).
    cbn [parse_value].
    change (skip_ws (91%N :: ?t)) with (91%N :: t).
    change (91 =? 123)%N with false; change (91 =? 91)%N with true; cbv iota.
    assert (BW : blank (10%N :: indent ++ js "  ") = true)
      by (change (10%N :: indent ++ js "  ") with ([10%N] ++ indent ++ js "  ");
          apply blank_app; [reflexivity|exact BN]).
    assert (HH : exists t, items ++ [10%N] ++ indent ++ js "]" ++ rest = c :: t).
    { unfold items; cbn [map join]; rewrite E.
      destruct (map (serialize (js "  ") (indent ++ js "  ")) l); eexists; reflexivity. }
    destruct HH as (t & HH).
    rewrite skip_ws_blank by exact BW.
    rewrite HH, skip_ws_start by exact S; cbn [head_is].
    destruct (value_start_not_close c S) as [NC _]; rewrite NC.
    rewrite <- HH; unfold items.
    now rewrite parse_elements_serialize_2 by (try assumption; try discriminate; lia).
  - apply andb_true_iff in J as [JV JK].
    rewrite serialize_2_object by exact JV.
    destruct n as [|n]; [cbn in F; lia|].
    destruct o as [|[k x] o]; [reflexivity|].
    cbn [parse_fuel] in F; fold (members_fuel ((k, x) :: o)) in F.
    assert (BN : blank (indent ++ js "  ") = true)
      by (apply blank_app; [exact BI|reflexivity]).
    set (items := join ([44; 10]%N ++ indent ++ js "  ")
                    (map (member_2 (indent ++ js "  ")) ((k, x) :: o))).
    replace (([123; 10]%N ++ (indent ++ js "  ") ++ items ++ [10%N] ++ indent ++ js "}") ++ rest)
      with (123%N :: (10%N :: indent ++ js "  ") ++ items ++ [10%N] ++ indent ++ js "}" ++ rest)
      by (cbn [app]; rewrite <- !app_assoc; cbn [app]; now rewrite <- !app_assoc).
    cbn [parse_value].
    change (skip_ws (123%N :: ?t)) with (123%N :: t).
    change (123 =? 123)%N with true; cbv iota.
    assert (BW : blank (10%N :: indent ++ js "  ") = true)
      by (change (10%N :: indent ++ js "  ") with ([10%N] ++ indent ++ js "  ");
          apply blank_app; [reflexivity|exact BN]).
    assert (HH : exists t, items ++ [10%N] ++ indent ++ js "}" ++ rest = 34%N :: t).
    { unfold items; cbn [map join]; destruct (map (member_2 (indent ++ js "  ")) o);
        eexists; reflexivity. }
    destruct HH as (t & HH).
    rewrite skip_ws_blank by exact BW.
    rewrite HH; change (skip_ws (34%N :: t)) with (34%N :: t); cbn [head_is].
    change (34 =? 125)%N with false; cbv iota.
    rewrite <- HH; unfold items.
    rewrite parse_members_serialize_2 by (try assumption; try discriminate; lia).
    now rewrite define_all_plain by exact JK.
Qed.

(** [JSON.parse(JSON.stringify(v, null, 2))] is [v] for every value that
    survives serialisation. *)
Lemma JSON_parse_stringify_2 (v : JsVal) :
  jsonable v = true -> JSON_parse (JSON_stringify_2 v) = Some v.
Proof.
  intros J; unfold JSON_parse, JSON_stringify_2.
  set (s := serialize (js "  ") [] v).
  assert (P : parse_value (Nat.max (parse_fuel v) (2 * length s + 2)) (s ++ []) = Some (v, []))
    by (apply parse_value_serialize_2; [exact J|lia|reflexivity|exact I]).
  rewrite List.app_nil_r in P.
  rewrite <- (JSON_parse_fuel s (Nat.max (parse_fuel v) (2 * length s + 2))) by lia.
  now rewrite P.
Qed.

(** [atob] skips whitespace. *)
Lemma atob_unbroken (s : jstring) : atob s = atob (unbroken s).
Proof.
  unfold atob, unbroken; cbv zeta.
  assert (E : filter (fun c => negb (is_ascii_ws c)) (filter (fun c => negb (is_ascii_ws c)) s)
              = filter (fun c => negb (is_ascii_ws c)) s).
  { induction s as [|c s IH]; [reflexivity|].
    cbn [filter]; destruct (negb (is_ascii_ws c)) eqn:W; [|exact IH].
    cbn [filter]; now rewrite W, IH. }
  now rewrite E.
Qed.

(** X28. What a save wrote, a load returns: when the service answers a read
    with a document whose content is, up to the line breaks and spaces the
    service puts into it, the content of the write a [POST] of the body [b]
    made, the handler answers 200 with the problems of [b] and the hash of
    the document, provided these problems survive serialisation and their
    text has no lone surrogate. *)
Theorem persist_get_saved (env0 env : PersistEnv) (req : Request) (b : JsVal)
        (st : Z) (text : jstring) (json : JsVal) (content : jstring) :
  env_truthy (GITHUB_TOKEN env) = true ->
  method req = js "GET" ->
  github env (read_request (target env)) = Reply st text ->
  ok_status st = true ->
  JSON_parse text = Some json ->
  get json (js "content") = JStr content ->
  JStr (unbroken content) = written_base64 (posted_write env0 b) ->
  jsonable (posted_problems b) = true ->
  well_formed (JSON_stringify_2 (posted_problems b)) = true ->
  run (persist env req)
  = (Some (json_response 200 [("problems", posted_problems b); ("sha", get json (js "sha"))]),
     [read_request (target env)]).
Proof.
  intros HT HM HR HO HJ HC HU HV HW.
  rewrite written_base64_posted in HU; injection HU as HU.
  destruct (posted_problems_text b) as (r & ER).
  rewrite persist_get by assumption.
  unfold run, bind; rewrite getFile_run, HR.
  assert (N4 : (st =? 404)%Z = false).
  { unfold ok_status in HO; apply andb_true_iff in HO as [_ HO].
    apply Z.leb_le in HO; apply Z.eqb_neq; lia. }
  assert (HN : is_nullish json = false) by (destruct json; try reflexivity; discriminate).
  rewrite N4, HO; cbn [negb].
  rewrite HJ, HN, HC.
  assert (OE : forall x, or_else (JStr x) (JStr (js "")) = JStr x)
    by (intros [|c x]; reflexivity).
  rewrite OE, String_of_string; cbn [and_then].
  unfold fromBase64 at 1; rewrite atob_unbroken, HU.
  fold (fromBase64 (toBase64 (JSON_stringify_2 (posted_problems b)))).
  rewrite read_written by (try exact HW; now rewrite ER).
  cbn [f_status f_error f_content f_sha error_truthy env_truthy].
  change (200 =? 404)%Z with false; cbv iota.
  rewrite ER at 1; cbv iota; cbn [env_value].
  now rewrite JSON_parse_stringify_2.
Qed.

Lemma persist_get_saved_witness :
  let env0 := persist_env (Some (js "ghp_token")) (Reply 200 (js "{}")) in
  let json := stored_document env0 sample_post "3d21ec5" in
  let env := persist_env (Some (js "ghp_token")) (Reply 200 (JSON_stringify json)) in
  run (persist env (request "GET" []))
  = (Some (json_response 200 [("problems", posted_problems sample_post);
                              ("sha", JStr (js "3d21ec5"))]),
     [read_request (target env)]).
Proof.
  cbv zeta.
  apply (persist_get_saved
           (persist_env (Some (js "ghp_token")) (Reply 200 (js "{}")))
           (persist_env (Some (js "ghp_token"))
              (Reply 200
                 (JSON_stringify
                    (stored_document
                       (persist_env (Some (js "ghp_token")) (Reply 200 (js "{}")))
                       sample_post "3d21ec5"))))
           (request "GET" []) sample_post 200
           (JSON_stringify
              (stored_document (persist_env (Some (js "ghp_token")) (Reply 200 (js "{}")))
                 sample_post "3d21ec5"))
           (stored_document (persist_env (Some (js "ghp_token")) (Reply 200 (js "{}")))
              sample_post "3d21ec5")
           (ToString (get (stored_document
                             (persist_env (Some (js "ghp_token")) (Reply 200 (js "{}")))
                             sample_post "3d21ec5") (js "content"))));
    vm_compute; reflexivity.
Defined.

(** ** The earlier variant of the generation endpoint *)






(** X30. The earlier variant reads an array that ends the reply: when the
    candidate text is prose without an opening bracket followed by the
    serialisation of an array of values that survive it, [callGemini]
    returns these values as the problems. *)
Theorem earlier_callGemini_array (env : GenEnv) (prompt : Prompt) (st : Z) (t : jstring)
        (json : JsVal) (prefix : jstring) (arr : list JsVal) :
  env_truthy (GEMINI_API_KEY env) = true ->
  gemini env (env_value (GEMINI_API_KEY env)) prompt = Reply st t ->
  ok_status st = true ->
  JSON_parse t = Some json ->
  candidate_text json = JStr (prefix ++ JSON_stringify (JArr arr)) ->
  no_unit 91 prefix = true ->
  forallb jsonable arr = true ->
  Earlier.callGemini env prompt = obj [("problems", JArr arr)].
Proof.
  intros HK HG HO HJ HT HP HA.
  unfold Earlier.callGemini; rewrite HK, HG, HO, HJ, HT; cbn [negb].
  destruct (stringify_array_shape arr) as (M & EM).
  assert (PJ : JSON_parse (91%N :: M ++ [93%N]) = Some (JArr arr))
    by (rewrite <- EM; now apply JSON_parse_stringify).
  assert (R : Earlier.raw (prefix ++ JSON_stringify (JArr arr)) = 91%N :: M ++ [93%N]).
  { rewrite EM; unfold Earlier.raw, Earlier.match_to_end, Earlier.ends_with; cbv zeta.
    assert (E1 : indexOf (prefix ++ 91%N :: M ++ [93%N]) [91%N] = Z.of_nat (length prefix)).
    { unfold indexOf; rewrite indexOf_from_skip by exact HP.
      now rewrite indexOf_from_here by (cbn [starts_with]; now rewrite N.eqb_refl). }
    assert (E2 : rev (prefix ++ 91%N :: M ++ [93%N]) = 93%N :: rev (prefix ++ 91%N :: M)).
    { change (prefix ++ 91%N :: M ++ [93%N]) with (prefix ++ (91%N :: M) ++ [93%N]).
      now rewrite app_assoc, rev_app_distr. }
    rewrite E1, E2; cbn [head_is].
    replace (0 <=? Z.of_nat (length prefix))%Z with true by (symmetry; apply Z.leb_le; lia).
    change (93 =? 93)%N with true; cbn [andb].
    rewrite Nat2Z.id, skipn_app, skipn_all, Nat.sub_diag; cbn [skipn app].
    exact (trim_core [] 91 M 93 [] eq_refl eq_refl). }
  now rewrite R, PJ.
Qed.

Lemma earlier_callGemini_array_witness :
  let arr := [obj [("answer", JStr (js "7"))]] in
  let text := (js "Aqui esta: " ++ JSON_stringify (JArr arr))%list in
  Earlier.callGemini (gen_env (Some (js "key")) (model_reply text))
    (buildPrompt (Fin 2 0) (js "PPT") (js "") (Fin 1 0))
  = obj [("problems", JArr arr)].
Proof.
  cbv zeta.
  apply (earlier_callGemini_array
           (gen_env (Some (js "key"))
              (model_reply
                 (js "Aqui esta: " ++ JSON_stringify (JArr [obj [("answer", JStr (js "7"))]]))))
           (buildPrompt (Fin 2 0) (js "PPT") (js "") (Fin 1 0)) 200
           (JSON_stringify
              (model_document
                 (js "Aqui esta: " ++ JSON_stringify (JArr [obj [("answer", JStr (js "7"))]]))))
           (model_document
              (js "Aqui esta: " ++ JSON_stringify (JArr [obj [("answer", JStr (js "7"))]])))
           (js "Aqui esta: ") [obj [("answer", JStr (js "7"))]]);
    vm_compute; reflexivity.
Defined.
